(** * ste100_linter.py: lexicon construction and rule engine

    A shallow embedding of [src/ste100_linter.py] and the properties its
    specification states about it.

    Modelling conventions.
    - A Python [str] is a Rocq [string]; a character is an [ascii], read as
      the code point of the same number (0..255, the Latin-1 block).  The
      Unicode properties used by [str.lower], [str.upper], [str.isupper],
      [str.isalpha], [str.isdigit], [str.strip] and by [\s], [\w], [\b] are
      written out for that block, as CPython 3.11 has them.  Text with code
      points above 255 is outside the model; so are the few characters
      above 255 that [re.IGNORECASE] lets the letters i, s and k match.
    - Offsets and lengths are [nat]; [max_sentence_words] is an [int], so [Z].
    - Python sets of strings are [gset string]; [sorted] of a set is
      [merge_sort] over its elements, in the order of [str] comparison (code
      points, lexicographic).
    - Exceptions are values of [error], carried by [result].
    - The file system is a finite map from paths to the decoded text of the
      files that exist.  Whether a path can be opened for writing is a
      parameter of the builder ([writable]).  Console output ([print]) is
      not modelled.
    - [extract_text_from_pdf] calls external PDF libraries and is a
      parameter of the builder.  The function itself is modelled with what
      each of the three libraries does with a path as a parameter
      ([library]).
    - Of [main], the part from the parsed arguments to the call of
      [lint_text] is modelled ([main_lint]); the console and CSV reports
      are not. *)

From Stdlib Require Import Ascii String DecimalString ZArith Lia.
From stdpp Require Import base gmap sets list strings sorting.

Local Open Scope nat_scope.

(** ** Exceptions *)

Inductive error : Type :=
| FileNotFoundError (path : string)
| OSError (path : string)
| IndexError
| AttributeError
| RuntimeError.

Inductive result (A : Type) : Type :=
| Ok (a : A)
| Err (e : error).
Arguments Ok {A} a.
Arguments Err {A} e.

Global Instance result_ret : MRet result := fun A a => Ok a.
Global Instance result_bind : MBind result := fun A B f m =>
  match m with
  | Ok a => f a
  | Err e => Err e
  end.

(** ** The Python string operations the linter uses *)

Module Py.

Definition chars : string -> list ascii := String.list_ascii_of_string.
Definition str : list ascii -> string := String.string_of_list_ascii.
Definition len (s : string) : nat := length (chars s).
Definition code (c : ascii) : N := N_of_ascii c.

Definition between (lo hi : N) (c : ascii) : bool :=
  ((lo <=? code c) && (code c <=? hi))%N.
Definition is_code (n : N) (c : ascii) : bool := (code c =? n)%N.

(** Unicode character properties, code points 0..255. *)
Definition char_isspace (c : ascii) : bool :=
  between 9 13 c || between 28 32 c || is_code 133 c || is_code 160 c.
Definition char_is_uppercase (c : ascii) : bool :=
  between 65 90 c || (between 192 222 c && negb (is_code 215 c)).
Definition char_is_lowercase (c : ascii) : bool :=
  between 97 122 c || is_code 170 c || is_code 181 c || is_code 186 c
  || (between 223 255 c && negb (is_code 247 c)).
Definition char_isalpha (c : ascii) : bool :=
  char_is_uppercase c || char_is_lowercase c.
Definition char_isdigit (c : ascii) : bool :=
  between 48 57 c || is_code 178 c || is_code 179 c || is_code 185 c.
Definition char_isnumeric (c : ascii) : bool :=
  char_isdigit c || between 188 190 c.
Definition char_isalnum (c : ascii) : bool :=
  char_isalpha c || char_isnumeric c.

Definition char_lower (c : ascii) : ascii :=
  if char_is_uppercase c then ascii_of_N (code c + 32) else c.

(** [str.upper] leaves the block for two characters and lengthens one, so
    its result is given as code points. *)
Definition char_upper (c : ascii) : list N :=
  if between 97 122 c || (between 224 254 c && negb (is_code 247 c))
  then [(code c - 32)%N]
  else if is_code 223 c then [83%N; 83%N]
  else if is_code 181 c then [924%N]
  else if is_code 255 c then [376%N]
  else [code c].

Definition lower (s : string) : string := str (map char_lower (chars s)).
Definition upper (s : string) : list N := flat_map char_upper (chars s).
Definition codes (s : string) : list N := map code (chars s).

(** [s.upper() == s] *)
Definition upper_is_self (s : string) : bool := bool_decide (upper s = codes s).
(** [s.lower() == s] *)
Definition lower_is_self (s : string) : bool := bool_decide (lower s = s).

Definition isdigit (s : string) : bool :=
  match chars s with
  | [] => false
  | l => forallb char_isdigit l
  end.

Definition isupper (s : string) : bool :=
  forallb (fun c => negb (char_is_lowercase c)) (chars s)
  && existsb char_is_uppercase (chars s).

Fixpoint lstrip_chars (l : list ascii) : list ascii :=
  match l with
  | c :: l' => if char_isspace c then lstrip_chars l' else l
  | [] => []
  end.
Definition rstrip_chars (l : list ascii) : list ascii :=
  rev (lstrip_chars (rev l)).
Definition strip (s : string) : string :=
  str (rstrip_chars (lstrip_chars (chars s))).

Definition endswith (s suffix : string) : bool :=
  bool_decide (chars suffix `suffix_of` chars s).

(** [s[a:b]] for offsets [0 <= a], [0 <= b]. *)
Definition slice (s : string) (a b : nat) : string :=
  str (take (b - a) (drop a (chars s))).
(** [s[:-k]] *)
Definition drop_last (k : nat) (s : string) : string :=
  str (take (len s - k) (chars s)).
(** [s[-k]] for [k >= 1]; out of range raises [IndexError]. *)
Definition getitem_neg (s : string) (k : nat) : result ascii :=
  if (k <=? len s) && (1 <=? k)
  then match chars s !! (len s - k) with
       | Some c => Ok c
       | None => Err IndexError
       end
  else Err IndexError.

Definition of_char (c : ascii) : string := String c EmptyString.

(** [str(n)] for an [int]. *)
Definition str_of_int (z : Z) : string := NilZero.string_of_int (Z.to_int z).

End Py.

(** ** Regular expressions: the fragment of Python's [re] the linter uses

    A backtracking matcher in continuation-passing style.  Alternatives are
    tried left to right, a repetition is greedy and gives characters back one
    at a time, and a group records the span of its last successful pass, as
    in [re].  Every repetition in the source's patterns is over a
    one-character class, which is what [Rep] offers. *)

Module Re.

Inductive regex : Type :=
| Eps
| Chr (p : ascii -> bool)
| Seq (r1 r2 : regex)
| Alt (r1 r2 : regex)
| Rep (p : ascii -> bool) (lo : nat)
| Bnd
| Grp (n : nat) (r : regex).

Definition caps : Type := list (nat * (nat * nat)).

Fixpoint group_span (c : caps) (n : nat) : option (nat * nat) :=
  match c with
  | [] => None
  | (m, sp) :: c' => if m =? n then Some sp else group_span c' n
  end.

Record rmatch : Type := Match { m_start : nat; m_end : nat; m_groups : caps }.

(** [\w] *)
Definition word_char (c : ascii) : bool :=
  Py.char_isalnum c || Py.is_code 95 c.

Definition word_at (s : list ascii) (i : nat) : bool :=
  match s !! i with
  | Some c => word_char c
  | None => false
  end.

(** [\b] *)
Definition at_boundary (s : list ascii) (i : nat) : bool :=
  xorb (match i with 0 => false | S j => word_at s j end) (word_at s i).

Fixpoint run (p : ascii -> bool) (l : list ascii) : nat :=
  match l with
  | c :: l' => if p c then S (run p l') else 0
  | [] => 0
  end.

Definition kont : Type := nat -> caps -> option (nat * caps).

Fixpoint backoff (d base : nat) (k : nat -> option (nat * caps))
  : option (nat * caps) :=
  match k (base + d) with
  | Some m => Some m
  | None => match d with
            | 0 => None
            | S d' => backoff d' base k
            end
  end.

Fixpoint exec (s : list ascii) (r : regex) (i : nat) (c : caps) (k : kont)
  : option (nat * caps) :=
  match r with
  | Eps => k i c
  | Chr p =>
      match s !! i with
      | Some a => if p a then k (S i) c else None
      | None => None
      end
  | Seq r1 r2 => exec s r1 i c (fun j c' => exec s r2 j c' k)
  | Alt r1 r2 =>
      match exec s r1 i c k with
      | Some m => Some m
      | None => exec s r2 i c k
      end
  | Rep p lo =>
      let n := run p (drop i s) in
      if lo <=? n then backoff (n - lo) (i + lo) (fun j => k j c) else None
  | Bnd => if at_boundary s i then k i c else None
  | Grp n r' => exec s r' i c (fun j c' => k j ((n, (i, j)) :: c'))
  end.

(** One attempt at position [p]; with [must_advance] an empty match is
    refused and the matcher backtracks for another. *)
Definition match_at (r : regex) (s : list ascii) (p : nat) (must_advance : bool)
  : option (nat * caps) :=
  exec s r p [] (fun j c => if must_advance && (j =? p) then None else Some (j, c)).

(** The scanner behind [finditer], [findall] and [split]: start positions
    are tried left to right, [n] counts the positions still to try, and
    positions before [lim] lie inside the previous match.  After an empty
    match the same position is tried once more for a non-empty one. *)
Fixpoint scan (r : regex) (s : list ascii) (n p lim : nat) : list rmatch :=
  match n with
  | 0 => []
  | S n' =>
      if p <? lim then scan r s n' (S p) lim
      else
        match match_at r s p false with
        | None => scan r s n' (S p) lim
        | Some (e, c) =>
            if e =? p then
              Match p p c ::
                match match_at r s p true with
                | Some (e', c') => Match p e' c' :: scan r s n' (S p) e'
                | None => scan r s n' (S p) p
                end
            else Match p e c :: scan r s n' (S p) e
        end
  end.

Definition finditer (r : regex) (text : string) : list rmatch :=
  scan r (Py.chars text) (S (Py.len text)) 0 0.

Definition search (r : regex) (text : string) : option rmatch :=
  head (finditer r text).

(** [m.group(0)] *)
Definition matched (text : string) (m : rmatch) : string :=
  Py.slice text (m_start m) (m_end m).

(** [m.group(n)]: [None] when the group took no part in the match. *)
Definition group (text : string) (m : rmatch) (n : nat) : option string :=
  match group_span (m_groups m) n with
  | Some (a, b) => Some (Py.slice text a b)
  | None => None
  end.

(** [findall] and [split] for a pattern without groups. *)
Definition findall (r : regex) (text : string) : list string :=
  map (matched text) (finditer r text).

Fixpoint split_at (text : string) (ms : list rmatch) (last : nat) : list string :=
  match ms with
  | [] => [Py.slice text last (Py.len text)]
  | m :: ms' => Py.slice text last (m_start m) :: split_at text ms' (m_end m)
  end.

Definition split (r : regex) (text : string) : list string :=
  split_at text (finditer r text) 0.

(** What a successful pass of [exec] over [r] from [i] to [j] amounts to,
    with the groups before and after. *)
Inductive matches (s : list ascii) : regex -> nat -> caps -> nat -> caps -> Prop :=
| M_eps i c : matches s Eps i c i c
| M_chr p i c a :
    s !! i = Some a -> p a = true -> matches s (Chr p) i c (S i) c
| M_seq r1 r2 i c j c' k c'' :
    matches s r1 i c j c' -> matches s r2 j c' k c'' ->
    matches s (Seq r1 r2) i c k c''
| M_alt_l r1 r2 i c j c' :
    matches s r1 i c j c' -> matches s (Alt r1 r2) i c j c'
| M_alt_r r1 r2 i c j c' :
    matches s r2 i c j c' -> matches s (Alt r1 r2) i c j c'
| M_rep p lo i c j :
    i + lo <= j ->
    (forall x, i <= x < j -> exists a, s !! x = Some a /\ p a = true) ->
    matches s (Rep p lo) i c j c
| M_bnd i c : at_boundary s i = true -> matches s Bnd i c i c
| M_grp n r i c j c' :
    matches s r i c j c' -> matches s (Grp n r) i c j ((n, (i, j)) :: c').

(** The least number of characters a match of [r] takes. *)
Fixpoint min_len (r : regex) : nat :=
  match r with
  | Eps | Bnd => 0
  | Chr _ => 1
  | Seq r1 r2 => min_len r1 + min_len r2
  | Alt r1 r2 => min (min_len r1) (min_len r2)
  | Rep _ lo => lo
  | Grp _ r' => min_len r'
  end.

(** Non-empty spans between [lo] and [hi], each starting at or after the end
    of the one before. *)
Fixpoint chain (lo hi : nat) (spans : list (nat * nat)) : Prop :=
  match spans with
  | [] => True
  | (a, b) :: rest => lo <= a /\ a < b /\ b <= hi /\ chain b hi rest
  end.

Definition m_span (m : rmatch) : nat * nat := (m_start m, m_end m).

(** Pattern syntax. *)
Definition lit (c : ascii) : regex := Chr (Ascii.eqb c).
(** A literal under [re.IGNORECASE]. *)
Definition lit_i (c : ascii) : regex :=
  Chr (fun x => Ascii.eqb (Py.char_lower x) (Py.char_lower c)).
Definition seqs (rs : list regex) : regex := foldr Seq Eps rs.
Fixpoint alts (rs : list regex) : regex :=
  match rs with
  | [] => Chr (fun _ => false)
  | [r] => r
  | r :: rs' => Alt r (alts rs')
  end.
Definition word (s : string) : regex := seqs (map lit (Py.chars s)).
Definition word_i (s : string) : regex := seqs (map lit_i (Py.chars s)).
Definition opt (r : regex) : regex := Alt r Eps.

Definition letter (c : ascii) : bool := Py.between 65 90 c || Py.between 97 122 c.
Definition digit (c : ascii) : bool := Py.between 48 57 c.
Definition one_of (s : string) (c : ascii) : bool := existsb (Ascii.eqb c) (Py.chars s).

End Re.

(** ** Morphology helpers *)

Definition newline : ascii := ascii_of_N 10.
Definition nl : string := String newline EmptyString.

(** [x in s] for a one-character [x]. *)
Definition char_in (c : ascii) (s : string) : bool := Re.one_of s c.

Definition _is_vowel (c : ascii) : bool := char_in (Py.char_lower c) "aeiou".

Definition _ends_with_any (w : string) (endings : list string) : bool :=
  existsb (Py.endswith w) endings.

Definition _double_final_consonant_for_ing_ed (w : string) : result bool :=
  if Py.len w <? 3 then Ok false
  else
    c1 ← Py.getitem_neg w 1;
    let last := Py.char_lower c1 in
    if char_in last "wxy" then Ok false
    else if _is_vowel last then Ok false
    else
      c2 ← Py.getitem_neg w 2;
      if negb (_is_vowel c2) then Ok false
      else
        c3 ← Py.getitem_neg w 3;
        Ok (negb (_is_vowel c3)).

(** [low.endswith("y") and len(b) > 1 and not _is_vowel(b[-2])] *)
Definition consonant_y (b low : string) : result bool :=
  if Py.endswith low "y" then
    if 1 <? Py.len b then
      c ← Py.getitem_neg b 2;
      Ok (negb (_is_vowel c))
    else Ok false
  else Ok false.

Definition _verb_inflections (base_upper : string) : result (gset string) :=
  let b := base_upper in
  let out : gset string := {[ b ]} in
  let low := Py.lower b in
  (* 3rd person singular *)
  out ← (if _ends_with_any low ["s"; "x"; "z"; "ch"; "sh"; "o"]
         then Ok (out ∪ {[ b +:+ "ES" ]})
         else
           cy ← consonant_y b low;
           if cy : bool then Ok (out ∪ {[ Py.drop_last 1 b +:+ "IES" ]})
           else Ok (out ∪ {[ b +:+ "S" ]}));
  (* PAST *)
  out ← (if Py.endswith low "e" then Ok (out ∪ {[ b +:+ "D" ]})
         else
           dbl ← _double_final_consonant_for_ing_ed low;
           if dbl : bool then
             c ← Py.getitem_neg b 1;
             Ok (out ∪ {[ (b +:+ Py.of_char c) +:+ "ED" ]})
           else Ok (out ∪ {[ b +:+ "ED" ]}));
  (* ING *)
  out ← (if Py.endswith low "ie" then Ok (out ∪ {[ Py.drop_last 2 b +:+ "YING" ]})
         else if Py.endswith low "e" && negb (Py.endswith low "ee")
         then Ok (out ∪ {[ Py.drop_last 1 b +:+ "ING" ]})
         else
           dbl ← _double_final_consonant_for_ing_ed low;
           if dbl : bool then
             c ← Py.getitem_neg b 1;
             Ok (out ∪ {[ (b +:+ Py.of_char c) +:+ "ING" ]})
           else Ok (out ∪ {[ b +:+ "ING" ]}));
  Ok out.

Definition _plural_forms (base_upper : string) : result (gset string) :=
  let b := base_upper in
  let out : gset string := {[ b ]} in
  let low := Py.lower b in
  if _ends_with_any low ["s"; "x"; "z"; "ch"; "sh"]
  then Ok (out ∪ {[ b +:+ "ES" ]})
  else
    cy ← consonant_y b low;
    if cy : bool then Ok (out ∪ {[ Py.drop_last 1 b +:+ "IES" ]})
    else Ok (out ∪ {[ b +:+ "S" ]}).

(** ** Build lexicons *)

(** [[A-Za-z0-9\-/ ]], [[a-zA-Z\. ]] and [[A-Z0-9\-]] *)
Definition headword_char (c : ascii) : bool :=
  Re.letter c || Re.digit c || Re.one_of "-/ " c.
Definition pos_char (c : ascii) : bool := Re.letter c || Re.one_of ". " c.
Definition caps_char (c : ascii) : bool :=
  Py.between 65 90 c || Re.digit c || Re.one_of "-" c.

(** [\n([A-Za-z][A-Za-z0-9\-/ ]{1,})\s*\(([a-zA-Z\. ]+)\)\s] *)
Definition HEADWORD_RE : Re.regex :=
  Re.seqs
    [ Re.lit newline;
      Re.Grp 1 (Re.Seq (Re.Chr Re.letter) (Re.Rep headword_char 1));
      Re.Rep Py.char_isspace 0;
      Re.lit "("%char;
      Re.Grp 2 (Re.Rep pos_char 1);
      Re.lit ")"%char;
      Re.Chr Py.char_isspace ].

(** [Word\s+Approved meaning/?\s+STE], [re.IGNORECASE] *)
Definition HEADER_SPLIT_RE : Re.regex :=
  Re.seqs
    [ Re.word_i "Word";
      Re.Rep Py.char_isspace 1;
      Re.word_i "Approved meaning";
      Re.opt (Re.lit_i "/"%char);
      Re.Rep Py.char_isspace 1;
      Re.word_i "STE" ].

(** [[A-Za-z]] *)
Definition LETTER_RE : Re.regex := Re.Chr Re.letter.

(** [\b[A-Z][A-Z0-9\-]{2,}\b] *)
Definition ALLCAPS_RE : Re.regex :=
  Re.seqs [ Re.Bnd; Re.Chr (Py.between 65 90); Re.Rep caps_char 2; Re.Bnd ].

(** [m.group(n).strip()]; a group that took no part is [None], which has no
    [strip]. *)
Definition group_strip (text : string) (m : Re.rmatch) (n : nat) : result string :=
  match Re.group text m n with
  | Some g => Ok (Py.strip g)
  | None => Err AttributeError
  end.

Abbreviation lexicons := (gset string * gset string)%type.

(** The body of the inner loop of [build_lexicons_from_pdf], for one match. *)
Definition add_headword (hw pos : string) (acc : lexicons) : result lexicons :=
  let '(approved_words, forbidden_words) := acc in
  if negb (bool_decide (is_Some (Re.search LETTER_RE hw))) then Ok acc
  else if Py.upper_is_self hw && negb (Py.lower_is_self hw) then
    (* APPROVED headword *)
    if char_in "v"%char pos then
      forms ← _verb_inflections hw;
      Ok (approved_words ∪ forms, forbidden_words)
    else if char_in "n"%char pos then
      forms ← _plural_forms hw;
      Ok (approved_words ∪ forms, forbidden_words)
    else Ok (approved_words ∪ {[ hw ]}, forbidden_words)
  else if Py.lower_is_self hw && negb (Py.upper_is_self hw) then
    (* FORBIDDEN headword (official only) *)
    Ok (approved_words, forbidden_words ∪ {[ hw ]})
  else
    (* Mixed case -> skip *)
    Ok acc.

Definition headword_step (sec : string) (acc : lexicons) (m : Re.rmatch)
  : result lexicons :=
  hw ← group_strip sec m 1;
  p ← group_strip sec m 2;
  add_headword hw (Py.lower p) acc.

(** A [for] loop whose body may raise. *)
Fixpoint for_each {A S : Type} (body : S -> A -> result S) (xs : list A) (st : S)
  : result S :=
  match xs with
  | [] => Ok st
  | x :: xs' => st' ← body st x; for_each body xs' st'
  end.

Definition section_step (acc : lexicons) (sec : string) : result lexicons :=
  for_each (headword_step sec) (Re.finditer HEADWORD_RE sec) acc.

(** [build_lexicons_from_pdf], from the extracted text on. *)
Definition build_lexicons (full : string) : result lexicons :=
  let parts := Re.split HEADER_SPLIT_RE full in
  for_each section_step (drop 1 parts) (∅, ∅).

Definition HEADINGS : gset string :=
  list_to_set
    [ "WORD"; "APPROVED"; "MEANING"; "ALTERNATIVES"; "STE"; "EXAMPLE"; "NON";
      "PART"; "SPEECH"; "PAGE"; "ISSUE"; "DICTIONARY"; "TABLE"; "FIGURE";
      "APPENDIX"; "SECTION"; "NOTE" ].

(** [extract_all_caps_words], from the extracted text on. *)
Definition all_caps_words (text : string) : gset string :=
  fold_left
    (fun words m =>
       if Py.isdigit m then words
       else if bool_decide (m ∈ HEADINGS) then words
       else words ∪ {[ m ]})
    (Re.findall ALLCAPS_RE text) ∅.

(** [sorted(words)] *)
Definition sorted (words : gset string) : list string :=
  merge_sort String.le (elements words).

(** What the [with open(path, "w")] block writes. *)
Definition wordlist_text (words : list string) : string :=
  fold_right (fun w rest => (w +:+ nl) +:+ rest) EmptyString words.

Abbreviation files := (gmap string string).

(** [os.path.exists] *)
Definition path_exists (fs : files) (path : string) : bool :=
  bool_decide (is_Some (fs !! path)).

(** The file system once a [with open(path, "w")] block has run to its end. *)
Definition with_wordlist (path : string) (words : gset string) (fs : files) : files :=
  <[ path := wordlist_text (sorted words) ]> fs.

Section Builder.

(** [extract_text_from_pdf] is the document text source: it reads the PDF
    through one of three external libraries and raises [RuntimeError] when
    none of them can. *)
Variable extract_text_from_pdf : string -> result string.

(** Whether [open(path, "w")] succeeds: it raises [OSError]
    ([FileNotFoundError] for a missing directory, [PermissionError],
    [IsADirectoryError]) on what the map of the files does not hold, so this
    is a parameter too.  The files that a call has written before it raises
    are not part of its result. *)
Variable writable : string -> bool.

Definition build_lexicons_from_pdf (pdf_path : string) : result lexicons :=
  full ← extract_text_from_pdf pdf_path;
  build_lexicons full.

Definition extract_all_caps_words (pdf_path : string) : result (gset string) :=
  text ← extract_text_from_pdf pdf_path;
  Ok (all_caps_words text).

(** One [with open(path, "w")] block of [ensure_wordlists]. *)
Definition write_wordlist (path : string) (words : gset string) (fs : files)
  : result files :=
  if writable path then Ok (with_wordlist path words fs) else Err (OSError path).

Definition ensure_wordlists (fs : files)
    (approved_path forbidden_path allcaps_path pdf_path : string) : result files :=
  let need_build :=
    negb (path_exists fs approved_path && path_exists fs forbidden_path
          && path_exists fs allcaps_path) in
  if negb need_build then Ok fs
  else if negb (path_exists fs pdf_path) then Err (FileNotFoundError pdf_path)
  else
    '(approved, forbidden) ← build_lexicons_from_pdf pdf_path;
    allcaps ← extract_all_caps_words pdf_path;
    fs ← write_wordlist approved_path approved fs;
    fs ← write_wordlist forbidden_path forbidden fs;
    write_wordlist allcaps_path allcaps fs.

End Builder.

(** ** Linter core *)

(** Text-mode reading: [\r\n] and a lone [\r] arrive as [\n]. *)
Fixpoint universal_newlines (l : list ascii) : list ascii :=
  match l with
  | [] => []
  | c :: l' =>
      if Py.is_code 13 c then
        match l' with
        | c' :: l'' =>
            if Py.is_code 10 c' then newline :: universal_newlines l''
            else newline :: universal_newlines l'
        | [] => [newline]
        end
      else c :: universal_newlines l'
  end.

(** [for line in f]: each line keeps its terminating [\n]. *)
Fixpoint lines_of (cur : list ascii) (l : list ascii) : list string :=
  match l with
  | [] => match cur with
          | [] => []
          | _ => [Py.str (rev cur)]
          end
  | c :: l' =>
      if Py.is_code 10 c then Py.str (rev (c :: cur)) :: lines_of [] l'
      else lines_of (c :: cur) l'
  end.

Definition file_lines (content : string) : list string :=
  lines_of [] (universal_newlines (Py.chars content)).

Definition nonempty (s : string) : bool := negb (Py.len s =? 0).

Definition load_wordlist (fs : files) (path : string) : result (gset string) :=
  match fs !! path with
  | None => Err (FileNotFoundError path)
  | Some content =>
      Ok (list_to_set
            (map Py.strip (filter (fun line => nonempty (Py.strip line)) (file_lines content))))
  end.

(** [[A-Za-z][A-Za-z0-9\-\/']*] *)
Definition token_char (c : ascii) : bool :=
  Re.letter c || Re.digit c || Re.one_of "-/'" c.
Definition TOKEN_RE : Re.regex := Re.Seq (Re.Chr Re.letter) (Re.Rep token_char 0).

(** [([\.!\?])] *)
Definition TERMINATOR_RE : Re.regex := Re.Grp 1 (Re.Chr (Re.one_of ".!?")).

(** [\b(am|is|are|was|were|be|been|being)\s+\w+ed\b], [re.IGNORECASE] *)
Definition PASSIVE_RE : Re.regex :=
  Re.seqs
    [ Re.Bnd;
      Re.Grp 1 (Re.alts (map Re.word_i
                  ["am"; "is"; "are"; "was"; "were"; "be"; "been"; "being"]));
      Re.Rep Py.char_isspace 1;
      Re.Rep Re.word_char 1;
      Re.word_i "ed";
      Re.Bnd ].

Abbreviation spanned := (string * nat * nat)%type.

Definition tokenize_words_with_spans (text : string) : list spanned :=
  map (fun m => (Re.matched text m, Re.m_start m, Re.m_end m))
      (Re.finditer TOKEN_RE text).

(** The loop of [split_sentences_with_spans] over the terminators still to
    come, [start] being the end of the previous one, followed by the tail
    after the last terminator. *)
Fixpoint sentences_from (text : string) (ms : list Re.rmatch) (start : nat)
  : list spanned :=
  match ms with
  | m :: ms' =>
      let end_ := Re.m_end m in
      let chunk := Py.strip (Py.slice text start end_) in
      if nonempty chunk
      then (chunk, start, end_) :: sentences_from text ms' end_
      else sentences_from text ms' end_
  | [] =>
      if start <? Py.len text then
        let chunk := Py.strip (Py.slice text start (Py.len text)) in
        if nonempty chunk then [(chunk, start, Py.len text)] else []
      else []
  end.

Definition split_sentences_with_spans (text : string) : list spanned :=
  sentences_from text (Re.finditer TERMINATOR_RE text) 0.

Definition is_acronym (token : string) : bool :=
  Py.isupper token && (2 <=? length (filter Py.char_isalpha (Py.chars token))).

Inductive issue_type : Type :=
| SentenceTooLong
| ForbiddenWord
| UnapprovedWord
| PassiveVoice.

Global Instance issue_type_eq_dec : EqDecision issue_type.
Proof. solve_decision. Defined.

Record Issue : Type := mkIssue {
  type : issue_type;
  message : string;
  sentence_index : option nat;
  span : nat * nat;
  suggestion : string
}.

(** The body of the sentence-length loop for the sentence with index
    [s_idx]. *)
Definition sentence_issue (max_sentence_words : Z) (s_idx : nat) (t : spanned)
  : list Issue :=
  let '(sent, s_start, s_end) := t in
  let words := map (fun t => fst (fst t)) (tokenize_words_with_spans sent) in
  if (max_sentence_words <? Z.of_nat (length words))%Z then
    [ {| type := SentenceTooLong;
         message := "Sentence has " +:+ Py.str_of_int (Z.of_nat (length words))
                    +:+ " words (>" +:+ Py.str_of_int max_sentence_words +:+ ").";
         sentence_index := Some s_idx;
         span := (s_start, s_end);
         suggestion := "Split into shorter sentences (<= 20 words)." |} ]
  else [].

(** [for s_idx, (sent, s_start, s_end) in enumerate(sentences)], [s_idx]
    being the index of the first sentence of [sentences]. *)
Fixpoint sentence_issues (max_sentence_words : Z) (s_idx : nat)
    (sentences : list spanned) : list Issue :=
  match sentences with
  | [] => []
  | t :: rest =>
      sentence_issue max_sentence_words s_idx t
      ++ sentence_issues max_sentence_words (S s_idx) rest
  end.

(** The body of the word-check loop for one token. *)
Definition word_issue (approved forbidden : gset string) (t : spanned) : list Issue :=
  let '(tok, start, end_) := t in
  let low := Py.lower tok in
  if Py.isdigit low || (Py.len low <? 3) || is_acronym tok then []
  else if bool_decide (low ∈ forbidden) then
    [ {| type := ForbiddenWord;
         message := "Forbidden word: '" +:+ tok +:+ "'";
         sentence_index := None;
         span := (start, end_);
         suggestion := "Replace with an approved alternative per ASD-STE100." |} ]
  else if negb (bool_decide (low ∈ approved)) then
    [ {| type := UnapprovedWord;
         message := "Not in approved lexicon: '" +:+ tok +:+ "'";
         sentence_index := None;
         span := (start, end_);
         suggestion := "Prefer an approved STE word or rephrase." |} ]
  else [].

Definition passive_issue (text : string) (m : Re.rmatch) : Issue :=
  {| type := PassiveVoice;
     message := "Possible passive: '" +:+ Py.slice text (Re.m_start m) (Re.m_end m) +:+ "'";
     sentence_index := None;
     span := (Re.m_start m, Re.m_end m);
     suggestion := "Use active voice where possible." |}.

(** [lint_text] once the lexicons are loaded (source lines 293-340). *)
Definition lint_issues (text : string) (approved forbidden : gset string)
    (max_sentence_words : Z) : list Issue :=
  sentence_issues max_sentence_words 0 (split_sentences_with_spans text)
  ++ flat_map (word_issue approved forbidden) (tokenize_words_with_spans text)
  ++ map (passive_issue text) (Re.finditer PASSIVE_RE text).

Definition lower_all (words : gset string) : gset string := set_map Py.lower words.

(** Effective approved = official approved + ALL-CAPS sweep, both lowercased
    for matching. *)
Definition load_approved (fs : files) (approved_path allcaps_path : string)
  : result (gset string) :=
  official ← load_wordlist fs approved_path;
  let approved := lower_all official in
  if path_exists fs allcaps_path
  then extra ← load_wordlist fs allcaps_path; Ok (approved ∪ lower_all extra)
  else Ok approved.

(** Forbidden strictly from the official list only. *)
Definition load_forbidden (fs : files) (forbidden_path : string)
  : result (gset string) :=
  if path_exists fs forbidden_path
  then listed ← load_wordlist fs forbidden_path; Ok (lower_all listed)
  else Ok ∅.

Definition lint_text (fs : files) (text : string)
    (approved_path forbidden_path allcaps_path : string)
    (max_sentence_words : Z) : result (list Issue) :=
  approved ← load_approved fs approved_path allcaps_path;
  forbidden ← load_forbidden fs forbidden_path;
  Ok (lint_issues text approved forbidden max_sentence_words).

(** ** PDF parsing *)

(** What one of the three PDF libraries does with a path: it cannot be
    imported or cannot open the file ([None]), or it gives the pages of the
    document; a page asked for its text raises ([None]) or returns a string
    or [None]. *)
Abbreviation page := (option (option string)).
Abbreviation library := (string -> option (list page)).

(** [x or ""] for a string or [None]. *)
Definition or_empty (x : option string) : string :=
  match x with
  | Some t => t
  | None => EmptyString
  end.

(** [sep.join(l)] *)
Fixpoint join (sep : string) (l : list string) : string :=
  match l with
  | [] => EmptyString
  | [x] => x
  | x :: rest => x +:+ sep +:+ join sep rest
  end.

(** The loop over the pages inside one [try]: [text_pages] grows until a
    page raises; the flag tells whether the loop came to its end. *)
Fixpoint read_pages (pages : list page) (text_pages : list string)
  : list string * bool :=
  match pages with
  | [] => (text_pages, true)
  | None :: _ => (text_pages, false)
  | Some x :: rest => read_pages rest (text_pages ++ [or_empty x])
  end.

(** One [try] block, up to its [return]. *)
Definition try_library (lib : library) (pdf_path : string) (text_pages : list string)
  : list string * bool :=
  match lib pdf_path with
  | None => (text_pages, false)
  | Some pages => read_pages pages text_pages
  end.

(** The three attempts share one list [text_pages]. *)
Definition extract_text_from_pdf (pdfplumber PyPDF2 fitz : library) (pdf_path : string)
  : result string :=
  let text_pages := [] in
  let '(text_pages, returned) := try_library pdfplumber pdf_path text_pages in
  if returned then Ok (join (nl +:+ nl) text_pages)
  else
    let '(text_pages, returned) := try_library PyPDF2 pdf_path text_pages in
    if returned then Ok (join (nl +:+ nl) text_pages)
    else
      let '(text_pages, returned) := try_library fitz pdf_path text_pages in
      if returned then Ok (join (nl +:+ nl) text_pages)
      else Err RuntimeError.

(** ** CLI *)

Definition PDF_PATH : string := "C:\Users\luede\OneDrive\Desktop\Linter BA\STE100.pdf".

(** The parsed arguments; an option that was not given is [None]. *)
Module Args.
Record t : Type := mk {
  text : option string;
  file : option string;
  approved : string;
  forbidden : string;
  allcaps : string;
  max_sentence_words : Z;
  pdf : option string;
  rebuild : bool
}.
End Args.

(** The truth value of an optional string argument. *)
Definition given (x : option string) : bool :=
  match x with
  | Some s => nonempty s
  | None => false
  end.

(** [f.read()] in text mode. *)
Definition read_text (fs : files) (path : string) : result string :=
  match fs !! path with
  | Some content => Ok (Py.str (universal_newlines (Py.chars content)))
  | None => Err (FileNotFoundError path)
  end.

(** [main], from the parsed arguments to the issues of [lint_text] (source
    lines 358-379): the file system it leaves, and the issues, or [None]
    when neither [--text] nor [--file] is given and it exits after the
    usage note.  The console and CSV reports that follow only read the
    issues. *)
Definition main_lint (extract : string -> result string) (writable : string -> bool)
    (fs : files) (args : Args.t) : result (files * option (list Issue)) :=
  let pdf_path := if given (Args.pdf args) then or_empty (Args.pdf args) else PDF_PATH in
  fs ← (if Args.rebuild args
           || negb (path_exists fs (Args.approved args)
                    && path_exists fs (Args.forbidden args)
                    && path_exists fs (Args.allcaps args))
        then ensure_wordlists extract writable fs (Args.approved args)
               (Args.forbidden args) (Args.allcaps args) pdf_path
        else Ok fs);
  if negb (given (Args.text args)) && negb (given (Args.file args)) then Ok (fs, None)
  else
    text ← (if given (Args.file args) then read_text fs (or_empty (Args.file args))
            else Ok (or_empty (Args.text args)));
    issues ← lint_text fs text (Args.approved args) (Args.forbidden args)
               (Args.allcaps args) (Args.max_sentence_words args);
    Ok (fs, Some issues).

(** ** Vocabulary of the specification *)

Definition span3 (t : spanned) : nat * nat := (snd (fst t), snd t).

(** The three phases of the issue list. *)
Definition phase (i : Issue) : nat :=
  match type i with
  | SentenceTooLong => 1
  | ForbiddenWord | UnapprovedWord => 2
  | PassiveVoice => 3
  end.

(** Sentence order: by sentence index. *)
Definition sentence_before (i j : Issue) : Prop :=
  match sentence_index i, sentence_index j with
  | Some a, Some b => a < b
  | _, _ => False
  end.

(** Left-to-right text order: [i] ends where or before [j] starts, and starts
    strictly before it. *)
Definition left_of (i j : Issue) : Prop :=
  snd (span i) <= fst (span j) /\ fst (span i) < fst (span j).

Definition span_in_bounds (text : string) (i : Issue) : Prop :=
  fst (span i) <= snd (span i) <= Py.len text.

(** The issues of one kind raised at one span. *)
Definition issues_at (ty : issue_type) (sp : nat * nat) (issues : list Issue)
  : list Issue :=
  filter (fun i => type i = ty /\ span i = sp) issues.

(** The sentence-length issues of the sentence with index [idx]. *)
Definition issues_of_sentence (idx : nat) (issues : list Issue) : list Issue :=
  filter (fun i => type i = SentenceTooLong /\ sentence_index i = Some idx) issues.

(** The endings the morphology helpers append. *)
Definition SUFFIXES : list string :=
  [ "ES"; "IES"; "S"; "D"; "ED"; "YING"; "ING" ].

(** [w] is a stem made of characters of [b] followed by one of the endings. *)
Definition derived (b w : string) : Prop :=
  exists x y, w = x +:+ y /\ y ∈ SUFFIXES /\
              forall c, c ∈ Py.chars x -> c ∈ Py.chars b.

(** A word that fills exactly one line of a wordlist file: it has no line
    break and is not blank. *)
Definition single_line (w : string) : Prop :=
  Forall (fun c => Py.is_code 10 c = false /\ Py.is_code 13 c = false) (Py.chars w).
Definition not_blank (w : string) : Prop :=
  Exists (fun c => Py.char_isspace c = false) (Py.chars w).
Definition listable (w : string) : Prop := single_line w /\ not_blank w.

(** A word as [strip] leaves it when it leaves anything: not empty, no white
    space at either end. *)
Definition trimmed (w : string) : Prop := w <> "" /\ Py.strip w = w.

(** Every word of either lexicon is [trimmed]. *)
Definition lexicons_trimmed (acc : lexicons) : Prop :=
  forall w, w ∈ acc.1 ∪ acc.2 -> trimmed w.

(** The forms of "to be" the passive pattern looks for. *)
Definition AUXILIARIES : list string :=
  [ "am"; "is"; "are"; "was"; "were"; "be"; "been"; "being" ].

(** The text reads [w] from offset [i] on, case apart. *)
Definition spelled (s : list ascii) (i : nat) (w : string) : Prop :=
  forall k c, Py.chars w !! k = Some c ->
    exists x, s !! (i + k) = Some x /\ Py.char_lower x = c.

(** Approved words are in upper case, forbidden words are not. *)
Definition lexicons_cased (acc : lexicons) : Prop :=
  (forall w, w ∈ acc.1 -> Py.upper_is_self w = true) /\
  (forall w, w ∈ acc.2 -> Py.upper_is_self w = false).

(** A place that no token goes across: the start or the end of the text,
    or a place next to a character that no token holds. *)
Definition token_break (s : list ascii) (q : nat) : Prop :=
  q = 0 \/ length s <= q \/
  (exists c, s !! q = Some c /\ token_char c = false) \/
  (exists c, s !! (q - 1) = Some c /\ token_char c = false).

(** A match moved [d] characters to the right. *)
Definition shift (d : nat) (m : Re.rmatch) : Re.rmatch :=
  Re.Match (d + Re.m_start m) (d + Re.m_end m) (Re.m_groups m).

(** Every word of either lexicon is made of the characters a headword can
    hold. *)
Definition lexicons_chars (acc : lexicons) : Prop :=
  forall w, w ∈ acc.1 ∪ acc.2 ->
    Forall (fun c => headword_char c = true) (Py.chars w).

(** Strictly ascending: sorted, without duplicates. *)
Definition string_lt (s1 s2 : string) : Prop := String.le s1 s2 /\ s1 <> s2.

(** What the builder maintains: an approved word changes under [lower], a
    forbidden word does not, and both fill one line of a wordlist file. *)
Definition lexicons_ok (acc : lexicons) : Prop :=
  (forall w, w ∈ acc.1 -> Py.lower w <> w /\ listable w) /\
  (forall w, w ∈ acc.2 -> Py.lower w = w /\ listable w).

(** The acronym test in the words of the specification: all characters
    upper case, and at least two alphabetic characters. *)
Definition acronym_as_specified (token : string) : bool :=
  forallb Py.char_is_uppercase (Py.chars token)
  && (2 <=? length (filter Py.char_isalpha (Py.chars token))).

(** What [is_acronym] comes to on a token of [TOKEN_RE]: no lower-case
    letter [a-z], and at least two letters [A-Za-z]. *)
Definition token_acronym (token : string) : bool :=
  forallb (fun c => negb (Py.between 97 122 c)) (Py.chars token)
  && (2 <=? length (filter (fun c => Re.letter c = true) (Py.chars token))).

(** ** Sample inputs *)

Definition sample_approved : list string :=
  [ "AND"; "DO"; "DOES"; "MINUTE"; "MINUTES"; "OPERATOR"; "PROCEDURE";
    "START"; "STARTS"; "SYSTEM"; "THE" ].

Definition sample_files : files :=
  {[ "approved.txt" := wordlist_text sample_approved;
     "forbidden.txt" := wordlist_text ["abandon"; "valve"] ]}.

Definition sample_text : string :=
  "The valve was opened by the technician. It has been  Checked? being x_ed".

(** A part number that is listed as forbidden, beside a forbidden word. *)
Definition part_number_files : files :=
  {[ "approved.txt" := wordlist_text ["CHECK"; "THE"];
     "forbidden.txt" := wordlist_text ["ab-1"; "valve"] ]}.

Definition part_number_text : string := "Check AB-1 and the valve.".

Definition twenty_words : string :=
  "one two three four five six seven eight nine ten one two three four five six seven eight nine ten".

(** A sentence of twenty words followed by one of twenty-one. *)
Definition sample_long_text : string :=
  twenty_words +:+ ". " +:+ twenty_words +:+ " more.".

(** The sentence of the end-to-end example, and the approved words the
    specification lists for it. *)
Definition operator_text : string :=
  "The operator starts the system and does the procedure in 25 minutes.".

Definition operator_words : list string :=
  [ "operator"; "start"; "starts"; "system"; "do"; "does"; "procedure";
    "minute"; "minutes" ].

Definition operator_files : files :=
  {[ "approved.txt" := wordlist_text operator_words;
     "forbidden.txt" := EmptyString ]}.

(** A dictionary page: one table header, then rows for an approved verb, a
    forbidden word, an approved noun, a mixed-case row and an approved
    adjective. *)
Definition sample_document : string :=
  "ASD-STE100 DICTIONARY" +:+ nl +:+
  "Word  Approved meaning/ STE example" +:+ nl +:+
  "STOP (v) To come to an end" +:+ nl +:+
  "stop (n) Use STOP as a verb" +:+ nl +:+
  "BOX (n) A container" +:+ nl +:+
  "Mixed Case (adj) not a headword" +:+ nl +:+
  "SAFE (adj) Not dangerous" +:+ nl.

(** A page without a table header. *)
Definition sample_plain_document : string :=
  "No table here" +:+ nl +:+ "STOP (v) To come to an end" +:+ nl.

Definition sample_extract (pdf_path : string) : result string :=
  if String.eqb pdf_path "STE100.pdf" then Ok sample_document
  else if String.eqb pdf_path "plain.pdf" then Ok sample_plain_document
  else Err RuntimeError.

(** Two states of the file system before a build: nothing built yet, and a
    stale approved list left behind. *)
Definition sample_fresh_files : files := {[ "STE100.pdf" := "%PDF-1.7" ]}.
Definition sample_stale_files : files :=
  {[ "STE100.pdf" := "%PDF-1.7"; "approved.txt" := "zebra" +:+ nl +:+ "apple" ]}.

(** A text file with the three kinds of line end, beside the PDF. *)
Definition sample_manual : string :=
  "Stop the box." +:+ String (ascii_of_N 13) nl +:+ "The box was stopped."
  +:+ String (ascii_of_N 13) "Stop." +:+ nl.
Definition sample_manual_files : files :=
  {[ "STE100.pdf" := "%PDF-1.7"; "manual.txt" := sample_manual ]}.

(** A disk on which every path can be written but those under a directory
    that is not there. *)
Definition sample_writable (path : string) : bool :=
  negb (String.prefix "no_such_dir/" path).

(** What the loop of [split_sentences_with_spans] needs of the terminators
    still to come: they follow one another from [start], each is one
    terminator character, and none after [start] is left out. *)
Definition terminators_from (text : string) (start : nat) (ms : list Re.rmatch) : Prop :=
  Re.chain start (Py.len text) (map Re.m_span ms) /\
  Forall (fun m => Re.m_end m = S (Re.m_start m) /\
            exists c, Py.chars text !! Re.m_start m = Some c /\
                      Re.one_of ".!?" c = true) ms /\
  forall q c, start <= q -> Py.chars text !! q = Some c ->
    Re.one_of ".!?" c = true -> exists m, m ∈ ms /\ Re.m_start m = q.

(** * Properties *)

(** ** Strings *)

Lemma chars_str l : Py.chars (Py.str l) = l.
Proof. apply String.list_ascii_of_string_of_list_ascii. Qed.

Lemma str_chars s : Py.str (Py.chars s) = s.
Proof. apply String.string_of_list_ascii_of_string. Qed.

Lemma chars_inj s1 s2 : Py.chars s1 = Py.chars s2 -> s1 = s2.
Proof. intros H. rewrite <- (str_chars s1), <- (str_chars s2). now rewrite H. Qed.

Lemma chars_app s1 s2 : Py.chars (s1 +:+ s2) = Py.chars s1 ++ Py.chars s2.
Proof.
  unfold String.app.
  induction s1 as [|c s1 IH]; simpl; [reflexivity|].
  unfold Py.chars in *. simpl. now f_equal.
Qed.

Lemma len_app s1 s2 : Py.len (s1 +:+ s2) = Py.len s1 + Py.len s2.
Proof. unfold Py.len. now rewrite chars_app, length_app. Qed.

Lemma chars_lower s : Py.chars (Py.lower s) = map Py.char_lower (Py.chars s).
Proof. unfold Py.lower. apply chars_str. Qed.

Lemma len_lower s : Py.len (Py.lower s) = Py.len s.
Proof. unfold Py.len. now rewrite chars_lower, length_map. Qed.

Lemma slice_chars text a b (P : ascii -> Prop) :
  (forall x, a <= x < b -> exists c, Py.chars text !! x = Some c /\ P c) ->
  Forall P (Py.chars (Py.slice text a b)).
Proof.
  intros H. unfold Py.slice. rewrite chars_str. apply Forall_forall.
  intros c Hc. apply elem_of_take in Hc as (i & Hi & Hlt).
  rewrite lookup_drop in Hi.
  destruct (H (a + i)) as (c' & Hc' & HP); [lia|]. congruence.
Qed.

Lemma lstrip_sub (P : ascii -> Prop) l : Forall P l -> Forall P (Py.lstrip_chars l).
Proof.
  induction 1 as [|c l Hc Hl IH]; simpl; [constructor|].
  destruct (Py.char_isspace c); [exact IH|]. now constructor.
Qed.

Lemma strip_chars (P : ascii -> Prop) s :
  Forall P (Py.chars s) -> Forall P (Py.chars (Py.strip s)).
Proof.
  intros H. unfold Py.strip, Py.rstrip_chars. rewrite chars_str.
  apply Forall_rev, lstrip_sub, Forall_rev, lstrip_sub, H.
Qed.

(** ** The matcher *)

Section regex_facts.

Variable s : list ascii.

Lemma run_le p (l : list ascii) : Re.run p l <= length l.
Proof. induction l as [|a l IH]; simpl; [lia|]. destruct (p a); simpl; lia. Qed.

Lemma run_spec p (l : list ascii) x :
  x < Re.run p l -> exists a, l !! x = Some a /\ p a = true.
Proof.
  revert x. induction l as [|a l IH]; simpl; intros x Hx; [lia|].
  destruct (p a) eqn:Hp; [|lia].
  destruct x as [|x]; simpl; [eauto|]. apply IH. lia.
Qed.

Lemma backoff_some d base k m :
  Re.backoff d base k = Some m ->
  exists j, base <= j <= base + d /\ k j = Some m.
Proof.
  induction d as [|d IH]; simpl.
  - destruct (k (base + 0)) eqn:Hk; [|discriminate].
    intros [= <-]. exists (base + 0). split; [lia|exact Hk].
  - destruct (k (base + S d)) eqn:Hk.
    + intros [= <-]. exists (base + S d). split; [lia|exact Hk].
    + intros H. destruct (IH H) as (j & Hj & Hkj). exists j. split; [lia|exact Hkj].
Qed.

(** Whatever the matcher returns went through its continuation at the end
    of a pass that [matches] describes. *)
Lemma exec_matches r : forall i c k m,
  Re.exec s r i c k = Some m ->
  exists j c', Re.matches s r i c j c' /\ k j c' = Some m.
Proof.
  induction r as [|p|r1 IH1 r2 IH2|r1 IH1 r2 IH2|p lo| |n r IH];
    intros i c k m; simpl.
  - intros H. exists i, c. split; [constructor|exact H].
  - destruct (s !! i) as [a|] eqn:Ha; [|discriminate].
    destruct (p a) eqn:Hp; [|discriminate].
    intros H. exists (S i), c. split; [econstructor; eassumption|exact H].
  - intros H. apply IH1 in H as (j & c' & M1 & H).
    apply IH2 in H as (j' & c'' & M2 & H).
    exists j', c''. split; [econstructor; eassumption|exact H].
  - destruct (Re.exec s r1 i c k) as [m1|] eqn:E1.
    + intros [= <-]. apply IH1 in E1 as (j & c' & M1 & H).
      exists j, c'. split; [apply Re.M_alt_l; exact M1|exact H].
    + intros H. apply IH2 in H as (j & c' & M2 & H).
      exists j, c'. split; [apply Re.M_alt_r; exact M2|exact H].
  - destruct (lo <=? Re.run p (drop i s)) eqn:Hlo; [|discriminate].
    apply Nat.leb_le in Hlo.
    intros H. apply backoff_some in H as (j & Hj & H).
    exists j, c. split; [|exact H].
    constructor; [lia|].
    intros x Hx.
    destruct (run_spec p (drop i s) (x - i)) as (a & Ha & Hp); [lia|].
    rewrite lookup_drop in Ha. replace (i + (x - i)) with x in Ha by lia.
    eauto.
  - destruct (Re.at_boundary s i) eqn:Hb; [|discriminate].
    intros H. exists i, c. split; [constructor; exact Hb|exact H].
  - intros H. apply IH in H as (j & c' & M1 & H).
    exists j, ((n, (i, j)) :: c'). split; [constructor; exact M1|exact H].
Qed.

Lemma matches_bounds r i c j c' :
  Re.matches s r i c j c' -> i <= length s -> i <= j <= length s.
Proof.
  induction 1 as [| p i c a Ha Hp | | | | p lo i c j Hlo Hall | |]; intros Hi;
    try lia.
  - apply lookup_lt_Some in Ha. lia.
  - destruct (decide (i = j)) as [->|Hne]; [lia|].
    destruct (Hall (j - 1)) as (a & Ha & _); [lia|].
    apply lookup_lt_Some in Ha. lia.
Qed.

Lemma matches_min_len r i c j c' :
  Re.matches s r i c j c' -> i + Re.min_len r <= j.
Proof. induction 1; simpl; lia. Qed.

Lemma match_at_matches r p adv e c :
  Re.match_at r s p adv = Some (e, c) ->
  Re.matches s r p [] e c /\ (adv = true -> p < e \/ e < p).
Proof.
  unfold Re.match_at. intros H.
  apply exec_matches in H as (j & c' & M & H).
  destruct adv; simpl in H.
  - destruct (j =? p) eqn:Hj; [discriminate|].
    apply Nat.eqb_neq in Hj. injection H as <- <-. split; [exact M|]. lia.
  - injection H as <- <-. split; [exact M|]. discriminate.
Qed.

Lemma match_at_span r p adv e c :
  Re.match_at r s p adv = Some (e, c) -> p <= length s ->
  p + Re.min_len r <= e <= length s.
Proof.
  intros H Hp. apply match_at_matches in H as [M _].
  pose proof (matches_bounds _ _ _ _ _ M Hp).
  pose proof (matches_min_len _ _ _ _ _ M). lia.
Qed.

Lemma chain_weaken lo lo' hi spans :
  lo' <= lo -> Re.chain lo hi spans -> Re.chain lo' hi spans.
Proof. destruct spans as [|[a b] rest]; simpl; [tauto|]. intuition lia. Qed.

(** A pattern that cannot match the empty string is found at spans that
    follow one another without overlap. *)
Lemma scan_chain r : 1 <= Re.min_len r -> forall n p lim,
  p + n = S (length s) ->
  Re.chain (max p lim) (length s) (map Re.m_span (Re.scan r s n p lim)).
Proof.
  intros Hr. induction n as [|n IH]; intros p lim Hn; simpl; [exact I|].
  destruct (p <? lim) eqn:Hlt.
  - eapply chain_weaken; [|apply IH; lia]. lia.
  - apply Nat.ltb_ge in Hlt.
    destruct (Re.match_at r s p false) as [[e c]|] eqn:Hm.
    + apply match_at_span in Hm; [|lia].
      destruct (e =? p) eqn:He; [apply Nat.eqb_eq in He; lia|].
      simpl. repeat split; try lia.
      eapply chain_weaken; [|apply IH; lia]. lia.
    + eapply chain_weaken; [|apply IH; lia]. lia.
Qed.

End regex_facts.

Lemma finditer_chain r text :
  1 <= Re.min_len r ->
  Re.chain 0 (Py.len text) (map Re.m_span (Re.finditer r text)).
Proof.
  intros Hr. unfold Re.finditer, Py.len.
  apply (scan_chain (Py.chars text) r Hr (S (length (Py.chars text))) 0 0). lia.
Qed.

Lemma scan_matches r s n p lim :
  Forall (fun m => Re.matches s r (Re.m_start m) [] (Re.m_end m) (Re.m_groups m))
         (Re.scan r s n p lim).
Proof.
  revert p lim. induction n as [|n IH]; intros p lim; simpl; [constructor|].
  destruct (p <? lim); [apply IH|].
  destruct (Re.match_at r s p false) as [[e c]|] eqn:Hm; [|apply IH].
  apply match_at_matches in Hm as [Hm _].
  destruct (e =? p) eqn:He.
  - apply Nat.eqb_eq in He. subst e. constructor; [exact Hm|].
    destruct (Re.match_at r s p true) as [[e' c']|] eqn:Hm'; [|apply IH].
    apply match_at_matches in Hm' as [Hm' _]. constructor; [exact Hm'|apply IH].
  - constructor; [exact Hm|apply IH].
Qed.

Lemma finditer_matches r text m :
  m ∈ Re.finditer r text ->
  Re.matches (Py.chars text) r (Re.m_start m) [] (Re.m_end m) (Re.m_groups m).
Proof.
  intros Hin. pose proof (scan_matches r (Py.chars text) (S (Py.len text)) 0 0) as H.
  rewrite Forall_forall in H. apply H. exact Hin.
Qed.

Lemma search_none_finditer r text :
  Re.search r text = None -> Re.finditer r text = [].
Proof. unfold Re.search. destruct (Re.finditer r text); [reflexivity|discriminate]. Qed.


(** ** Spans of tokens, sentences and issues *)

Arguments word_issue : simpl never.
Arguments sentence_issue : simpl never.
Arguments passive_issue : simpl never.

Lemma chain_Forall lo hi spans :
  Re.chain lo hi spans ->
  Forall (fun sp => lo <= fst sp /\ fst sp < snd sp /\ snd sp <= hi) spans.
Proof.
  revert lo. induction spans as [|[a b] rest IH]; intros lo; simpl; [constructor|].
  intros (H1 & H2 & H3 & H4). constructor; [simpl; lia|].
  eapply Forall_impl; [apply IH; exact H4|]. simpl. intros sp. lia.
Qed.

Lemma chain_left_of lo hi (issues : list Issue) :
  Re.chain lo hi (map span issues) -> StronglySorted left_of issues.
Proof.
  revert lo. induction issues as [|i rest IH]; intros lo; simpl; [constructor|].
  destruct (span i) as [a b] eqn:Hi. intros (H1 & H2 & H3 & H4).
  constructor; [eapply IH; exact H4|].
  apply chain_Forall in H4. rewrite Forall_map in H4.
  eapply Forall_impl; [exact H4|].
  intros j Hj. unfold left_of. rewrite Hi. simpl in *. lia.
Qed.

Lemma chain_in_bounds text lo (issues : list Issue) :
  Re.chain lo (Py.len text) (map span issues) ->
  Forall (span_in_bounds text) issues.
Proof.
  intros H. apply chain_Forall in H. rewrite Forall_map in H.
  eapply Forall_impl; [exact H|]. intros i Hi. unfold span_in_bounds. simpl in Hi. lia.
Qed.

Lemma TOKEN_RE_nonempty : 1 <= Re.min_len TOKEN_RE.
Proof. simpl. lia. Qed.

Lemma TERMINATOR_RE_nonempty : 1 <= Re.min_len TERMINATOR_RE.
Proof. simpl. lia. Qed.

Lemma PASSIVE_RE_nonempty : 1 <= Re.min_len PASSIVE_RE.
Proof. simpl. lia. Qed.

Lemma tokens_chain text :
  Re.chain 0 (Py.len text) (map span3 (tokenize_words_with_spans text)).
Proof.
  unfold tokenize_words_with_spans. rewrite map_map.
  apply (finditer_chain TOKEN_RE text TOKEN_RE_nonempty).
Qed.

Lemma sentences_from_chain text ms start :
  Re.chain start (Py.len text) (map Re.m_span ms) ->
  Re.chain start (Py.len text) (map span3 (sentences_from text ms start)).
Proof.
  revert start. induction ms as [|m ms IH]; intros start; simpl.
  - intros _. destruct (start <? Py.len text) eqn:Hlt; [|exact I].
    apply Nat.ltb_lt in Hlt.
    destruct (nonempty _); simpl; [lia|exact I].
  - intros (H1 & H2 & H3 & H4).
    destruct (nonempty _); simpl.
    + repeat split; try lia. apply IH. exact H4.
    + eapply chain_weaken; [|apply IH; exact H4]. lia.
Qed.

Lemma sentences_chain text :
  Re.chain 0 (Py.len text) (map span3 (split_sentences_with_spans text)).
Proof.
  unfold split_sentences_with_spans. apply sentences_from_chain.
  apply (finditer_chain TERMINATOR_RE text TERMINATOR_RE_nonempty).
Qed.

Lemma sentence_issue_cases max idx sent a b :
  sentence_issue max idx (sent, a, b) = [] \/
  exists i, sentence_issue max idx (sent, a, b) = [i] /\ span i = (a, b) /\
            sentence_index i = Some idx /\ type i = SentenceTooLong.
Proof.
  unfold sentence_issue.
  destruct (_ <? _)%Z; [right; eexists; split; [reflexivity|]; simpl; auto|].
  left; reflexivity.
Qed.

Lemma sentence_issues_chain max idx sents lo hi :
  Re.chain lo hi (map span3 sents) ->
  Re.chain lo hi (map span (sentence_issues max idx sents)).
Proof.
  revert idx lo. induction sents as [|[[sent a] b] rest IH]; intros idx lo; simpl;
    [tauto|].
  intros (H1 & H2 & H3 & H4).
  destruct (sentence_issue_cases max idx sent a b) as [->|(i & -> & Hs & _)]; simpl.
  - eapply chain_weaken; [|apply IH; exact H4]. lia.
  - rewrite Hs. repeat split; try lia. apply IH. exact H4.
Qed.

Lemma sentence_issues_index max idx sents :
  Forall (fun i => type i = SentenceTooLong /\
                   exists k, sentence_index i = Some k /\ idx <= k)
         (sentence_issues max idx sents).
Proof.
  revert idx. induction sents as [|[[sent a] b] rest IH]; intros idx; simpl;
    [constructor|].
  assert (Hrest : Forall (fun i => type i = SentenceTooLong /\
                   exists k, sentence_index i = Some k /\ idx <= k)
         (sentence_issues max (S idx) rest)).
  { eapply Forall_impl; [apply IH|]. intros i (Ht & k & Hk & Hle).
    split; [exact Ht|]. exists k. split; [exact Hk|lia]. }
  destruct (sentence_issue_cases max idx sent a b) as [->|(i & -> & _ & Hi & Ht)];
    simpl; [exact Hrest|].
  constructor; [|exact Hrest]. split; [exact Ht|]. exists idx. split; [exact Hi|lia].
Qed.

Lemma sentence_issues_sorted max idx sents :
  StronglySorted sentence_before (sentence_issues max idx sents).
Proof.
  revert idx. induction sents as [|[[sent a] b] rest IH]; intros idx; simpl;
    [constructor|].
  destruct (sentence_issue_cases max idx sent a b) as [->|(i & -> & _ & Hi & _)];
    simpl; [apply IH|].
  constructor; [apply IH|].
  eapply Forall_impl; [apply (sentence_issues_index max (S idx) rest)|].
  intros j (_ & k & Hk & Hle). unfold sentence_before. rewrite Hi, Hk. lia.
Qed.

Lemma word_issue_cases approved forbidden tok a b :
  word_issue approved forbidden (tok, a, b) = [] \/
  exists i, word_issue approved forbidden (tok, a, b) = [i] /\ span i = (a, b) /\
            sentence_index i = None /\
            (type i = ForbiddenWord \/ type i = UnapprovedWord).
Proof.
  unfold word_issue.
  destruct (_ || _ || _); [left; reflexivity|].
  destruct (bool_decide _); [right; eexists; split; [reflexivity|]; simpl; auto|].
  destruct (negb _); [right; eexists; split; [reflexivity|]; simpl; auto|].
  left; reflexivity.
Qed.

Lemma word_issues_chain approved forbidden tokens lo hi :
  Re.chain lo hi (map span3 tokens) ->
  Re.chain lo hi (map span (flat_map (word_issue approved forbidden) tokens)).
Proof.
  revert lo. induction tokens as [|[[tok a] b] rest IH]; intros lo; simpl; [tauto|].
  intros (H1 & H2 & H3 & H4).
  destruct (word_issue_cases approved forbidden tok a b) as [->|(i & -> & Hs & _)]; simpl.
  - eapply chain_weaken; [|apply IH; exact H4]. lia.
  - rewrite Hs. repeat split; try lia. apply IH. exact H4.
Qed.

Lemma word_issues_type approved forbidden tokens :
  Forall (fun i => type i = ForbiddenWord \/ type i = UnapprovedWord)
         (flat_map (word_issue approved forbidden) tokens).
Proof.
  induction tokens as [|[[tok a] b] rest IH]; simpl; [constructor|].
  destruct (word_issue_cases approved forbidden tok a b) as [->|(i & -> & _ & _ & Ht)];
    simpl; [exact IH|]. constructor; [exact Ht|exact IH].
Qed.

Lemma passive_issues_chain text :
  Re.chain 0 (Py.len text)
    (map span (map (passive_issue text) (Re.finditer PASSIVE_RE text))).
Proof.
  rewrite map_map. apply (finditer_chain PASSIVE_RE text PASSIVE_RE_nonempty).
Qed.

(** [lint_text] either raises while loading or returns the issues of the
    rule engine for the lexicons it loaded. *)
Lemma lint_text_issues fs text ap fp cp max issues :
  lint_text fs text ap fp cp max = Ok issues ->
  exists approved forbidden,
    load_approved fs ap cp = Ok approved /\
    load_forbidden fs fp = Ok forbidden /\
    issues = lint_issues text approved forbidden max.
Proof.
  unfold lint_text. unfold mbind, result_bind.
  destruct (load_approved fs ap cp) as [approved|]; [|discriminate].
  destruct (load_forbidden fs fp) as [forbidden|]; [|discriminate].
  intros [= <-]. eauto.
Qed.

Lemma lint_text_loaded fs text ap fp cp max approved forbidden :
  load_approved fs ap cp = Ok approved ->
  load_forbidden fs fp = Ok forbidden ->
  lint_text fs text ap fp cp max = Ok (lint_issues text approved forbidden max).
Proof. unfold lint_text. intros -> ->. reflexivity. Qed.

Lemma filter_all {A} (P : A -> Prop) `{!forall x, Decision (P x)} (l : list A) :
  Forall P l -> filter P l = l.
Proof.
  induction 1 as [|x l Hx _ IH]; [reflexivity|].
  rewrite filter_cons_True by exact Hx. now rewrite IH.
Qed.

Lemma filter_none {A} (P : A -> Prop) `{!forall x, Decision (P x)} (l : list A) :
  Forall (fun x => ~ P x) l -> filter P l = [].
Proof.
  induction 1 as [|x l Hx _ IH]; [reflexivity|].
  rewrite filter_cons_False by exact Hx. exact IH.
Qed.

Lemma sentence_phase max idx sents :
  Forall (fun i => phase i = 1) (sentence_issues max idx sents).
Proof.
  eapply Forall_impl; [apply sentence_issues_index|].
  intros i [Ht _]. unfold phase. now rewrite Ht.
Qed.

Lemma word_phase approved forbidden tokens :
  Forall (fun i => phase i = 2) (flat_map (word_issue approved forbidden) tokens).
Proof.
  eapply Forall_impl; [apply word_issues_type|].
  intros i [Ht|Ht]; unfold phase; now rewrite Ht.
Qed.

Lemma passive_phase text ms :
  Forall (fun i => phase i = 3) (map (passive_issue text) ms).
Proof. rewrite Forall_map. apply Forall_true. intros m. reflexivity. Qed.

Lemma filter_phase n (l : list Issue) m :
  Forall (fun i => phase i = m) l ->
  filter (fun i => phase i = n) l = if decide (m = n) then l else [].
Proof.
  intros H. destruct (decide (m = n)) as [->|Hne].
  - apply filter_all. exact H.
  - apply filter_none. eapply Forall_impl; [exact H|]. simpl. intros i Hi. congruence.
Qed.

(** The three phases of [lint_issues], separated. *)
Lemma lint_issues_phases text approved forbidden max :
  let issues := lint_issues text approved forbidden max in
  filter (fun i => phase i = 1) issues
    = sentence_issues max 0 (split_sentences_with_spans text) /\
  filter (fun i => phase i = 2) issues
    = flat_map (word_issue approved forbidden) (tokenize_words_with_spans text) /\
  filter (fun i => phase i = 3) issues
    = map (passive_issue text) (Re.finditer PASSIVE_RE text).
Proof.
  unfold lint_issues. cbv zeta. rewrite !filter_app.
  rewrite !(filter_phase _ _ 1 (sentence_phase _ _ _)).
  rewrite !(filter_phase _ _ 2 (word_phase _ _ _)).
  rewrite !(filter_phase _ _ 3 (passive_phase _ _)).
  simpl. rewrite !app_nil_r. auto.
Qed.


(** ** The order of the issue list and the bounds of its spans *)

Lemma StronglySorted_both {A} (R1 R2 : relation A) (l : list A) :
  StronglySorted R1 l -> StronglySorted R2 l ->
  StronglySorted (fun x y => R1 x y /\ R2 x y) l.
Proof.
  induction l as [|x l IH]; intros H1 H2; [constructor|].
  apply StronglySorted_inv in H1 as [H1 F1].
  apply StronglySorted_inv in H2 as [H2 F2].
  constructor; [apply IH; assumption|].
  rewrite Forall_forall in *. auto.
Qed.

(** C1: the issue list that [lint_text] returns is its SentenceTooLong
    issues, then its ForbiddenWord and UnapprovedWord issues, then its
    PassiveVoice issues; the first group is in sentence order and each of
    the other two in left-to-right text order. *)
Theorem lint_three_phases fs text ap fp cp max issues :
  lint_text fs text ap fp cp max = Ok issues ->
  issues = filter (fun i => phase i = 1) issues
           ++ filter (fun i => phase i = 2) issues
           ++ filter (fun i => phase i = 3) issues /\
  Forall (fun i => type i = SentenceTooLong) (filter (fun i => phase i = 1) issues) /\
  Forall (fun i => type i = ForbiddenWord \/ type i = UnapprovedWord)
         (filter (fun i => phase i = 2) issues) /\
  Forall (fun i => type i = PassiveVoice) (filter (fun i => phase i = 3) issues) /\
  StronglySorted (fun i j => sentence_before i j /\ left_of i j)
                 (filter (fun i => phase i = 1) issues) /\
  StronglySorted left_of (filter (fun i => phase i = 2) issues) /\
  StronglySorted left_of (filter (fun i => phase i = 3) issues).
Proof.
  intros H. apply lint_text_issues in H as (approved & forbidden & _ & _ & ->).
  destruct (lint_issues_phases text approved forbidden max) as (E1 & E2 & E3).
  cbv zeta in E1, E2, E3. rewrite E1, E2, E3.
  split; [reflexivity|].
  split; [eapply Forall_impl; [apply sentence_issues_index|]; simpl; tauto|].
  split; [apply word_issues_type|].
  split; [rewrite Forall_map; apply Forall_true; reflexivity|].
  split; [|split].
  - apply StronglySorted_both; [apply sentence_issues_sorted|].
    eapply chain_left_of, sentence_issues_chain, sentences_chain.
  - eapply chain_left_of, word_issues_chain, tokens_chain.
  - eapply chain_left_of, passive_issues_chain.
Qed.

Lemma lint_three_phases_witness :
  exists issues,
    lint_text sample_files sample_text "approved.txt" "forbidden.txt" "caps.txt" 2
      = Ok issues /\
    map type issues =
      [ SentenceTooLong; SentenceTooLong; SentenceTooLong;
        ForbiddenWord; UnapprovedWord; UnapprovedWord; UnapprovedWord;
        UnapprovedWord; UnapprovedWord; UnapprovedWord; UnapprovedWord;
        PassiveVoice; PassiveVoice; PassiveVoice ] /\
    issues = filter (fun i => phase i = 1) issues
             ++ filter (fun i => phase i = 2) issues
             ++ filter (fun i => phase i = 3) issues.
Proof.
  eexists. split; [vm_compute; reflexivity|].
  split; [vm_compute; reflexivity|].
  eapply (lint_three_phases sample_files sample_text
            "approved.txt" "forbidden.txt" "caps.txt" 2).
  vm_compute; reflexivity.
Defined.

(** C9: every issue that [lint_text] returns has a span [(start, end)] with
    [0 <= start <= end <= len(text)]. *)
Theorem lint_spans_in_bounds fs text ap fp cp max issues :
  lint_text fs text ap fp cp max = Ok issues ->
  Forall (span_in_bounds text) issues.
Proof.
  intros H. apply lint_text_issues in H as (approved & forbidden & _ & _ & ->).
  unfold lint_issues. rewrite !Forall_app. split; [|split].
  - eapply chain_in_bounds, sentence_issues_chain, sentences_chain.
  - eapply chain_in_bounds, word_issues_chain, tokens_chain.
  - eapply chain_in_bounds, passive_issues_chain.
Qed.

Lemma lint_spans_in_bounds_witness :
  exists issues,
    lint_text sample_files sample_text "approved.txt" "forbidden.txt" "caps.txt" 2
      = Ok issues /\
    map span issues =
      [ (0, 39); (39, 61); (61, 72);
        (4, 9); (10, 13); (14, 20); (28, 38); (43, 46); (47, 51); (53, 60);
        (62, 67);
        (10, 20); (47, 60); (62, 72) ] /\
    Py.len sample_text = 72 /\
    Forall (span_in_bounds sample_text) issues.
Proof.
  eexists. split; [vm_compute; reflexivity|].
  split; [vm_compute; reflexivity|].
  split; [vm_compute; reflexivity|].
  eapply (lint_spans_in_bounds sample_files sample_text
            "approved.txt" "forbidden.txt" "caps.txt" 2).
  vm_compute; reflexivity.
Defined.


(** ** One token, one sentence *)

Lemma chain_NoDup lo hi spans : Re.chain lo hi spans -> NoDup spans.
Proof.
  revert lo. induction spans as [|[a b] rest IH]; intros lo; simpl; [constructor|].
  intros (H1 & H2 & H3 & H4). constructor; [|eapply IH; exact H4].
  intros Hin. apply chain_Forall in H4. rewrite Forall_forall in H4.
  apply H4 in Hin. simpl in Hin. lia.
Qed.

Lemma word_issue_span approved forbidden t :
  Forall (fun i => span i = span3 t) (word_issue approved forbidden t).
Proof.
  destruct t as [[tok a] b].
  destruct (word_issue_cases approved forbidden tok a b) as [->|(i & -> & Hs & _)];
    repeat constructor. exact Hs.
Qed.

(** Among the word issues, those at the span of a token are the ones its own
    pass through the loop body raised. *)
Lemma word_issues_at_span approved forbidden tokens t :
  NoDup (map span3 tokens) -> t ∈ tokens ->
  filter (fun i => span i = span3 t) (flat_map (word_issue approved forbidden) tokens)
  = word_issue approved forbidden t.
Proof.
  induction tokens as [|t' rest IH]; intros Hnd Hin; [inversion Hin|].
  simpl in Hnd. apply NoDup_cons in Hnd as [Hfresh Hnd].
  simpl. rewrite filter_app.
  assert (Hother : forall u, u ∈ rest -> span3 u <> span3 t' ).
  { intros u Hu E. apply Hfresh. rewrite <- E. apply list_elem_of_fmap. eauto. }
  apply elem_of_cons in Hin as [->|Hin].
  - rewrite (filter_all _ _ (word_issue_span approved forbidden t')).
    rewrite filter_none; [apply app_nil_r|].
    rewrite Forall_forall. intros i Hi.
    apply list_elem_of_In, in_flat_map in Hi as (u & Hu & Hi).
    apply list_elem_of_In in Hu, Hi.
    pose proof (word_issue_span approved forbidden u) as Hsp.
    rewrite Forall_forall in Hsp. rewrite (Hsp i Hi). apply Hother. exact Hu.
  - rewrite filter_none.
    + simpl. apply IH; assumption.
    + pose proof (word_issue_span approved forbidden t') as Hsp.
      eapply Forall_impl; [exact Hsp|]. simpl. intros i ->.
      intros E. apply (Hother t Hin). now symmetry.
Qed.

Lemma issues_at_other_phase ty sp (l : list Issue) :
  Forall (fun i => type i <> ty) l -> issues_at ty sp l = [].
Proof.
  intros H. apply filter_none. eapply Forall_impl; [exact H|]. simpl. tauto.
Qed.

Lemma issues_at_lint ty a b text approved forbidden max tok :
  ty = ForbiddenWord \/ ty = UnapprovedWord ->
  (tok, a, b) ∈ tokenize_words_with_spans text ->
  issues_at ty (a, b) (lint_issues text approved forbidden max)
  = filter (fun i => type i = ty) (word_issue approved forbidden (tok, a, b)).
Proof.
  intros Hty Hin. unfold lint_issues, issues_at. rewrite !filter_app.
  change (filter (fun i => type i = ty /\ span i = (a, b)))
    with (issues_at ty (a, b)).
  rewrite (issues_at_other_phase ty (a, b) (sentence_issues _ _ _)).
  2:{ eapply Forall_impl; [apply sentence_issues_index|]. simpl.
      intros i [-> _]. destruct Hty; congruence. }
  rewrite (issues_at_other_phase ty (a, b) (map _ _)).
  2:{ rewrite Forall_map. apply Forall_true. intros m. simpl.
      destruct Hty; congruence. }
  rewrite app_nil_r. simpl. unfold issues_at.
  rewrite <- list_filter_filter.
  f_equal.
  apply (word_issues_at_span approved forbidden _ (tok, a, b)); [|exact Hin].
  eapply chain_NoDup, tokens_chain.
Qed.

(** *** What an acronym is, for a token *)

Lemma token_match s i j c :
  Re.matches s TOKEN_RE i [] j c ->
  forall x, i <= x < j -> exists ch, s !! x = Some ch /\ token_char ch = true.
Proof.
  unfold TOKEN_RE. intros H.
  repeat match goal with
         | H : Re.matches _ (Re.Seq _ _) _ _ _ _ |- _ => inversion H; subst; clear H
         | H : Re.matches _ (Re.Chr _) _ _ _ _ |- _ => inversion H; subst; clear H
         | H : Re.matches _ (Re.Rep _ _) _ _ _ _ |- _ => inversion H; subst; clear H
         end.
  intros x Hx.
  match goal with
  | Hl : Re.letter ?a = true, Ha : s !! ?i0 = Some ?a,
    Hall : forall x, S ?i0 <= x < _ -> exists ch, _ /\ token_char ch = true |- _ =>
      destruct (decide (x = i0)) as [->|Hne];
      [exists a; split; [exact Ha|unfold token_char; rewrite Hl; reflexivity]
      |apply Hall; lia]
  end.
Qed.

Lemma token_chars text tok a b :
  (tok, a, b) ∈ tokenize_words_with_spans text ->
  Forall (fun c => token_char c = true) (Py.chars tok).
Proof.
  unfold tokenize_words_with_spans. intros Hin.
  apply list_elem_of_fmap in Hin as (m & E & Hm). injection E as -> -> ->.
  apply slice_chars. apply (token_match _ _ _ _ (finditer_matches _ _ _ Hm)).
Qed.

(** On the characters a token is made of, the Unicode properties are the
    ASCII ones. *)
Lemma token_char_case c :
  token_char c = true ->
  Py.char_is_lowercase c = Py.between 97 122 c /\
  Py.char_is_uppercase c = Py.between 65 90 c /\
  Py.char_isalpha c = Re.letter c.
Proof.
  destruct c as [[] [] [] [] [] [] [] []]; vm_compute; intros H;
    first [discriminate H | repeat split; reflexivity].
Qed.

Lemma acronym_of_token text tok a b :
  (tok, a, b) ∈ tokenize_words_with_spans text ->
  is_acronym tok = token_acronym tok.
Proof.
  intros Hin. pose proof (token_chars text tok a b Hin) as Hall.
  unfold is_acronym, token_acronym, Py.isupper.
  assert (E1 : forallb (fun c => negb (Py.char_is_lowercase c)) (Py.chars tok)
               = forallb (fun c => negb (Py.between 97 122 c)) (Py.chars tok)).
  { induction Hall as [|c l Hc _ IH]; [reflexivity|]. simpl.
    destruct (token_char_case c Hc) as (-> & _ & _). now rewrite IH. }
  assert (E2 : length (filter Py.char_isalpha (Py.chars tok))
               = length (filter (fun c => Re.letter c = true) (Py.chars tok))).
  { clear E1. induction Hall as [|c l Hc _ IH]; [reflexivity|].
    destruct (token_char_case c Hc) as (_ & _ & Ea).
    rewrite !filter_cons. rewrite Ea.
    destruct (Re.letter c) eqn:El; repeat case_decide; simpl in *;
      try done; now rewrite IH. }
  rewrite E1, E2.
  destruct (forallb (fun c => negb (Py.between 97 122 c)) (Py.chars tok)) eqn:Ef;
    [|reflexivity].
  rewrite !andb_true_l.
  destruct (2 <=? length (filter (fun c => Re.letter c = true) (Py.chars tok))) eqn:En;
    [|now rewrite andb_false_r].
  rewrite andb_true_r. apply Nat.leb_le in En.
  (* two letters, none of them lower case: one of them is upper case *)
  clear E1 E2. revert Ef En.
  induction Hall as [|c l Hc _ IH]; simpl; [lia|].
  destruct (token_char_case c Hc) as (_ & -> & _).
  intros Ef En. apply andb_true_iff in Ef as [Ec Ef].
  destruct (Py.between 65 90 c) eqn:Eu; [reflexivity|]. simpl.
  apply IH; [exact Ef|].
  rewrite filter_cons in En.
  assert (El : Re.letter c = false).
  { unfold Re.letter. rewrite Eu. apply negb_true_iff in Ec. now rewrite Ec. }
  rewrite decide_False in En by (rewrite El; discriminate). exact En.
Qed.

(** X11: a token starts with a letter, so it is an acronym exactly when
    none of its characters is a lower-case letter [a-z] and at least two
    are letters [A-Za-z]; digits, hyphens, slashes and apostrophes do not
    count against it. *)
Lemma is_acronym_token text tok a b :
  (tok, a, b) ∈ tokenize_words_with_spans text ->
  is_acronym tok
  = forallb (fun c => negb (Py.between 97 122 c)) (Py.chars tok)
    && (2 <=? length (filter (fun c => Re.letter c = true) (Py.chars tok))).
Proof. exact (acronym_of_token text tok a b). Qed.

(** *** The word checks of one token *)

(** C2, as stated, fails: the token [AB-1] is not numeric, has four
    characters and is not made of upper-case characters only (a hyphen and
    a digit are none), so that it is no acronym as the claim words it; its
    lowercased form [ab-1] is in the forbidden lexicon; yet no ForbiddenWord
    issue is raised at its span, because [str.isupper] looks at the cased
    characters only and [is_acronym] holds of it. *)
Lemma part_number_not_flagged :
  exists issues,
    lint_text part_number_files part_number_text "approved.txt" "forbidden.txt"
      "caps.txt" 20 = Ok issues /\
    load_forbidden part_number_files "forbidden.txt"
      = Ok (list_to_set ["ab-1"; "valve"]) /\
    ("AB-1", 6, 10) ∈ tokenize_words_with_spans part_number_text /\
    Py.isdigit "AB-1" = false /\
    (Py.len "AB-1" <? 3) = false /\
    acronym_as_specified "AB-1" = false /\
    Py.lower "AB-1" ∈ (list_to_set ["ab-1"; "valve"] : gset string) /\
    length (issues_at ForbiddenWord (6, 10) issues) = 0 /\
    is_acronym "AB-1" = true.
Proof.
  eexists. split; [vm_compute; reflexivity|].
  split; [vm_compute; reflexivity|].
  split; [apply list_elem_of_In; vm_compute; tauto|].
  repeat split; vm_compute; reflexivity.
Qed.

(** C2, amended: for a token occurrence [(tok, a, b)] of the linted text,
    the ForbiddenWord and UnapprovedWord issues at its span are: none when
    the token is numeric, shorter than three characters or an acronym, that
    is, a token with no lower-case letter [a-z] and at least two letters
    (its digits, hyphens, slashes and apostrophes do not count against it);
    otherwise exactly one ForbiddenWord issue and no UnapprovedWord issue
    when its lowercased form is in the forbidden lexicon; otherwise exactly
    one UnapprovedWord issue when it is not in the effective approved set,
    and none when it is. *)
Theorem word_check_per_occurrence fs text ap fp cp max approved forbidden tok a b :
  load_approved fs ap cp = Ok approved ->
  load_forbidden fs fp = Ok forbidden ->
  (tok, a, b) ∈ tokenize_words_with_spans text ->
  exists issues,
    lint_text fs text ap fp cp max = Ok issues /\
    let low := Py.lower tok in
    let skipped := Py.isdigit low || (Py.len low <? 3) || token_acronym tok in
    let n_forbidden := length (issues_at ForbiddenWord (a, b) issues) in
    let n_unapproved := length (issues_at UnapprovedWord (a, b) issues) in
    (skipped = true -> n_forbidden = 0 /\ n_unapproved = 0) /\
    (skipped = false -> low ∈ forbidden -> n_forbidden = 1 /\ n_unapproved = 0) /\
    (skipped = false -> low ∉ forbidden -> low ∉ approved ->
       n_forbidden = 0 /\ n_unapproved = 1) /\
    (skipped = false -> low ∉ forbidden -> low ∈ approved ->
       n_forbidden = 0 /\ n_unapproved = 0).
Proof.
  intros Ha Hf Hin. eexists. split; [apply lint_text_loaded; eassumption|].
  cbv zeta.
  rewrite (issues_at_lint ForbiddenWord a b text approved forbidden max tok)
    by auto.
  rewrite (issues_at_lint UnapprovedWord a b text approved forbidden max tok)
    by auto.
  unfold word_issue. rewrite (acronym_of_token text tok a b Hin).
  destruct (Py.isdigit (Py.lower tok) || (Py.len (Py.lower tok) <? 3)
            || token_acronym tok).
  - split; [auto|]. repeat split; discriminate.
  - split; [discriminate|].
    split; [|split]; intros _ Hforb.
    + rewrite bool_decide_eq_true_2 by exact Hforb. split; reflexivity.
    + intros Happ. rewrite bool_decide_eq_false_2 by exact Hforb.
      rewrite bool_decide_eq_false_2 by exact Happ. split; reflexivity.
    + intros Happ. rewrite bool_decide_eq_false_2 by exact Hforb.
      rewrite bool_decide_eq_true_2 by exact Happ. split; reflexivity.
Qed.

Lemma word_check_per_occurrence_witness :
  exists issues,
    lint_text part_number_files part_number_text "approved.txt" "forbidden.txt"
      "caps.txt" 20 = Ok issues /\
    (length (issues_at ForbiddenWord (6, 10) issues) = 0 /\
     length (issues_at UnapprovedWord (6, 10) issues) = 0) /\
    (length (issues_at ForbiddenWord (11, 14) issues) = 0 /\
     length (issues_at UnapprovedWord (11, 14) issues) = 1) /\
    (length (issues_at ForbiddenWord (19, 24) issues) = 1 /\
     length (issues_at UnapprovedWord (19, 24) issues) = 0).
Proof.
  assert (Ha : load_approved part_number_files "approved.txt" "caps.txt"
               = Ok (list_to_set ["check"; "the"])) by (vm_compute; reflexivity).
  assert (Hf : load_forbidden part_number_files "forbidden.txt"
               = Ok (list_to_set ["ab-1"; "valve"])) by (vm_compute; reflexivity).
  pose proof (fun tok a b =>
    word_check_per_occurrence part_number_files part_number_text
      "approved.txt" "forbidden.txt" "caps.txt" 20 _ _ tok a b Ha Hf) as H.
  destruct (H "AB-1" 6 10) as (issues & Hl & Hskip & _);
    [apply list_elem_of_In; vm_compute; tauto|].
  destruct (H "and" 11 14) as (issues1 & Hl1 & _ & _ & Hunapp & _);
    [apply list_elem_of_In; vm_compute; tauto|].
  destruct (H "valve" 19 24) as (issues2 & Hl2 & _ & Hforb & _);
    [apply list_elem_of_In; vm_compute; tauto|].
  rewrite Hl in Hl1, Hl2. injection Hl1 as <-. injection Hl2 as <-.
  exists issues. split; [exact Hl|]. split; [|split].
  - apply Hskip. vm_compute. reflexivity.
  - apply Hunapp; [vm_compute; reflexivity| |];
      intros Hin; vm_compute in Hin; discriminate Hin.
  - apply Hforb; vm_compute; reflexivity.
Defined.

(** *** Sentence length *)

Lemma sentence_issue_index max idx t :
  Forall (fun i => type i = SentenceTooLong /\ sentence_index i = Some idx)
         (sentence_issue max idx t).
Proof.
  destruct t as [[sent a] b].
  destruct (sentence_issue_cases max idx sent a b) as [->|(i & -> & _ & Hi & Ht)];
    repeat constructor; assumption.
Qed.

(** The sentence-length issues with a given index are those of the sentence
    at that index. *)
Lemma sentence_issues_of max idx0 sents : forall k t,
  sents !! k = Some t ->
  issues_of_sentence (idx0 + k) (sentence_issues max idx0 sents)
  = sentence_issue max (idx0 + k) t.
Proof.
  revert idx0. induction sents as [|t' rest IH]; intros idx0 k t Hk; [discriminate|].
  simpl. unfold issues_of_sentence. rewrite filter_app.
  destruct k as [|k]; simpl in Hk.
  - injection Hk as ->. rewrite Nat.add_0_r.
    rewrite (filter_all _ _ (sentence_issue_index max idx0 t)).
    rewrite filter_none; [apply app_nil_r|].
    eapply Forall_impl; [apply (sentence_issues_index max (S idx0) rest)|].
    simpl. intros i (_ & j & Hj & Hle) [_ E]. rewrite Hj in E. injection E. lia.
  - rewrite filter_none.
    + simpl. replace (idx0 + S k) with (S idx0 + k) by lia.
      apply (IH (S idx0) k t Hk).
    + eapply Forall_impl; [apply (sentence_issue_index max idx0 t')|].
      simpl. intros i [_ Hi] [_ E]. rewrite Hi in E. injection E. lia.
Qed.

Lemma issues_of_sentence_lint idx text approved forbidden max t :
  split_sentences_with_spans text !! idx = Some t ->
  issues_of_sentence idx (lint_issues text approved forbidden max)
  = sentence_issue max idx t.
Proof.
  intros Hk. unfold lint_issues, issues_of_sentence. rewrite !filter_app.
  rewrite (filter_none _ (flat_map _ _)).
  2:{ eapply Forall_impl; [apply word_issues_type|]. simpl.
      intros i [Ht|Ht] [E _]; congruence. }
  rewrite (filter_none _ (map _ _)).
  2:{ rewrite Forall_map. apply Forall_true. intros m [E _]. discriminate. }
  rewrite !app_nil_r.
  apply (sentence_issues_of max 0 _ idx t Hk).
Qed.

Lemma sentences_from_text text ms start sent a b :
  (sent, a, b) ∈ sentences_from text ms start ->
  sent = Py.strip (Py.slice text a b).
Proof.
  revert start. induction ms as [|m ms IH]; intros start; simpl.
  - destruct (start <? Py.len text); [|intros H; inversion H].
    destruct (nonempty _); [|intros H; inversion H].
    intros H. apply list_elem_of_singleton in H. now injection H as -> -> ->.
  - destruct (nonempty _); [|apply IH].
    intros H. apply elem_of_cons in H as [H|H]; [|eapply IH, H].
    now injection H as -> -> ->.
Qed.

(** C3: with the maximum at its default of 20, a sentence of exactly 20
    tokens raises no SentenceTooLong issue, and a sentence of 21 tokens
    raises exactly one, whose message gives the count 21 and whose span is
    that of the sentence: the sentence is the text between the two offsets,
    stripped. *)
Theorem sentence_length_boundary fs text ap fp cp issues idx sent a b :
  lint_text fs text ap fp cp 20 = Ok issues ->
  split_sentences_with_spans text !! idx = Some (sent, a, b) ->
  let n := length (tokenize_words_with_spans sent) in
  sent = Py.strip (Py.slice text a b) /\
  (n = 20 -> issues_of_sentence idx issues = []) /\
  (n = 21 ->
   issues_of_sentence idx issues =
     [ {| type := SentenceTooLong;
          message := "Sentence has 21 words (>20).";
          sentence_index := Some idx;
          span := (a, b);
          suggestion := "Split into shorter sentences (<= 20 words)." |} ]).
Proof.
  intros H Hk. apply lint_text_issues in H as (approved & forbidden & _ & _ & ->).
  cbv zeta. split.
  { eapply sentences_from_text, list_elem_of_lookup_2, Hk. }
  rewrite (issues_of_sentence_lint idx text approved forbidden 20 _ Hk).
  unfold sentence_issue. rewrite length_map.
  split; intros ->; reflexivity.
Qed.

Lemma sentence_length_boundary_witness :
  exists issues,
    lint_text sample_files sample_long_text "approved.txt" "forbidden.txt" "caps.txt" 20
      = Ok issues /\
    issues_of_sentence 0 issues = [] /\
    issues_of_sentence 1 issues =
      [ {| type := SentenceTooLong;
           message := "Sentence has 21 words (>20).";
           sentence_index := Some 1;
           span := (98, 202);
           suggestion := "Split into shorter sentences (<= 20 words)." |} ].
Proof.
  destruct (lint_text sample_files sample_long_text
              "approved.txt" "forbidden.txt" "caps.txt" 20) as [issues|e] eqn:H.
  2:{ vm_compute in H. discriminate H. }
  exists issues. split; [reflexivity|]. split.
  - refine (proj1 (proj2 (sentence_length_boundary _ _ _ _ _ issues 0
                            (twenty_words +:+ ".") 0 98 H _)) _);
      vm_compute; reflexivity.
  - refine (proj2 (proj2 (sentence_length_boundary _ _ _ _ _ issues 1
                            (twenty_words +:+ " more.") 98 202 H _)) _);
      vm_compute; reflexivity.
Defined.


(** ** Missing lexicon files *)

Lemma path_exists_false (fs : files) path : fs !! path = None -> path_exists fs path = false.
Proof.
  intros H. unfold path_exists. apply bool_decide_eq_false_2.
  rewrite H. intros [x Hx]. discriminate.
Qed.

Lemma load_wordlist_exists (fs : files) path :
  path_exists fs path = true -> exists words, load_wordlist fs path = Ok words.
Proof.
  unfold path_exists, load_wordlist. intros H. apply bool_decide_eq_true_1 in H.
  destruct H as [content ->]. eauto.
Qed.

(** C10: when the approved wordlist file does not exist, [lint_text] raises
    FileNotFoundError and returns no issue; when it loads, [lint_text]
    returns the rule engine's issue list, a missing forbidden file counting
    as the empty forbidden set and a missing all-caps file adding nothing to
    the approved set. *)
Theorem missing_lexicon_files (fs : files) text ap fp cp max :
  (fs !! ap = None -> lint_text fs text ap fp cp max = Err (FileNotFoundError ap)) /\
  (forall official, load_wordlist fs ap = Ok official ->
     exists approved forbidden,
       lint_text fs text ap fp cp max = Ok (lint_issues text approved forbidden max) /\
       (fs !! cp = None -> approved = lower_all official) /\
       (fs !! fp = None -> forbidden = ∅)).
Proof.
  split.
  - intros H. unfold lint_text, load_approved, load_wordlist. rewrite H. reflexivity.
  - intros official Hload.
    unfold lint_text, load_approved, load_forbidden. rewrite Hload.
    unfold mbind, result_bind.
    destruct (path_exists fs cp) eqn:Hcp.
    + destruct (load_wordlist_exists fs cp Hcp) as [extra ->].
      destruct (path_exists fs fp) eqn:Hfp.
      * destruct (load_wordlist_exists fs fp Hfp) as [listed ->].
        eexists _, _. split; [reflexivity|].
        split; intros Hnone; apply path_exists_false in Hnone; congruence.
      * eexists _, _. split; [reflexivity|].
        split; [|reflexivity]. intros Hnone. apply path_exists_false in Hnone. congruence.
    + destruct (path_exists fs fp) eqn:Hfp.
      * destruct (load_wordlist_exists fs fp Hfp) as [listed ->].
        eexists _, _. split; [reflexivity|].
        split; [reflexivity|]. intros Hnone. apply path_exists_false in Hnone. congruence.
      * eexists _, _. split; [reflexivity|]. split; reflexivity.
Qed.

Lemma missing_lexicon_files_witness :
  lint_text sample_files sample_text "nowhere.txt" "forbidden.txt" "caps.txt" 20
    = Err (FileNotFoundError "nowhere.txt") /\
  lint_text sample_files sample_text "approved.txt" "nowhere.txt" "caps.txt" 20
    = Ok (lint_issues sample_text (lower_all (list_to_set sample_approved)) ∅ 20).
Proof.
  destruct (missing_lexicon_files sample_files sample_text
              "nowhere.txt" "forbidden.txt" "caps.txt" 20) as [Hmiss _].
  destruct (missing_lexicon_files sample_files sample_text
              "approved.txt" "nowhere.txt" "caps.txt" 20) as [_ Hok].
  split; [apply Hmiss; vm_compute; reflexivity|].
  destruct (Hok (list_to_set sample_approved)) as (approved & forbidden & Hl & Ha & Hf);
    [vm_compute; reflexivity|].
  rewrite Hl, Ha, Hf by (vm_compute; reflexivity). reflexivity.
Defined.

(** ** The end-to-end example *)

Lemma word_issue_approved approved tok a b :
  Py.lower tok ∈ approved \/ Py.len (Py.lower tok) < 3 ->
  word_issue approved ∅ (tok, a, b) = [].
Proof.
  intros H. unfold word_issue.
  destruct (Py.isdigit _); [reflexivity|].
  destruct (Py.len (Py.lower tok) <? 3) eqn:Hlen; [reflexivity|].
  apply Nat.ltb_ge in Hlen. destruct H as [H|H]; [|lia].
  simpl. destruct (is_acronym tok); [reflexivity|].
  rewrite bool_decide_eq_false_2 by set_solver.
  rewrite bool_decide_eq_true_2 by exact H. reflexivity.
Qed.

Lemma operator_tokens :
  tokenize_words_with_spans operator_text =
    [ ("The", 0, 3); ("operator", 4, 12); ("starts", 13, 19); ("the", 20, 23);
      ("system", 24, 30); ("and", 31, 34); ("does", 35, 39); ("the", 40, 43);
      ("procedure", 44, 53); ("in", 54, 56); ("minutes", 60, 67) ].
Proof. vm_compute. reflexivity. Qed.

(** C6, as stated, fails: with exactly the approved words the specification
    lists and an empty forbidden list, the articles and the conjunction of
    the sentence are reported as UnapprovedWord. *)
Lemma operator_example_unapproved :
  exists issues,
    lint_text operator_files operator_text "approved.txt" "forbidden.txt" "caps.txt" 20
      = Ok issues /\
    load_approved operator_files "approved.txt" "caps.txt"
      = Ok (list_to_set operator_words) /\
    load_forbidden operator_files "forbidden.txt" = Ok ∅ /\
    map (fun i => (type i, message i, span i)) issues =
      [ (UnapprovedWord, "Not in approved lexicon: 'The'", (0, 3));
        (UnapprovedWord, "Not in approved lexicon: 'the'", (20, 23));
        (UnapprovedWord, "Not in approved lexicon: 'and'", (31, 34));
        (UnapprovedWord, "Not in approved lexicon: 'the'", (40, 43)) ].
Proof.
  eexists. split; [vm_compute; reflexivity|].
  repeat split; vm_compute; reflexivity.
Qed.

(** C6, amended: when the effective approved set also holds "the" and "and",
    linting the sentence with an empty forbidden set raises no ForbiddenWord,
    no UnapprovedWord and no PassiveVoice issue. *)
Theorem operator_example_clean (fs : files) ap fp cp approved :
  load_approved fs ap cp = Ok approved ->
  load_forbidden fs fp = Ok ∅ ->
  Forall (fun w => w ∈ approved)
    [ "the"; "operator"; "starts"; "system"; "and"; "does"; "procedure"; "minutes" ] ->
  exists issues,
    lint_text fs operator_text ap fp cp 20 = Ok issues /\
    Forall (fun i => type i <> ForbiddenWord /\ type i <> UnapprovedWord /\
                     type i <> PassiveVoice) issues.
Proof.
  intros Ha Hf Hwords.
  exists (lint_issues operator_text approved ∅ 20).
  split; [apply lint_text_loaded; assumption|].
  assert (Hw : forall w, w ∈ [ "the"; "operator"; "starts"; "system"; "and"; "does";
                               "procedure"; "minutes" ] -> w ∈ approved).
  { rewrite Forall_forall in Hwords. exact Hwords. }
  unfold lint_issues. rewrite operator_tokens.
  replace (sentence_issues 20 0 (split_sentences_with_spans operator_text))
    with (@nil Issue) by (vm_compute; reflexivity).
  replace (Re.finditer PASSIVE_RE operator_text)
    with (@nil Re.rmatch) by (vm_compute; reflexivity).
  cbn [flat_map map app].
  rewrite !word_issue_approved; [constructor|..].
  all: first [ right; vm_compute; lia
             | left; apply Hw; apply list_elem_of_In; vm_compute; tauto ].
Qed.

Lemma operator_example_clean_witness :
  exists issues,
    lint_text sample_files operator_text "approved.txt" "nowhere.txt" "caps.txt" 20
      = Ok issues /\
    Forall (fun i => type i <> ForbiddenWord /\ type i <> UnapprovedWord /\
                     type i <> PassiveVoice) issues.
Proof.
  apply (operator_example_clean sample_files "approved.txt" "nowhere.txt" "caps.txt"
           (lower_all (list_to_set sample_approved))).
  - vm_compute; reflexivity.
  - vm_compute; reflexivity.
  - repeat constructor; vm_compute; reflexivity.
Defined.


(** ** Morphology *)

Lemma getitem_neg_ok s k :
  1 <= k <= Py.len s -> exists c, Py.getitem_neg s k = Ok c /\ c ∈ Py.chars s.
Proof.
  intros [H1 H2]. unfold Py.getitem_neg.
  destruct (k <=? Py.len s) eqn:E1; [|apply Nat.leb_gt in E1; lia].
  destruct (1 <=? k) eqn:E2; [|apply Nat.leb_gt in E2; lia].
  simpl. destruct (Py.chars s !! (Py.len s - k)) as [c|] eqn:E.
  - exists c. split; [reflexivity|]. eapply list_elem_of_lookup_2; exact E.
  - apply lookup_ge_None in E. unfold Py.len in *. lia.
Qed.

Lemma len_drop_last k s : Py.len (Py.drop_last k s) = Py.len s - k.
Proof.
  unfold Py.drop_last. unfold Py.len at 1. rewrite chars_str, length_take.
  unfold Py.len. lia.
Qed.

Lemma double_final_ok w :
  exists d, _double_final_consonant_for_ing_ed w = Ok d /\ (d = true -> 3 <= Py.len w).
Proof.
  unfold _double_final_consonant_for_ing_ed.
  destruct (Py.len w <? 3) eqn:Hlen.
  - exists false. split; [reflexivity|discriminate].
  - apply Nat.ltb_ge in Hlen.
    destruct (getitem_neg_ok w 1) as (c1 & -> & _); [lia|].
    destruct (getitem_neg_ok w 2) as (c2 & -> & _); [lia|].
    destruct (getitem_neg_ok w 3) as (c3 & -> & _); [lia|].
    simpl.
    destruct (char_in _ "wxy"); [eauto|].
    destruct (_is_vowel (Py.char_lower c1)); [eauto|].
    destruct (negb (_is_vowel c2)); eauto.
Qed.

Lemma consonant_y_ok b low : exists d, consonant_y b low = Ok d.
Proof.
  unfold consonant_y.
  destruct (Py.endswith low "y"); [|eauto].
  destruct (1 <? Py.len b) eqn:Hlen; [|eauto].
  apply Nat.ltb_lt in Hlen.
  destruct (getitem_neg_ok b 2) as (c & -> & _); [lia|]. simpl. eauto.
Qed.

Lemma app_longer b suffix : 1 <= Py.len suffix -> b +:+ suffix <> b.
Proof. intros H E. apply (f_equal Py.len) in E. rewrite len_app in E. lia. Qed.

Lemma drop_last_app_longer k b suffix :
  k < Py.len suffix -> Py.drop_last k b +:+ suffix <> b.
Proof.
  intros H E. apply (f_equal Py.len) in E. rewrite len_app, len_drop_last in E. lia.
Qed.

Ltac in_forms := rewrite ?elem_of_union, ?elem_of_singleton; solve [auto 8].

(** Every path through either function adds the third person singular or the
    plural, one of the three forms below; each differs from the base in
    length. *)
Ltac derived_form b :=
  first
    [ exists (b +:+ "ES"); split; [in_forms|apply app_longer; vm_compute; lia]
    | exists (Py.drop_last 1 b +:+ "IES"); split;
        [in_forms|apply drop_last_app_longer; vm_compute; lia]
    | exists (b +:+ "S"); split; [in_forms|apply app_longer; vm_compute; lia] ].

Ltac verb_paths b cy :=
  destruct (_ends_with_any _ _); [|destruct cy];
  (destruct (Py.endswith (Py.lower b) "e");
   [destruct (Py.endswith (Py.lower b) "ie"); [|destruct (Py.endswith _ "ee")]
   |destruct (Py.endswith (Py.lower b) "ie")]);
  simpl; eexists; (split; [reflexivity|]); (split; [in_forms|]);
  derived_form b.

Lemma verb_inflections_total b :
  exists forms, _verb_inflections b = Ok forms /\ b ∈ forms /\
                exists w, w ∈ forms /\ w <> b.
Proof.
  unfold _verb_inflections. cbv zeta.
  destruct (consonant_y_ok b (Py.lower b)) as [cy Hcy].
  destruct (double_final_ok (Py.lower b)) as (d & Hd & Hlen).
  rewrite Hcy, !Hd. unfold mbind, result_bind.
  destruct d.
  - destruct (getitem_neg_ok b 1) as (c & -> & _).
    { specialize (Hlen eq_refl). rewrite len_lower in Hlen. lia. }
    verb_paths b cy.
  - verb_paths b cy.
Qed.

Lemma plural_forms_total b :
  exists forms, _plural_forms b = Ok forms /\ b ∈ forms /\
                exists w, w ∈ forms /\ w <> b.
Proof.
  unfold _plural_forms. cbv zeta.
  destruct (consonant_y_ok b (Py.lower b)) as [cy ->]. unfold mbind, result_bind.
  destruct (_ends_with_any _ _); [|destruct cy];
    eexists; (split; [reflexivity|]); (split; [in_forms|]);
    derived_form b.
Qed.

(** C5: [_verb_inflections] and [_plural_forms] return, for every base word
    and so for every non-empty uppercase one, a set that holds the base and
    a form other than the base; the forms of STOP and of BOX are the ones
    listed. *)
Theorem morphology_forms :
  (forall b, b <> EmptyString ->
     Py.upper_is_self b = true -> Py.lower_is_self b = false ->
     (exists forms, _verb_inflections b = Ok forms /\ b ∈ forms /\
                    exists w, w ∈ forms /\ w <> b) /\
     (exists forms, _plural_forms b = Ok forms /\ b ∈ forms /\
                    exists w, w ∈ forms /\ w <> b)) /\
  (exists forms, _verb_inflections "STOP" = Ok forms /\
                 "STOP" ∈ forms /\ "STOPS" ∈ forms /\ "STOPPED" ∈ forms /\
                 "STOPPING" ∈ forms) /\
  (exists forms, _plural_forms "BOX" = Ok forms /\ "BOX" ∈ forms /\ "BOXES" ∈ forms).
Proof.
  split; [|split].
  - intros b _ _ _. split; [apply verb_inflections_total|apply plural_forms_total].
  - eexists. split; [vm_compute; reflexivity|].
    repeat split; vm_compute; reflexivity.
  - eexists. split; [vm_compute; reflexivity|].
    repeat split; vm_compute; reflexivity.
Qed.

Lemma morphology_forms_witness :
  (exists forms, _verb_inflections "CARRY" = Ok forms /\ "CARRY" ∈ forms /\
                 exists w, w ∈ forms /\ w <> "CARRY") /\
  (exists forms, _plural_forms "CARRY" = Ok forms /\ "CARRY" ∈ forms /\
                 exists w, w ∈ forms /\ w <> "CARRY").
Proof.
  destruct morphology_forms as [H _].
  apply (H "CARRY"); [discriminate|vm_compute; reflexivity..].
Defined.


(** The forms either function returns are the base and words [derived] from
    it. *)
Lemma drop_last_chars k b c : c ∈ Py.chars (Py.drop_last k b) -> c ∈ Py.chars b.
Proof.
  unfold Py.drop_last. rewrite chars_str, elem_of_take.
  intros (i & Hi & _). eapply list_elem_of_lookup_2; exact Hi.
Qed.

Lemma app_char_chars b c0 c :
  c0 ∈ Py.chars b -> c ∈ Py.chars (b +:+ Py.of_char c0) -> c ∈ Py.chars b.
Proof.
  intros H0. rewrite chars_app, elem_of_app. intros [H|H]; [exact H|].
  apply list_elem_of_singleton in H. now subst.
Qed.

Ltac is_derived Hc :=
  right; eexists _, _; split; [reflexivity|]; split;
  [ apply list_elem_of_In; vm_compute; tauto
  | first [ tauto
          | intros ?; apply drop_last_chars
          | intros ?; apply (app_char_chars _ _ _ Hc) ] ].

Ltac which_form Hw Hc :=
  rewrite !elem_of_union, !elem_of_singleton in Hw;
  repeat (destruct Hw as [Hw| ->]; [|is_derived Hc]);
  left; exact Hw.

Ltac verb_forms b cy Hc :=
  destruct (_ends_with_any _ _); [|destruct cy];
  (destruct (Py.endswith (Py.lower b) "e");
   [destruct (Py.endswith (Py.lower b) "ie"); [|destruct (Py.endswith _ "ee")]
   |destruct (Py.endswith (Py.lower b) "ie")]);
  simpl; intros [= <-] w Hw; which_form Hw Hc.

Lemma verb_inflections_forms b forms :
  _verb_inflections b = Ok forms -> forall w, w ∈ forms -> w = b \/ derived b w.
Proof.
  unfold _verb_inflections, derived. cbv zeta.
  destruct (consonant_y_ok b (Py.lower b)) as [cy Hcy].
  destruct (double_final_ok (Py.lower b)) as (d & Hd & Hlen).
  rewrite Hcy, !Hd. unfold mbind, result_bind.
  destruct d.
  - destruct (getitem_neg_ok b 1) as (c & -> & Hc).
    { specialize (Hlen eq_refl). rewrite len_lower in Hlen. lia. }
    verb_forms b cy Hc.
  - verb_forms b cy I.
Qed.

Lemma plural_forms_forms b forms :
  _plural_forms b = Ok forms -> forall w, w ∈ forms -> w = b \/ derived b w.
Proof.
  unfold _plural_forms, derived. cbv zeta.
  destruct (consonant_y_ok b (Py.lower b)) as [cy ->]. unfold mbind, result_bind.
  destruct (_ends_with_any _ _); [|destruct cy];
    intros [= <-] w Hw; which_form Hw I.
Qed.


(** ** Case and whitespace *)

Lemma space_not_cased c :
  Py.char_isspace c = true ->
  Py.char_is_uppercase c = false /\ Py.char_upper c = [Py.code c].
Proof.
  destruct c as [[] [] [] [] [] [] [] []]; vm_compute; intros H;
    first [discriminate H | split; reflexivity].
Qed.

Lemma lower_changes s :
  Py.lower s <> s -> Exists (fun c => Py.char_is_uppercase c = true) (Py.chars s).
Proof.
  intros H.
  assert (Hl : map Py.char_lower (Py.chars s) <> Py.chars s).
  { intros E. apply H. apply chars_inj. now rewrite chars_lower. }
  clear H. induction (Py.chars s) as [|c l IH]; [now destruct Hl|].
  destruct (Py.char_is_uppercase c) eqn:E; [left; exact E|].
  right. apply IH. intros El. apply Hl. simpl. rewrite El.
  unfold Py.char_lower. now rewrite E.
Qed.

Lemma upper_changes s :
  Py.upper s <> Py.codes s ->
  Exists (fun c => Py.char_upper c <> [Py.code c]) (Py.chars s).
Proof.
  unfold Py.upper, Py.codes. intros H.
  induction (Py.chars s) as [|c l IH]; [now destruct H|].
  destruct (decide (Py.char_upper c = [Py.code c])) as [E|E]; [|left; exact E].
  right. apply IH. intros El. apply H. simpl. now rewrite E, El.
Qed.

Lemma lower_changes_not_blank s : Py.lower s <> s -> not_blank s.
Proof.
  intros H. apply lower_changes in H. unfold not_blank.
  eapply Exists_impl; [exact H|]. simpl. intros c Hc.
  destruct (Py.char_isspace c) eqn:E; [|reflexivity].
  apply space_not_cased in E as [E _]. congruence.
Qed.

Lemma upper_changes_not_blank s : Py.upper s <> Py.codes s -> not_blank s.
Proof.
  intros H. apply upper_changes in H. unfold not_blank.
  eapply Exists_impl; [exact H|]. simpl. intros c Hc.
  destruct (Py.char_isspace c) eqn:E; [|reflexivity].
  apply space_not_cased in E as [_ E]. congruence.
Qed.

Lemma lower_app x y : Py.lower (x +:+ y) = Py.lower x +:+ Py.lower y.
Proof.
  apply chars_inj. now rewrite chars_app, !chars_lower, chars_app, map_app.
Qed.

Lemma SUFFIXES_facts y :
  y ∈ SUFFIXES -> Py.lower y <> y /\ listable y.
Proof.
  intros H. apply list_elem_of_In in H. simpl in H.
  repeat (destruct H as [<-|H]; [split; [discriminate|]|]); try contradiction.
  all: split; [repeat constructor|apply Exists_cons_hd; reflexivity].
Qed.

Lemma derived_not_lower b w : derived b w -> Py.lower w <> w.
Proof.
  intros (x & y & -> & Hy & _) E.
  apply SUFFIXES_facts in Hy as [Hy _]. apply Hy.
  rewrite lower_app in E. apply (f_equal Py.chars) in E.
  rewrite !chars_app in E. apply app_inj_1 in E as [_ E].
  - apply chars_inj. exact E.
  - rewrite chars_lower. apply length_map.
Qed.

Lemma derived_listable b w : single_line b -> derived b w -> listable w.
Proof.
  intros Hb (x & y & -> & Hy & Hx).
  apply SUFFIXES_facts in Hy as [_ [Hy1 Hy2]].
  unfold listable, single_line, not_blank in *. rewrite chars_app. split.
  - apply Forall_app. split; [|exact Hy1].
    rewrite Forall_forall in *. auto.
  - apply Exists_app. right. exact Hy2.
Qed.


(** ** The lexicon builder *)

(** A [for] loop runs to its end when its body does, and keeps what the body
    keeps. *)
Lemma for_each_inv {A S} (P : S -> Prop) (body : S -> A -> result S) xs :
  (forall st x, x ∈ xs -> P st -> exists st', body st x = Ok st' /\ P st') ->
  forall st, P st -> exists st', for_each body xs st = Ok st' /\ P st'.
Proof.
  induction xs as [|x xs IH]; intros Hbody st Hst; simpl; [eauto|].
  destruct (Hbody st x) as (st1 & -> & H1); [left|exact Hst|].
  simpl. apply IH; [|exact H1].
  intros st' y Hy. apply Hbody. now right.
Qed.

Lemma headword_char_single_line c :
  headword_char c = true -> Py.is_code 10 c = false /\ Py.is_code 13 c = false.
Proof.
  destruct c as [[] [] [] [] [] [] [] []]; vm_compute; intros H;
    first [discriminate H | split; reflexivity].
Qed.

Lemma letter_headword_char c : Re.letter c = true -> headword_char c = true.
Proof. unfold headword_char. intros ->. reflexivity. Qed.

(** A match of [HEADWORD_RE] has set both groups, the first over characters
    of the headword class. *)
Lemma headword_match s i j c :
  Re.matches s HEADWORD_RE i [] j c ->
  exists a1 b1 a2 b2,
    c = [(2, (a2, b2)); (1, (a1, b1))] /\
    forall x, a1 <= x < b1 -> exists ch, s !! x = Some ch /\ headword_char ch = true.
Proof.
  cbv [HEADWORD_RE Re.seqs foldr Re.lit]. intros H.
  repeat match goal with
         | H : Re.matches _ (Re.Seq _ _) _ _ _ _ |- _ => inversion H; subst; clear H
         | H : Re.matches _ (Re.Grp _ _) _ _ _ _ |- _ => inversion H; subst; clear H
         | H : Re.matches _ (Re.Chr _) _ _ _ _ |- _ => inversion H; subst; clear H
         | H : Re.matches _ (Re.Rep _ _) _ _ _ _ |- _ => inversion H; subst; clear H
         | H : Re.matches _ Re.Eps _ _ _ _ |- _ => inversion H; subst; clear H
         end.
  eexists _, _, _, _. split; [reflexivity|].
  intros x Hx.
  match goal with
  | Hl : Re.letter ?a = true, Ha : s !! ?i0 = Some ?a,
    Hall : forall x, S ?i0 <= x < _ -> exists ch, _ /\ headword_char ch = true |- _ =>
      destruct (decide (x = i0)) as [->|Hne];
      [exists a; split; [exact Ha|apply letter_headword_char; exact Hl]
      |apply Hall; lia]
  end.
Qed.

Lemma group_strip_headword sec m :
  m ∈ Re.finditer HEADWORD_RE sec ->
  exists hw p, group_strip sec m 1 = Ok hw /\ group_strip sec m 2 = Ok p /\
               single_line hw.
Proof.
  intros Hm. apply finditer_matches, headword_match in Hm
    as (a1 & b1 & a2 & b2 & Hc & Hcl).
  unfold group_strip, Re.group. rewrite Hc. simpl.
  eexists _, _. split; [reflexivity|]. split; [reflexivity|].
  apply strip_chars, slice_chars. intros x Hx.
  destruct (Hcl x Hx) as (ch & Hch & Hh). exists ch. split; [exact Hch|].
  apply headword_char_single_line, Hh.
Qed.

Lemma add_headword_ok hw pos acc :
  single_line hw -> lexicons_ok acc ->
  exists acc', add_headword hw pos acc = Ok acc' /\ lexicons_ok acc'.
Proof.
  intros Hsl Hacc. destruct acc as [approved forbidden].
  destruct Hacc as [Ha Hf]. simpl in Ha, Hf.
  assert (Hforms : forall forms,
    Py.lower hw <> hw ->
    (forall w, w ∈ forms -> w = hw \/ derived hw w) ->
    lexicons_ok (approved ∪ forms, forbidden)).
  { intros forms Hlow Hin. split; simpl; [|exact Hf].
    intros w Hw. apply elem_of_union in Hw as [Hw|Hw]; [apply Ha, Hw|].
    destruct (Hin w Hw) as [->|Hd].
    - split; [exact Hlow|]. split; [exact Hsl|apply lower_changes_not_blank, Hlow].
    - split; [eapply derived_not_lower, Hd|eapply derived_listable; eassumption]. }
  unfold add_headword.
  destruct (negb _); [exists (approved, forbidden); split; [reflexivity|split; assumption]|].
  unfold Py.upper_is_self, Py.lower_is_self.
  destruct (bool_decide (Py.upper hw = Py.codes hw)) eqn:Hup;
    destruct (bool_decide (Py.lower hw = hw)) eqn:Hlow; simpl;
    try (exists (approved, forbidden); split; [reflexivity|split; assumption]).
  - apply bool_decide_eq_false_1 in Hlow.
    destruct (char_in _ pos); [|destruct (char_in _ pos)].
    + destruct (verb_inflections_total hw) as (forms & Hv & _). rewrite Hv. simpl.
      eexists. split; [reflexivity|].
      apply Hforms; [exact Hlow|apply verb_inflections_forms, Hv].
    + destruct (plural_forms_total hw) as (forms & Hv & _). rewrite Hv. simpl.
      eexists. split; [reflexivity|].
      apply Hforms; [exact Hlow|apply plural_forms_forms, Hv].
    + eexists. split; [reflexivity|].
      apply Hforms; [exact Hlow|]. intros w Hw. left. now apply elem_of_singleton in Hw.
  - apply bool_decide_eq_true_1 in Hlow. apply bool_decide_eq_false_1 in Hup.
    eexists. split; [reflexivity|]. split; simpl; [exact Ha|].
    intros w Hw. apply elem_of_union in Hw as [Hw|Hw]; [apply Hf, Hw|].
    apply elem_of_singleton in Hw as ->.
    split; [exact Hlow|]. split; [exact Hsl|apply upper_changes_not_blank, Hup].
Qed.

Lemma headword_step_ok sec m acc :
  m ∈ Re.finditer HEADWORD_RE sec -> lexicons_ok acc ->
  exists acc', headword_step sec acc m = Ok acc' /\ lexicons_ok acc'.
Proof.
  intros Hm Hacc. destruct (group_strip_headword sec m Hm) as (hw & p & H1 & H2 & Hsl).
  unfold headword_step. rewrite H1, H2. simpl.
  apply add_headword_ok; assumption.
Qed.

Lemma section_step_ok acc sec :
  lexicons_ok acc -> exists acc', section_step acc sec = Ok acc' /\ lexicons_ok acc'.
Proof.
  intros Hacc. unfold section_step.
  apply (for_each_inv lexicons_ok); [|exact Hacc].
  intros st m Hm Hst. apply headword_step_ok; assumption.
Qed.

Lemma empty_lexicons_ok : lexicons_ok (∅, ∅).
Proof. split; simpl; intros w Hw; set_solver. Qed.

(** The build never raises, and its lexicons satisfy [lexicons_ok]. *)
Lemma build_lexicons_ok full :
  exists acc, build_lexicons full = Ok acc /\ lexicons_ok acc.
Proof.
  unfold build_lexicons.
  apply (for_each_inv lexicons_ok); [|apply empty_lexicons_ok].
  intros st sec _ Hst. apply section_step_ok, Hst.
Qed.


Lemma build_lexicons_from_pdf_text extract pdf full :
  extract pdf = Ok full ->
  build_lexicons_from_pdf extract pdf = build_lexicons full.
Proof. unfold build_lexicons_from_pdf. intros ->. reflexivity. Qed.

Lemma build_lexicons_from_pdf_inv extract pdf acc :
  build_lexicons_from_pdf extract pdf = Ok acc ->
  exists full, extract pdf = Ok full /\ build_lexicons full = Ok acc.
Proof.
  unfold build_lexicons_from_pdf. destruct (extract pdf) as [full|]; [|discriminate].
  simpl. eauto.
Qed.

(** C4: the approved and the forbidden set that one build returns have no
    word in common. *)
Theorem lexicons_disjoint extract pdf approved forbidden :
  build_lexicons_from_pdf extract pdf = Ok (approved, forbidden) ->
  approved ∩ forbidden = ∅.
Proof.
  intros H. apply build_lexicons_from_pdf_inv in H as (full & _ & H).
  destruct (build_lexicons_ok full) as (acc & Hacc & [Ha Hf]).
  rewrite H in Hacc. injection Hacc as <-. simpl in Ha, Hf.
  apply set_eq. intros w. rewrite elem_of_intersection, elem_of_empty.
  split; [|tauto]. intros [Hwa Hwf].
  destruct (Ha w Hwa) as [Hne _]. destruct (Hf w Hwf) as [Heq _]. contradiction.
Qed.

Lemma lexicons_disjoint_witness :
  build_lexicons_from_pdf sample_extract "STE100.pdf"
    = Ok (list_to_set ["STOP"; "STOPS"; "STOPPED"; "STOPPING"; "BOX"; "BOXES"; "SAFE"],
          list_to_set ["stop"]) /\
  (list_to_set ["STOP"; "STOPS"; "STOPPED"; "STOPPING"; "BOX"; "BOXES"; "SAFE"]
     : gset string) ∩ list_to_set ["stop"] = ∅.
Proof.
  assert (H : build_lexicons_from_pdf sample_extract "STE100.pdf"
    = Ok (list_to_set ["STOP"; "STOPS"; "STOPPED"; "STOPPING"; "BOX"; "BOXES"; "SAFE"],
          list_to_set ["stop"])) by (vm_compute; reflexivity).
  split; [exact H|].
  exact (lexicons_disjoint sample_extract "STE100.pdf" _ _ H).
Defined.

(** The sets are disjoint as built.  [lint_text] lower-cases both before
    matching; a headword that the table approves as one part of speech and
    forbids as another is then in both, and the forbidden check, which comes
    first, decides. *)
Lemma lowercased_lexicons_overlap :
  exists approved forbidden,
    build_lexicons sample_document = Ok (approved, forbidden) /\
    "STOP" ∈ approved /\ "stop" ∈ forbidden /\
    "stop" ∈ lower_all approved /\ "stop" ∈ lower_all forbidden.
Proof.
  eexists _, _. split; [vm_compute; reflexivity|].
  repeat split; vm_compute; reflexivity.
Qed.

(** C7: given the document text, the build returns a pair of sets and never
    raises; when the table header matches nowhere both sets are empty; and a
    row whose headword is neither all upper case nor all lower case leaves
    the sets as they were. *)
Theorem build_never_fails extract pdf full :
  extract pdf = Ok full ->
  (exists approved forbidden,
     build_lexicons_from_pdf extract pdf = Ok (approved, forbidden)) /\
  (Re.search HEADER_SPLIT_RE full = None ->
   build_lexicons_from_pdf extract pdf = Ok (∅, ∅)) /\
  (forall hw pos acc,
     Py.upper_is_self hw && negb (Py.lower_is_self hw) = false ->
     Py.lower_is_self hw && negb (Py.upper_is_self hw) = false ->
     add_headword hw pos acc = Ok acc).
Proof.
  intros Hx. rewrite (build_lexicons_from_pdf_text extract pdf full Hx).
  split; [|split].
  - destruct (build_lexicons_ok full) as ([approved forbidden] & H & _). eauto.
  - intros Hnone. unfold build_lexicons, Re.split.
    rewrite (search_none_finditer _ _ Hnone). reflexivity.
  - intros hw pos [approved forbidden] H1 H2. unfold add_headword.
    rewrite H1, H2.
    destruct (negb (bool_decide (is_Some (Re.search LETTER_RE hw)))); reflexivity.
Qed.

Lemma build_never_fails_witness :
  (exists approved forbidden,
     build_lexicons_from_pdf sample_extract "STE100.pdf" = Ok (approved, forbidden)) /\
  build_lexicons_from_pdf sample_extract "plain.pdf" = Ok (∅, ∅) /\
  add_headword "Mixed Case" "adj" (∅, ∅) = Ok (∅, ∅).
Proof.
  destruct (build_never_fails sample_extract "STE100.pdf" sample_document eq_refl)
    as (Hok & _ & Hskip).
  destruct (build_never_fails sample_extract "plain.pdf" sample_plain_document eq_refl)
    as (_ & Hempty & _).
  split; [exact Hok|]. split.
  - apply Hempty. vm_compute. reflexivity.
  - apply Hskip; vm_compute; reflexivity.
Defined.


(** ** The written wordlists *)

Lemma sorted_elem (words : gset string) w : w ∈ sorted words <-> w ∈ words.
Proof. unfold sorted. now rewrite merge_sort_Permutation, elem_of_elements. Qed.

Lemma strict_of_NoDup (l : list string) :
  StronglySorted String.le l -> NoDup l -> StronglySorted string_lt l.
Proof.
  induction 1 as [|w l _ IH Hall]; intros Hnd; [constructor|].
  apply NoDup_cons in Hnd as [Hfresh Hnd].
  constructor; [apply IH, Hnd|].
  rewrite Forall_forall in *. intros v Hv. split; [apply Hall, Hv|].
  intros ->. contradiction.
Qed.

(** [sorted] is strictly ascending: its result has no duplicates. *)
Lemma sorted_strict (words : gset string) : StronglySorted string_lt (sorted words).
Proof.
  apply strict_of_NoDup.
  - unfold sorted. apply StronglySorted_merge_sort; apply _.
  - unfold sorted. rewrite merge_sort_Permutation. apply NoDup_elements.
Qed.

(** The order in which the set is iterated does not show in [sorted]. *)
Lemma sorted_any_order (words : gset string) (l : list string) :
  l ≡ₚ elements words -> merge_sort String.le l = sorted words.
Proof.
  intros Hp. unfold sorted.
  apply (Sorted_unique String.le); try apply Sorted_merge_sort; try apply _.
  now rewrite !merge_sort_Permutation.
Qed.

Lemma chars_wordlist_text ws :
  Py.chars (wordlist_text ws) = concat (map (fun w => Py.chars w ++ [newline]) ws).
Proof.
  induction ws as [|w ws IH]; [reflexivity|].
  simpl. rewrite !chars_app, IH. reflexivity.
Qed.

Lemma universal_newlines_id l :
  Forall (fun c => Py.is_code 13 c = false) l -> universal_newlines l = l.
Proof.
  induction 1 as [|c l Hc _ IH]; [reflexivity|].
  simpl. rewrite Hc, IH. reflexivity.
Qed.

Lemma lines_of_line cur w rest :
  Forall (fun c => Py.is_code 10 c = false) w ->
  lines_of cur (w ++ newline :: rest)
  = Py.str (rev cur ++ w ++ [newline]) :: lines_of [] rest.
Proof.
  intros Hw. revert cur. induction Hw as [|c w Hc _ IH]; intros cur; simpl.
  - reflexivity.
  - rewrite Hc, IH. simpl. now rewrite <- app_assoc.
Qed.

(** The lines of a written wordlist are its words, one per line. *)
Lemma file_lines_wordlist ws :
  Forall single_line ws ->
  file_lines (wordlist_text ws) = map (fun w => w +:+ nl) ws.
Proof.
  intros Hws. unfold file_lines. rewrite chars_wordlist_text.
  rewrite universal_newlines_id.
  2:{ apply Forall_concat. rewrite Forall_map.
      eapply Forall_impl; [exact Hws|]. intros w Hw. simpl.
      apply Forall_app. split; [|repeat constructor].
      eapply Forall_impl; [exact Hw|]. simpl. tauto. }
  induction Hws as [|w ws Hw _ IH]; [reflexivity|].
  simpl. rewrite <- app_assoc. simpl. rewrite lines_of_line.
  - rewrite IH. f_equal. apply chars_inj. rewrite chars_str, chars_app. reflexivity.
  - eapply Forall_impl; [exact Hw|]. simpl. tauto.
Qed.

Lemma lstrip_keeps l :
  Exists (fun c => Py.char_isspace c = false) l ->
  Exists (fun c => Py.char_isspace c = false) (Py.lstrip_chars l).
Proof.
  induction l as [|c l IH]; intros H; [inversion H|].
  simpl. destruct (Py.char_isspace c) eqn:E; [|exact H].
  apply IH. inversion H; subst; [congruence|assumption].
Qed.

(** A word that is not blank gives a line that the loader would keep. *)
Lemma not_blank_line w : not_blank w -> nonempty (Py.strip (w +:+ nl)) = true.
Proof.
  unfold not_blank, nonempty, Py.strip, Py.rstrip_chars, Py.len. intros H.
  rewrite chars_str, chars_app.
  assert (He : Exists (fun c => Py.char_isspace c = false)
                 (rev (Py.lstrip_chars (rev (Py.lstrip_chars (Py.chars w ++ Py.chars nl)))))).
  { apply Exists_rev, lstrip_keeps, Exists_rev, lstrip_keeps, Exists_app. now left. }
  destruct (rev _); [inversion He|reflexivity].
Qed.

Lemma caps_char_facts c :
  caps_char c = true ->
  Py.is_code 10 c = false /\ Py.is_code 13 c = false /\ Py.char_isspace c = false.
Proof.
  destruct c as [[] [] [] [] [] [] [] []]; vm_compute; intros H;
    first [discriminate H | repeat split; reflexivity].
Qed.

Lemma upper_caps_char c : Py.between 65 90 c = true -> caps_char c = true.
Proof. unfold caps_char. intros ->. reflexivity. Qed.

Lemma allcaps_match s i j c :
  Re.matches s ALLCAPS_RE i [] j c ->
  forall x, i <= x < j -> exists ch, s !! x = Some ch /\ caps_char ch = true.
Proof.
  cbv [ALLCAPS_RE Re.seqs foldr]. intros H.
  repeat match goal with
         | H : Re.matches _ (Re.Seq _ _) _ _ _ _ |- _ => inversion H; subst; clear H
         | H : Re.matches _ (Re.Chr _) _ _ _ _ |- _ => inversion H; subst; clear H
         | H : Re.matches _ (Re.Rep _ _) _ _ _ _ |- _ => inversion H; subst; clear H
         | H : Re.matches _ Re.Bnd _ _ _ _ |- _ => inversion H; subst; clear H
         | H : Re.matches _ Re.Eps _ _ _ _ |- _ => inversion H; subst; clear H
         end.
  intros x Hx.
  match goal with
  | Hl : Py.between 65 90 ?a = true, Ha : s !! ?i0 = Some ?a,
    Hall : forall x, S ?i0 <= x < _ -> exists ch, _ /\ caps_char ch = true |- _ =>
      destruct (decide (x = i0)) as [->|Hne];
      [exists a; split; [exact Ha|apply upper_caps_char; exact Hl]
      |apply Hall; lia]
  end.
Qed.

Lemma ALLCAPS_RE_nonempty : 1 <= Re.min_len ALLCAPS_RE.
Proof. simpl. lia. Qed.

Lemma findall_allcaps_listable text :
  Forall listable (Re.findall ALLCAPS_RE text).
Proof.
  unfold Re.findall. rewrite Forall_map. apply Forall_forall. intros m Hm.
  pose proof (finditer_matches _ _ _ Hm) as HM.
  pose proof (allcaps_match _ _ _ _ HM) as Hcl.
  pose proof (finditer_chain ALLCAPS_RE text ALLCAPS_RE_nonempty) as Hch.
  apply chain_Forall in Hch. rewrite Forall_map, Forall_forall in Hch.
  specialize (Hch m Hm). simpl in Hch.
  assert (Hall : Forall (fun c => caps_char c = true) (Py.chars (Re.matched text m))).
  { apply slice_chars. exact Hcl. }
  split.
  - eapply Forall_impl; [exact Hall|]. intros c Hc.
    apply caps_char_facts in Hc. tauto.
  - unfold not_blank. destruct (Py.chars (Re.matched text m)) as [|c l] eqn:E.
    + exfalso. apply (f_equal length) in E. unfold Re.matched, Py.slice in E.
      rewrite chars_str, length_take, length_drop in E. simpl in E.
      unfold Py.len in Hch. lia.
    + left. apply Forall_cons in Hall as [Hc _]. apply caps_char_facts in Hc. tauto.
Qed.

Lemma all_caps_listable text w : w ∈ all_caps_words text -> listable w.
Proof.
  unfold all_caps_words.
  pose proof (findall_allcaps_listable text) as Hall.
  assert (Hgen : forall (acc : gset string),
    (forall v, v ∈ acc -> listable v) ->
    w ∈ fold_left
          (fun words m =>
             if Py.isdigit m then words
             else if bool_decide (m ∈ HEADINGS) then words
             else words ∪ {[ m ]})
          (Re.findall ALLCAPS_RE text) acc -> listable w).
  { induction Hall as [|m l Hm _ IH]; intros acc Hacc; simpl; [apply Hacc|].
    apply IH. destruct (Py.isdigit m); [exact Hacc|].
    destruct (bool_decide (m ∈ HEADINGS)); [exact Hacc|].
    intros v Hv. apply elem_of_union in Hv as [Hv|Hv]; [apply Hacc, Hv|].
    apply elem_of_singleton in Hv as ->. exact Hm. }
  apply Hgen. intros v Hv. set_solver.
Qed.


(** A build, up to the three writes. *)
Lemma ensure_wordlists_writes extract writable (fs : files) ap fp cp pdf doc :
  extract pdf = Ok doc ->
  path_exists fs pdf = true ->
  path_exists fs ap && path_exists fs fp && path_exists fs cp = false ->
  exists approved forbidden,
    build_lexicons doc = Ok (approved, forbidden) /\
    lexicons_ok (approved, forbidden) /\
    ensure_wordlists extract writable fs ap fp cp pdf
    = (fs1 ← write_wordlist writable ap approved fs;
       fs2 ← write_wordlist writable fp forbidden fs1;
       write_wordlist writable cp (all_caps_words doc) fs2).
Proof.
  intros Hx Hpdf Hneed.
  destruct (build_lexicons_ok doc) as ([approved forbidden] & Hb & Hok).
  exists approved, forbidden. split; [exact Hb|]. split; [exact Hok|].
  unfold ensure_wordlists, build_lexicons_from_pdf, extract_all_caps_words.
  rewrite Hneed, Hpdf, Hx. simpl. rewrite Hb. reflexivity.
Qed.

Lemma ensure_wordlists_builds extract writable (fs : files) ap fp cp pdf doc :
  extract pdf = Ok doc ->
  path_exists fs pdf = true ->
  path_exists fs ap && path_exists fs fp && path_exists fs cp = false ->
  (forall p, p ∈ [ap; fp; cp] -> writable p = true) ->
  exists approved forbidden,
    build_lexicons doc = Ok (approved, forbidden) /\
    lexicons_ok (approved, forbidden) /\
    ensure_wordlists extract writable fs ap fp cp pdf
    = Ok (with_wordlist cp (all_caps_words doc)
            (with_wordlist fp forbidden (with_wordlist ap approved fs))).
Proof.
  intros Hx Hpdf Hneed Hw.
  destruct (ensure_wordlists_writes extract writable fs ap fp cp pdf doc Hx Hpdf Hneed)
    as (approved & forbidden & Hb & Hok & E).
  exists approved, forbidden. split; [exact Hb|]. split; [exact Hok|].
  rewrite E. unfold write_wordlist.
  rewrite !Hw by (apply list_elem_of_In; simpl; auto). reflexivity.
Qed.

(** Whichever of the three paths is asked for, and whether or not some of
    them coincide, it holds the sorted list of one of the three sets. *)
Lemma written_lookup ap fp cp (approved forbidden allcaps : gset string) path :
  path ∈ [ap; fp; cp] ->
  exists words,
    words ∈ [approved; forbidden; allcaps] /\
    forall fs : files,
      with_wordlist cp allcaps
        (with_wordlist fp forbidden (with_wordlist ap approved fs)) !! path
      = Some (wordlist_text (sorted words)).
Proof.
  intros Hin. unfold with_wordlist.
  destruct (decide (cp = path)) as [->|Hc].
  { exists allcaps. split; [repeat constructor|]. intros fs. apply lookup_insert_eq. }
  destruct (decide (fp = path)) as [->|Hf].
  { exists forbidden. split; [repeat constructor|]. intros fs.
    rewrite lookup_insert_ne by exact Hc. apply lookup_insert_eq. }
  exists approved. split; [repeat constructor|]. intros fs.
  rewrite lookup_insert_ne by exact Hc. rewrite lookup_insert_ne by exact Hf.
  apply list_elem_of_In in Hin. simpl in Hin.
  destruct Hin as [<-|[E|[E|[]]]]; [apply lookup_insert_eq|congruence..].
Qed.

Lemma wordlist_file_format (words : gset string) :
  (forall w, w ∈ words -> listable w) ->
  file_lines (wordlist_text (sorted words)) = map (fun w => w +:+ nl) (sorted words) /\
  Forall (fun line => nonempty (Py.strip line) = true)
         (file_lines (wordlist_text (sorted words))).
Proof.
  intros Hall.
  assert (Hl : Forall listable (sorted words)).
  { apply Forall_forall. intros w Hw. apply Hall, sorted_elem, Hw. }
  assert (E : file_lines (wordlist_text (sorted words))
              = map (fun w => w +:+ nl) (sorted words)).
  { apply file_lines_wordlist. eapply Forall_impl; [exact Hl|]. now intros w [H _]. }
  split; [exact E|]. rewrite E, Forall_map.
  eapply Forall_impl; [exact Hl|]. intros w [_ H]. simpl. apply not_blank_line, H.
Qed.

Lemma written_exists ap fp cp (approved forbidden allcaps : gset string) (fs : files) path :
  path ∈ [ap; fp; cp] ->
  path_exists (with_wordlist cp allcaps
                 (with_wordlist fp forbidden (with_wordlist ap approved fs))) path
  = true.
Proof.
  intros Hin.
  destruct (written_lookup ap fp cp approved forbidden allcaps path Hin)
    as (words & _ & Hlook).
  unfold path_exists. apply bool_decide_eq_true_2. rewrite Hlook. eauto.
Qed.

(** C8: two builds from the same document text, whatever the state of the
    file system and the source of the text, when the three files can be
    written, return the same approved, forbidden and all-caps sets and leave
    the same text in each of the three files; that text is the words of one
    of the sets, one per line, strictly ascending (sorted, no duplicate),
    with no blank line, and does not depend on the order in which the set is
    iterated.  Run again on its own output, [ensure_wordlists] leaves every
    file as it is, writable or not. *)
Theorem build_output_sorted extract1 extract2 writable1 writable2 (fs1 fs2 : files)
    ap fp cp pdf1 pdf2 doc :
  extract1 pdf1 = Ok doc -> extract2 pdf2 = Ok doc ->
  path_exists fs1 pdf1 = true -> path_exists fs2 pdf2 = true ->
  path_exists fs1 ap && path_exists fs1 fp && path_exists fs1 cp = false ->
  path_exists fs2 ap && path_exists fs2 fp && path_exists fs2 cp = false ->
  (forall p, p ∈ [ap; fp; cp] -> writable1 p = true) ->
  (forall p, p ∈ [ap; fp; cp] -> writable2 p = true) ->
  exists (approved forbidden allcaps : gset string) (fs1' fs2' : files),
    build_lexicons_from_pdf extract1 pdf1 = Ok (approved, forbidden) /\
    build_lexicons_from_pdf extract2 pdf2 = Ok (approved, forbidden) /\
    extract_all_caps_words extract1 pdf1 = Ok allcaps /\
    extract_all_caps_words extract2 pdf2 = Ok allcaps /\
    ensure_wordlists extract1 writable1 fs1 ap fp cp pdf1 = Ok fs1' /\
    ensure_wordlists extract2 writable2 fs2 ap fp cp pdf2 = Ok fs2' /\
    (forall writable, ensure_wordlists extract1 writable fs1' ap fp cp pdf1 = Ok fs1') /\
    forall path, path ∈ [ap; fp; cp] ->
      exists words : gset string,
        words ∈ [approved; forbidden; allcaps] /\
        fs1' !! path = Some (wordlist_text (sorted words)) /\
        fs2' !! path = Some (wordlist_text (sorted words)) /\
        (forall l, l ≡ₚ elements words -> merge_sort String.le l = sorted words) /\
        StronglySorted string_lt (sorted words) /\
        file_lines (wordlist_text (sorted words))
          = map (fun w => w +:+ nl) (sorted words) /\
        Forall (fun line => nonempty (Py.strip line) = true)
               (file_lines (wordlist_text (sorted words))).
Proof.
  intros Hx1 Hx2 Hp1 Hp2 Hn1 Hn2 Hw1 Hw2.
  destruct (ensure_wordlists_builds extract1 writable1 fs1 ap fp cp pdf1 doc
              Hx1 Hp1 Hn1 Hw1)
    as (approved & forbidden & Hb & [Ha Hf] & E1).
  destruct (ensure_wordlists_builds extract2 writable2 fs2 ap fp cp pdf2 doc
              Hx2 Hp2 Hn2 Hw2)
    as (approved' & forbidden' & Hb' & _ & E2).
  rewrite Hb in Hb'. injection Hb' as <- <-.
  exists approved, forbidden, (all_caps_words doc). eexists _, _.
  rewrite !(build_lexicons_from_pdf_text _ _ doc) by assumption.
  unfold extract_all_caps_words at 1 2. rewrite Hx1, Hx2.
  repeat (split; [first [exact Hb | reflexivity | exact E1 | exact E2]|]).
  split.
  { intros writable. unfold ensure_wordlists.
    rewrite !written_exists by (apply list_elem_of_In; simpl; auto).
    reflexivity. }
  intros path Hpath.
  destruct (written_lookup ap fp cp approved forbidden (all_caps_words doc) path Hpath)
    as (words & Hwords & Hlook).
  exists words. split; [exact Hwords|]. split; [apply Hlook|]. split; [apply Hlook|].
  split; [apply sorted_any_order|]. split; [apply sorted_strict|].
  apply wordlist_file_format. intros w Hw.
  simpl in Ha, Hf.
  apply list_elem_of_In in Hwords. simpl in Hwords.
  destruct Hwords as [<-|[<-|[<-|[]]]].
  - apply Ha, Hw.
  - apply Hf, Hw.
  - eapply all_caps_listable, Hw.
Qed.

Lemma build_output_sorted_witness :
  exists fs1' fs2' : files,
    ensure_wordlists sample_extract sample_writable sample_fresh_files
      "approved.txt" "forbidden.txt" "caps.txt" "STE100.pdf" = Ok fs1' /\
    ensure_wordlists sample_extract sample_writable sample_stale_files
      "approved.txt" "forbidden.txt" "caps.txt" "STE100.pdf" = Ok fs2' /\
    fs1' !! "approved.txt"
      = Some (wordlist_text
                ["BOX"; "BOXES"; "SAFE"; "STOP"; "STOPPED"; "STOPPING"; "STOPS"]) /\
    fs1' !! "approved.txt" = fs2' !! "approved.txt" /\
    fs1' !! "forbidden.txt" = fs2' !! "forbidden.txt" /\
    fs1' !! "caps.txt" = fs2' !! "caps.txt".
Proof.
  assert (Hw : forall p, p ∈ ["approved.txt"; "forbidden.txt"; "caps.txt"] ->
                 sample_writable p = true).
  { intros p Hp. apply list_elem_of_In in Hp. simpl in Hp.
    destruct Hp as [<-|[<-|[<-|[]]]]; reflexivity. }
  destruct (build_output_sorted sample_extract sample_extract
              sample_writable sample_writable
              sample_fresh_files sample_stale_files
              "approved.txt" "forbidden.txt" "caps.txt" "STE100.pdf" "STE100.pdf"
              sample_document)
    as (approved & forbidden & allcaps & fs1' & fs2' & _ & _ & _ & _ & H1 & H2 & _ & Hall);
    try (vm_compute; reflexivity); try exact Hw.
  exists fs1', fs2'. split; [exact H1|]. split; [exact H2|].
  assert (Hsame : forall path, path ∈ ["approved.txt"; "forbidden.txt"; "caps.txt"] ->
                   fs1' !! path = fs2' !! path).
  { intros path Hp. destruct (Hall path Hp) as (words & _ & -> & -> & _). reflexivity. }
  split.
  - assert (E : ensure_wordlists sample_extract sample_writable sample_fresh_files
                  "approved.txt" "forbidden.txt" "caps.txt" "STE100.pdf"
                = Ok (with_wordlist "caps.txt" (all_caps_words sample_document)
                        (with_wordlist "forbidden.txt" (list_to_set ["stop"])
                           (with_wordlist "approved.txt"
                              (list_to_set ["BOX"; "BOXES"; "SAFE"; "STOP"; "STOPPED";
                                            "STOPPING"; "STOPS"])
                              sample_fresh_files))))
      by (vm_compute; reflexivity).
    rewrite E in H1. injection H1 as <-. vm_compute. reflexivity.
  - repeat split; apply Hsame; apply list_elem_of_In; vm_compute; tauto.
Defined.


(** * Further properties of the code *)

(** ** The scanner finds every match *)

Section scanner_facts.

Variable s : list ascii.

Lemma run_stop p (l : list ascii) :
  match l !! Re.run p l with
  | Some a => p a = false
  | None => True
  end.
Proof.
  induction l as [|a l IH]; simpl; [exact I|].
  destruct (p a) eqn:Hp; simpl; [exact IH|exact Hp].
Qed.

(** Every match the scanner reports for a pattern that cannot match the
    empty string is the first attempt at its start position. *)
Lemma scan_match_at r : 1 <= Re.min_len r -> forall n p lim,
  p + n = S (length s) ->
  Forall (fun m => Re.match_at r s (Re.m_start m) false
                   = Some (Re.m_end m, Re.m_groups m))
         (Re.scan r s n p lim).
Proof.
  intros Hr. induction n as [|n IH]; intros p lim Hn; simpl; [constructor|].
  destruct (p <? lim); [apply IH; lia|].
  destruct (Re.match_at r s p false) as [[e c]|] eqn:Hm; [|apply IH; lia].
  pose proof (match_at_span s r p false e c Hm ltac:(lia)) as Hspan.
  destruct (e =? p) eqn:He; [apply Nat.eqb_eq in He; lia|].
  constructor; [exact Hm|apply IH; lia].
Qed.

Lemma matches_end_bound r i c j c' :
  Re.matches s r i c j c' -> i < j -> j <= length s.
Proof.
  induction 1 as [| p i c a Ha Hp | | | | p lo i c j Hlo Hall | |];
    intros Hlt; try lia; auto.
  - apply lookup_lt_Some in Ha. lia.
  - destruct (Hall (j - 1)) as (a & Ha & _); [lia|].
    apply lookup_lt_Some in Ha. lia.
Qed.

Lemma match_at_in_range r q adv e c :
  1 <= Re.min_len r -> Re.match_at r s q adv = Some (e, c) -> q < length s.
Proof.
  intros Hr H. apply match_at_matches in H as [M _].
  pose proof (matches_min_len s _ _ _ _ _ M).
  pose proof (matches_end_bound _ _ _ _ _ M). lia.
Qed.

(** A position where the pattern matches lies inside one of the reported
    matches: either a match starts there or an earlier one covers it. *)
Lemma scan_covers r : 1 <= Re.min_len r -> forall n p lim q,
  p + n = S (length s) -> p <= q -> lim <= q ->
  is_Some (Re.match_at r s q false) ->
  exists m, m ∈ Re.scan r s n p lim /\ Re.m_start m <= q < Re.m_end m.
Proof.
  intros Hr. induction n as [|n IH]; intros p lim q Hn Hpq Hlim [[e c] Hq].
  { pose proof (match_at_in_range r q false e c Hr Hq). lia. }
  simpl. destruct (p <? lim) eqn:Hlt.
  - apply Nat.ltb_lt in Hlt.
    destruct (IH (S p) lim q) as (m & Hm & Hin); [lia|lia|lia|eauto|]. eauto.
  - apply Nat.ltb_ge in Hlt.
    destruct (Re.match_at r s p false) as [[e' c']|] eqn:Hm.
    + pose proof (match_at_span s r p false e' c' Hm ltac:(lia)) as Hspan.
      destruct (e' =? p) eqn:He; [apply Nat.eqb_eq in He; lia|].
      destruct (decide (q < e')) as [Hin|Hout].
      * exists (Re.Match p e' c'). split; [left|simpl; lia].
      * destruct (IH (S p) e' q) as (m & Hm' & Hin); [lia|lia|lia|eauto|].
        exists m. split; [right; exact Hm'|exact Hin].
    + assert (p <> q) by (intros ->; rewrite Hq in Hm; discriminate).
      destruct (IH (S p) lim q) as (m & Hm' & Hin); [lia|lia|lia|eauto|]. eauto.
Qed.

End scanner_facts.


Lemma finditer_match_at r text m :
  1 <= Re.min_len r -> m ∈ Re.finditer r text ->
  Re.match_at r (Py.chars text) (Re.m_start m) false = Some (Re.m_end m, Re.m_groups m).
Proof.
  intros Hr Hin.
  pose proof (scan_match_at (Py.chars text) r Hr (S (Py.len text)) 0 0 eq_refl) as H.
  rewrite Forall_forall in H. apply H. exact Hin.
Qed.

Lemma finditer_covers r text q :
  1 <= Re.min_len r ->
  is_Some (Re.match_at r (Py.chars text) q false) ->
  exists m, m ∈ Re.finditer r text /\ Re.m_start m <= q < Re.m_end m.
Proof.
  intros Hr Hq.
  apply (scan_covers (Py.chars text) r Hr (S (Py.len text)) 0 0 q eq_refl); [lia|lia|exact Hq].
Qed.

Lemma finditer_span r text m :
  1 <= Re.min_len r -> m ∈ Re.finditer r text ->
  Re.m_start m < Re.m_end m <= Py.len text.
Proof.
  intros Hr Hin. pose proof (finditer_chain r text Hr) as H.
  apply chain_Forall in H. rewrite Forall_map, Forall_forall in H.
  specialize (H m Hin). simpl in H. lia.
Qed.

(** Two spans of a chain that hold the same offset are the same span. *)
Lemma chain_unique lo hi spans sp1 sp2 x :
  Re.chain lo hi spans -> sp1 ∈ spans -> sp2 ∈ spans ->
  fst sp1 <= x < snd sp1 -> fst sp2 <= x < snd sp2 -> sp1 = sp2.
Proof.
  revert lo. induction spans as [|[a b] rest IH]; intros lo; simpl; [intros _ H; inversion H|].
  intros (H1 & H2 & H3 & H4) Hin1 Hin2 Hx1 Hx2.
  pose proof (chain_Forall _ _ _ H4) as Hall. rewrite Forall_forall in Hall.
  apply elem_of_cons in Hin1 as [->|Hin1]; apply elem_of_cons in Hin2 as [->|Hin2].
  - reflexivity.
  - specialize (Hall _ Hin2). simpl in *. lia.
  - specialize (Hall _ Hin1). simpl in *. lia.
  - eapply IH; eassumption.
Qed.

Lemma len_slice text a b : a <= b <= Py.len text -> Py.len (Py.slice text a b) = b - a.
Proof.
  intros H. unfold Py.slice, Py.len in *. rewrite chars_str, length_take, length_drop. lia.
Qed.

(** ** The tokenizer *)

Lemma backoff_first d base k m :
  k (base + d) = Some m -> Re.backoff d base k = Some m.
Proof. intros H. destruct d; simpl; rewrite H; reflexivity. Qed.

(** One attempt of the token pattern: a letter, then the longest run of
    token characters. *)
Lemma token_match_at s p :
  Re.match_at TOKEN_RE s p false =
  match s !! p with
  | Some a => if Re.letter a
              then Some (S p + Re.run token_char (drop (S p) s), [])
              else None
  | None => None
  end.
Proof.
  unfold Re.match_at, TOKEN_RE. simpl.
  destruct (s !! p) as [a|]; [|reflexivity].
  destruct (Re.letter a); [|reflexivity].
  rewrite Nat.sub_0_r, Nat.add_0_r.
  apply backoff_first. reflexivity.
Qed.

(** X1: a token is the text between its offsets; it is not empty, starts
    with an ASCII letter, is made of letters, digits, hyphens, slashes and
    apostrophes, and is as long as it can be: the character after it, if
    any, is none of these. *)
Theorem token_shape text tok a b :
  (tok, a, b) ∈ tokenize_words_with_spans text ->
  tok = Py.slice text a b /\
  a < b <= Py.len text /\
  Py.len tok = b - a /\
  (exists c, Py.chars text !! a = Some c /\ Re.letter c = true) /\
  Forall (fun c => token_char c = true) (Py.chars tok) /\
  match Py.chars text !! b with
  | Some c => token_char c = false
  | None => True
  end.
Proof.
  intros Hin. pose proof (token_chars text tok a b Hin) as Hchars.
  unfold tokenize_words_with_spans in Hin.
  apply list_elem_of_fmap in Hin as (m & E & Hm). injection E as -> -> ->.
  pose proof (finditer_span TOKEN_RE text m TOKEN_RE_nonempty Hm) as Hspan.
  pose proof (finditer_match_at TOKEN_RE text m TOKEN_RE_nonempty Hm) as Hat.
  rewrite token_match_at in Hat.
  destruct (Py.chars text !! Re.m_start m) as [c|] eqn:Hc; [|discriminate].
  destruct (Re.letter c) eqn:Hl; [|discriminate].
  injection Hat as Hend _.
  split; [reflexivity|]. split; [exact Hspan|].
  split; [apply len_slice; lia|].
  split; [eauto|]. split; [exact Hchars|].
  pose proof (run_stop token_char (drop (S (Re.m_start m)) (Py.chars text))) as Hstop.
  rewrite lookup_drop, Nat.add_succ_l, Hend in Hstop. exact Hstop.
Qed.

Lemma token_shape_witness :
  ("valve", 4, 9) ∈ tokenize_words_with_spans sample_text /\
  "valve" = Py.slice sample_text 4 9 /\
  Py.len "valve" = 9 - 4.
Proof.
  assert (H : ("valve", 4, 9) ∈ tokenize_words_with_spans sample_text).
  { apply list_elem_of_In. vm_compute. tauto. }
  split; [exact H|].
  destruct (token_shape sample_text "valve" 4 9 H) as (H1 & _ & H3 & _).
  split; assumption.
Defined.

(** X2: every ASCII letter of the text lies in a token, and in one only. *)
Theorem letters_tokenized text x c :
  Py.chars text !! x = Some c -> Re.letter c = true ->
  exists tok a b,
    (tok, a, b) ∈ tokenize_words_with_spans text /\ a <= x < b /\
    forall tok' a' b',
      (tok', a', b') ∈ tokenize_words_with_spans text -> a' <= x < b' ->
      (tok', a', b') = (tok, a, b).
Proof.
  intros Hx Hl.
  destruct (finditer_covers TOKEN_RE text x TOKEN_RE_nonempty) as (m & Hm & Hin).
  { rewrite token_match_at, Hx, Hl. eauto. }
  assert (Htok : (Re.matched text m, Re.m_start m, Re.m_end m)
                 ∈ tokenize_words_with_spans text).
  { unfold tokenize_words_with_spans. apply list_elem_of_fmap. eauto. }
  eexists _, _, _. split; [exact Htok|]. split; [exact Hin|].
  intros tok' a' b' Hin' Hx'.
  assert (E : (a', b') = (Re.m_start m, Re.m_end m)).
  { apply (chain_unique 0 (Py.len text) (map span3 (tokenize_words_with_spans text))
             (a', b') (Re.m_start m, Re.m_end m) x (tokens_chain text)).
    - apply list_elem_of_fmap. exists (tok', a', b'). split; [reflexivity|exact Hin'].
    - apply list_elem_of_fmap. eexists. split; [|exact Htok]. reflexivity.
    - exact Hx'.
    - exact Hin. }
  injection E as -> ->.
  unfold tokenize_words_with_spans in Hin'.
  apply list_elem_of_fmap in Hin' as (m' & E' & _). injection E' as -> E1 E2.
  unfold Re.matched. now rewrite E1, E2.
Qed.

Lemma letters_tokenized_witness :
  exists tok a b,
    (tok, a, b) ∈ tokenize_words_with_spans sample_text /\ a <= 6 < b.
Proof.
  destruct (letters_tokenized sample_text 6 "l"%char) as (tok & a & b & H1 & H2 & _);
    [vm_compute; reflexivity..|].
  eauto.
Defined.

(** A text without ASCII letters has no token. *)
Lemma no_letter_tokens text :
  Forall (fun c => Re.letter c = false) (Py.chars text) ->
  tokenize_words_with_spans text = [].
Proof.
  intros Hall. unfold tokenize_words_with_spans.
  destruct (Re.finditer TOKEN_RE text) as [|m ms] eqn:E; [reflexivity|].
  assert (Hm : m ∈ Re.finditer TOKEN_RE text) by (rewrite E; left).
  pose proof (finditer_match_at TOKEN_RE text m TOKEN_RE_nonempty Hm) as Hat.
  rewrite token_match_at in Hat.
  destruct (Py.chars text !! Re.m_start m) as [c|] eqn:Hc; [|discriminate].
  rewrite Forall_forall in Hall.
  rewrite (Hall c) in Hat; [discriminate|].
  eapply list_elem_of_lookup_2; exact Hc.
Qed.

(** X3: a text yields no token exactly when it holds no ASCII letter. *)
Theorem no_letter_no_token text :
  tokenize_words_with_spans text = [] <->
  Forall (fun c => Re.letter c = false) (Py.chars text).
Proof.
  split.
  - intros Hnil. apply Forall_forall. intros c Hc.
    apply list_elem_of_lookup in Hc as [x Hx].
    destruct (Re.letter c) eqn:Hl; [|reflexivity].
    destruct (finditer_covers TOKEN_RE text x TOKEN_RE_nonempty) as (m & Hm & _).
    { rewrite token_match_at, Hx, Hl. eauto. }
    unfold tokenize_words_with_spans in Hnil.
    apply fmap_nil_inv in Hnil. rewrite Hnil in Hm. inversion Hm.
  - apply no_letter_tokens.
Qed.


(** ** Stripping *)

Lemma lstrip_split l :
  exists k, l = k ++ Py.lstrip_chars l /\ Forall (fun c => Py.char_isspace c = true) k.
Proof.
  induction l as [|c l (k & E & Hk)]; simpl; [exists []; split; [reflexivity|constructor]|].
  destruct (Py.char_isspace c) eqn:Hc.
  - exists (c :: k). split; [simpl; now f_equal|now constructor].
  - exists []. split; [reflexivity|constructor].
Qed.

Lemma lstrip_head l c rest :
  Py.lstrip_chars l = c :: rest -> Py.char_isspace c = false.
Proof.
  induction l as [|a l IH]; simpl; [discriminate|].
  destruct (Py.char_isspace a) eqn:Ha; [exact IH|]. now intros [= <- _].
Qed.

Lemma lstrip_fixed l :
  match l with [] => True | c :: _ => Py.char_isspace c = false end ->
  Py.lstrip_chars l = l.
Proof. destruct l as [|c l]; simpl; [reflexivity|]. now intros ->. Qed.

Lemma lstrip_app_nonspace l c :
  Py.char_isspace c = false ->
  exists k, Py.lstrip_chars (l ++ [c]) = k ++ [c].
Proof.
  intros Hc. induction l as [|a l (k & IH)]; simpl.
  - rewrite Hc. exists []. reflexivity.
  - destruct (Py.char_isspace a); [eauto|]. exists (a :: l). reflexivity.
Qed.

Lemma rstrip_split l :
  exists k, l = Py.rstrip_chars l ++ k /\ Forall (fun c => Py.char_isspace c = true) k.
Proof.
  unfold Py.rstrip_chars. destruct (lstrip_split (rev l)) as (k & E & Hk).
  exists (rev k). split; [|now apply Forall_rev].
  rewrite <- (rev_involutive l) at 1. rewrite E at 1. apply rev_app_distr.
Qed.

Lemma rstrip_last l k c :
  Py.rstrip_chars l = k ++ [c] -> Py.char_isspace c = false.
Proof.
  unfold Py.rstrip_chars. intros E. apply (f_equal (@rev ascii)) in E.
  rewrite rev_involutive, rev_app_distr in E. simpl in E.
  eapply lstrip_head, E.
Qed.

Lemma rstrip_app_nonspace l c :
  Py.char_isspace c = false -> Py.rstrip_chars (l ++ [c]) = l ++ [c].
Proof.
  intros Hc. unfold Py.rstrip_chars. rewrite rev_app_distr. simpl. rewrite Hc.
  simpl. rewrite rev_involutive. reflexivity.
Qed.

(** What [strip] returns has no white space at either end. *)
Lemma strip_tight s :
  match Py.chars (Py.strip s) with
  | [] => True
  | c :: _ => Py.char_isspace c = false
  end /\
  match rev (Py.chars (Py.strip s)) with
  | [] => True
  | c :: _ => Py.char_isspace c = false
  end.
Proof.
  unfold Py.strip. rewrite chars_str.
  set (l := Py.lstrip_chars (Py.chars s)).
  assert (Hl : match l with [] => True | c :: _ => Py.char_isspace c = false end).
  { destruct l as [|c rest] eqn:E; [exact I|]. eapply lstrip_head, E. }
  destruct (rstrip_split l) as (k & E & _).
  split.
  - destruct (Py.rstrip_chars l) as [|c rest]; [exact I|].
    rewrite E in Hl. exact Hl.
  - unfold Py.rstrip_chars. rewrite rev_involutive.
    destruct (Py.lstrip_chars (rev l)) as [|c rest] eqn:E'; [exact I|].
    eapply lstrip_head, E'.
Qed.

Lemma tight_strip s :
  match Py.chars s with [] => True | c :: _ => Py.char_isspace c = false end ->
  match rev (Py.chars s) with [] => True | c :: _ => Py.char_isspace c = false end ->
  Py.strip s = s.
Proof.
  intros H1 H2. unfold Py.strip, Py.rstrip_chars.
  rewrite (lstrip_fixed _ H1), (lstrip_fixed _ H2), rev_involutive. apply str_chars.
Qed.

Lemma strip_idempotent s : Py.strip (Py.strip s) = Py.strip s.
Proof. destruct (strip_tight s). now apply tight_strip. Qed.

Lemma strip_empty_spaces s :
  nonempty (Py.strip s) = false -> Forall (fun c => Py.char_isspace c = true) (Py.chars s).
Proof.
  unfold nonempty, Py.len, Py.strip. rewrite chars_str. intros H.
  apply negb_false_iff, Nat.eqb_eq, length_zero_iff_nil in H.
  destruct (lstrip_split (Py.chars s)) as (k & E & Hk).
  destruct (rstrip_split (Py.lstrip_chars (Py.chars s))) as (k' & E' & Hk').
  rewrite H in E'. simpl in E'. rewrite E, E'. now apply Forall_app.
Qed.

Lemma strip_ends_with l c :
  Py.char_isspace c = false ->
  exists k, Py.chars (Py.strip (Py.str (l ++ [c]))) = k ++ [c].
Proof.
  intros Hc. unfold Py.strip. rewrite !chars_str.
  destruct (lstrip_app_nonspace l c Hc) as (k & ->).
  exists k. now apply rstrip_app_nonspace.
Qed.

Lemma slice_lookup text a b i :
  i < b - a -> Py.chars (Py.slice text a b) !! i = Py.chars text !! (a + i).
Proof.
  intros H. unfold Py.slice. rewrite chars_str, lookup_take_lt by exact H.
  apply lookup_drop.
Qed.


(** ** The sentence splitter *)

(** One attempt of the terminator pattern: one of [.], [!], [?]. *)
Lemma terminator_match_at s p :
  Re.match_at TERMINATOR_RE s p false =
  match s !! p with
  | Some a => if Re.one_of ".!?" a then Some (S p, [(1, (p, S p))]) else None
  | None => None
  end.
Proof.
  unfold Re.match_at, TERMINATOR_RE. simpl.
  destruct (s !! p) as [a|]; [|reflexivity].
  destruct (Re.one_of ".!?" a); reflexivity.
Qed.

Lemma terminator_not_space c : Re.one_of ".!?" c = true -> Py.char_isspace c = false.
Proof. destruct c as [[] [] [] [] [] [] [] []]; vm_compute; congruence. Qed.

Lemma terminator_found text m :
  m ∈ Re.finditer TERMINATOR_RE text ->
  Re.m_end m = S (Re.m_start m) /\
  exists c, Py.chars text !! Re.m_start m = Some c /\ Re.one_of ".!?" c = true.
Proof.
  intros Hm.
  pose proof (finditer_match_at TERMINATOR_RE text m TERMINATOR_RE_nonempty Hm) as Hat.
  rewrite terminator_match_at in Hat.
  destruct (Py.chars text !! Re.m_start m) as [c|]; [|discriminate].
  destruct (Re.one_of ".!?" c) eqn:Hc; [|discriminate].
  injection Hat as Hend _. eauto.
Qed.

Lemma terminator_listed text q c :
  Py.chars text !! q = Some c -> Re.one_of ".!?" c = true ->
  exists m, m ∈ Re.finditer TERMINATOR_RE text /\ Re.m_start m = q.
Proof.
  intros Hq Hc.
  destruct (finditer_covers TERMINATOR_RE text q TERMINATOR_RE_nonempty) as (m & Hm & Hs).
  { rewrite terminator_match_at, Hq, Hc. eauto. }
  exists m. split; [exact Hm|].
  destruct (terminator_found text m Hm) as (He & _). lia.
Qed.

Lemma slice_snoc text a p c :
  a <= p -> Py.chars text !! p = Some c ->
  Py.slice text a (S p) = Py.str (Py.chars (Py.slice text a p) ++ [c]).
Proof.
  intros Hle Hc. unfold Py.slice. rewrite chars_str. f_equal.
  replace (S p - a) with (S (p - a)) by lia.
  apply take_S_r. rewrite lookup_drop. replace (a + (p - a)) with p by lia. exact Hc.
Qed.

Lemma nonempty_neq s : nonempty s = true -> s <> "".
Proof. intros H ->. discriminate. Qed.

(** A chunk that holds a character other than white space is kept. *)
Lemma chunk_kept text a b x c :
  a <= x < b -> Py.chars text !! x = Some c -> Py.char_isspace c = false ->
  nonempty (Py.strip (Py.slice text a b)) = true.
Proof.
  intros Hx Hc Hs.
  destruct (nonempty (Py.strip (Py.slice text a b))) eqn:E; [reflexivity|].
  apply strip_empty_spaces in E. rewrite Forall_forall in E.
  assert (Hin : c ∈ Py.chars (Py.slice text a b)).
  { apply (list_elem_of_lookup_2 _ (x - a)).
    rewrite slice_lookup by lia. replace (a + (x - a)) with x by lia. exact Hc. }
  specialize (E c Hin). congruence.
Qed.

Lemma terminators_next text start m ms :
  terminators_from text start (m :: ms) ->
  terminators_from text (Re.m_end m) ms /\
  forall q c, start <= q < Re.m_start m -> Py.chars text !! q = Some c ->
    Re.one_of ".!?" c = false.
Proof.
  intros (Hch & Hall & Hcov). simpl in Hch. destruct Hch as (H1 & H2 & H3 & H4).
  pose proof (chain_Forall _ _ _ H4) as Hrest. rewrite Forall_map, Forall_forall in Hrest.
  apply Forall_cons in Hall as (Hm & Hall).
  split; [split; [exact H4|split; [exact Hall|]]|].
  - intros q c Hq Hc Ht. destruct (Hcov q c ltac:(lia) Hc Ht) as (m' & Hin & Hs).
    apply elem_of_cons in Hin as [->|Hin]; [lia|eauto].
  - intros q c Hq Hc. destruct (Re.one_of ".!?" c) eqn:Ht; [|reflexivity].
    destruct (Hcov q c ltac:(lia) Hc Ht) as (m' & Hin & Hs).
    apply elem_of_cons in Hin as [->|Hin]; [lia|].
    specialize (Hrest m' Hin). simpl in Hrest. lia.
Qed.

Lemma sentences_from_shape text ms : forall start sent a b,
  terminators_from text start ms ->
  (sent, a, b) ∈ sentences_from text ms start ->
  nonempty sent = true /\
  (forall x c, a <= x < b - 1 -> Py.chars text !! x = Some c ->
     Re.one_of ".!?" c = false) /\
  ((exists c k, Py.chars text !! (b - 1) = Some c /\ Re.one_of ".!?" c = true /\
                Py.chars sent = k ++ [c]) \/
   (b = Py.len text /\
    forall c, Py.chars text !! (b - 1) = Some c -> Re.one_of ".!?" c = false)).
Proof.
  induction ms as [|m ms IH]; intros start sent a b Hts; simpl.
  - destruct (start <? Py.len text) eqn:Hlt; [|intros H; inversion H].
    destruct (nonempty _) eqn:Hne; [|intros H; inversion H].
    intros H. apply list_elem_of_singleton in H. injection H as -> -> ->.
    destruct Hts as (_ & _ & Hcov).
    assert (Hnone : forall x c, start <= x -> Py.chars text !! x = Some c ->
                      Re.one_of ".!?" c = false).
    { intros x c Hx Hc. destruct (Re.one_of ".!?" c) eqn:Ht; [|reflexivity].
      destruct (Hcov x c Hx Hc Ht) as (m' & Hin & _). inversion Hin. }
    apply Nat.ltb_lt in Hlt.
    split; [exact Hne|]. split.
    + intros x c Hx. apply Hnone. lia.
    + right. split; [reflexivity|]. intros c. apply Hnone. lia.
  - destruct (terminators_next _ _ _ _ Hts) as (Hnext & Hbefore).
    destruct Hts as (Hch & Hall & _). simpl in Hch.
    apply Forall_cons in Hall as ((He & c & Hc & Ht) & _).
    destruct (nonempty _) eqn:Hne; [|apply IH; exact Hnext].
    intros H. apply elem_of_cons in H as [H|H]; [|eapply IH; eassumption].
    injection H as -> -> ->.
    split; [exact Hne|]. rewrite He. simpl. rewrite Nat.sub_0_r. split.
    + intros x c' Hx. apply Hbefore. lia.
    + left. rewrite (slice_snoc text start _ c) by first [lia|exact Hc].
      destruct (strip_ends_with (Py.chars (Py.slice text start (Re.m_start m))) c
                  (terminator_not_space c Ht)) as (k & Hk).
      exists c, k. auto.
Qed.

Lemma sentences_from_cover text ms x c : forall start,
  Re.chain start (Py.len text) (map Re.m_span ms) ->
  start <= x -> Py.chars text !! x = Some c -> Py.char_isspace c = false ->
  exists sent a b, (sent, a, b) ∈ sentences_from text ms start /\ a <= x < b.
Proof.
  intros start Hch Hx Hc Hs.
  assert (Hlen : x < Py.len text) by (eapply lookup_lt_Some, Hc).
  revert start Hch Hx. induction ms as [|m ms IH]; intros start Hch Hx; simpl.
  - assert (Hlt : (start <? Py.len text) = true) by (apply Nat.ltb_lt; lia).
    rewrite Hlt, (chunk_kept text start (Py.len text) x c) by first [lia|assumption].
    eexists _, _, _. split; [apply list_elem_of_singleton; reflexivity|lia].
  - simpl in Hch. destruct Hch as (H1 & H2 & H3 & H4).
    destruct (Nat.lt_ge_cases x (Re.m_end m)) as [Hin|Hout].
    + rewrite (chunk_kept text start (Re.m_end m) x c) by first [lia|assumption].
      eexists _, _, _. split; [apply elem_of_cons; left; reflexivity|lia].
    + destruct (IH (Re.m_end m) H4 Hout) as (sent & a & b & Hin & Hab).
      exists sent, a, b. split; [|exact Hab].
      destruct (nonempty _); [apply elem_of_cons; right|]; exact Hin.
Qed.

Lemma finditer_terminators text :
  terminators_from text 0 (Re.finditer TERMINATOR_RE text).
Proof.
  split; [apply (finditer_chain TERMINATOR_RE text TERMINATOR_RE_nonempty)|]. split.
  - apply Forall_forall. intros m Hm. apply terminator_found, Hm.
  - intros q c _. apply terminator_listed.
Qed.

(** X4: a sentence is the stripped text between its offsets and is never
    empty; no terminator stands before its last offset, and either it ends
    with the terminator that closes it, or it is the rest of the text
    after the last terminator. *)
Theorem sentence_shape text sent a b :
  (sent, a, b) ∈ split_sentences_with_spans text ->
  sent = Py.strip (Py.slice text a b) /\
  a < b <= Py.len text /\
  sent <> "" /\
  Py.strip sent = sent /\
  (forall x c, a <= x < b - 1 -> Py.chars text !! x = Some c ->
     Re.one_of ".!?" c = false) /\
  ((exists c, Py.chars text !! (b - 1) = Some c /\ Re.one_of ".!?" c = true /\
              Py.endswith sent (Py.of_char c) = true) \/
   (b = Py.len text /\
    forall c, Py.chars text !! (b - 1) = Some c -> Re.one_of ".!?" c = false)).
Proof.
  intros Hin.
  pose proof (sentences_from_text _ _ _ _ _ _ Hin) as Htext.
  pose proof (sentences_chain text) as Hch. apply chain_Forall in Hch.
  rewrite Forall_map, Forall_forall in Hch. specialize (Hch _ Hin). simpl in Hch.
  destruct (sentences_from_shape text _ 0 sent a b (finditer_terminators text) Hin)
    as (Hne & Hnone & Hlast).
  split; [exact Htext|]. split; [lia|]. split; [apply nonempty_neq, Hne|].
  split; [rewrite Htext; apply strip_idempotent|]. split; [exact Hnone|].
  destruct Hlast as [(c & k & Hc & Ht & Hk)|Hrest]; [left|right; exact Hrest].
  exists c. split; [exact Hc|]. split; [exact Ht|].
  unfold Py.endswith. apply bool_decide_eq_true. rewrite Hk. exists k. reflexivity.
Qed.

Lemma sentence_shape_witness :
  ("It has been  Checked?", 39, 61) ∈ split_sentences_with_spans sample_text /\
  "It has been  Checked?" = Py.strip (Py.slice sample_text 39 61) /\
  Py.strip "It has been  Checked?" = "It has been  Checked?".
Proof.
  assert (H : ("It has been  Checked?", 39, 61) ∈ split_sentences_with_spans sample_text).
  { apply list_elem_of_In. vm_compute. tauto. }
  split; [exact H|].
  destruct (sentence_shape sample_text _ 39 61 H) as (H1 & _ & _ & H4 & _).
  split; assumption.
Defined.

(** X5: every character of the text that is not white space lies in
    exactly one sentence. *)
Theorem sentences_cover text x c :
  Py.chars text !! x = Some c -> Py.char_isspace c = false ->
  exists sent a b,
    (sent, a, b) ∈ split_sentences_with_spans text /\ a <= x < b /\
    forall sent' a' b', (sent', a', b') ∈ split_sentences_with_spans text ->
      a' <= x < b' -> (sent', a', b') = (sent, a, b).
Proof.
  intros Hc Hs.
  destruct (sentences_from_cover text (Re.finditer TERMINATOR_RE text) x c 0)
    as (sent & a & b & Hin & Hab);
    [apply (finditer_chain TERMINATOR_RE text TERMINATOR_RE_nonempty)|lia|exact Hc|exact Hs|].
  exists sent, a, b. split; [exact Hin|]. split; [exact Hab|].
  intros sent' a' b' Hin' Hab'.
  assert (E : (a', b') = (a, b)).
  { apply (chain_unique 0 (Py.len text) (map span3 (split_sentences_with_spans text))
             (a', b') (a, b) x (sentences_chain text)).
    - apply list_elem_of_fmap. exists (sent', a', b'). auto.
    - apply list_elem_of_fmap. exists (sent, a, b). auto.
    - exact Hab'.
    - exact Hab. }
  injection E as -> ->.
  rewrite (sentences_from_text _ _ _ _ _ _ Hin), (sentences_from_text _ _ _ _ _ _ Hin').
  reflexivity.
Qed.
Lemma sentences_cover_witness :
  exists sent a b,
    (sent, a, b) ∈ split_sentences_with_spans sample_text /\ a <= 53 < b.
Proof.
  destruct (sentences_cover sample_text 53 "C"%char) as (sent & a & b & H1 & H2 & _);
    [vm_compute; reflexivity..|].
  eauto.
Defined.


(** ** Reading a wordlist *)

Lemma universal_newlines_no_cr l :
  Forall (fun c => Py.is_code 13 c = false) (universal_newlines l).
Proof.
  assert (H : forall n l, length l <= n ->
            Forall (fun c => Py.is_code 13 c = false) (universal_newlines l)).
  { clear l. induction n as [|n IH]; intros [|c l] Hlen; simpl in *;
      try constructor; try lia.
    destruct (Py.is_code 13 c) eqn:Hc.
    - destruct l as [|c' l]; [repeat constructor|].
      simpl in Hlen. destruct (Py.is_code 10 c'); constructor; try reflexivity;
        apply IH; simpl; lia.
    - constructor; [exact Hc|]. apply IH. lia. }
  apply (H (length l)). lia.
Qed.

(** A line is a run of characters other than [\n], closed by [\n] except
    possibly at the end of the file. *)
Lemma lines_of_shape (P : ascii -> Prop) l : forall cur,
  Forall P cur -> Forall P l ->
  Forall (fun c => Py.is_code 10 c = false) cur ->
  Forall (fun line => exists body,
            Forall P body /\ Forall (fun c => Py.is_code 10 c = false) body /\
            (Py.chars line = body \/
             exists c, Py.char_isspace c = true /\ Py.chars line = body ++ [c]))
         (lines_of cur l).
Proof.
  induction l as [|c l IH]; intros cur Hcur Hl Hno; simpl.
  - destruct cur as [|c0 cur0] eqn:E; [constructor|]. rewrite <- E in *.
    repeat constructor. exists (rev cur). rewrite chars_str.
    split; [apply Forall_rev, Hcur|]. split; [apply Forall_rev, Hno|]. now left.
  - apply Forall_cons in Hl as (Hc & Hl).
    destruct (Py.is_code 10 c) eqn:E.
    + constructor; [|apply IH; (exact Hl || constructor)].
      exists (rev cur). rewrite chars_str. simpl.
      split; [apply Forall_rev, Hcur|]. split; [apply Forall_rev, Hno|].
      right. exists c. split; [|reflexivity].
      revert E. clear. destruct c as [[] [] [] [] [] [] [] []]; vm_compute; congruence.
    + apply IH; [constructor; assumption|exact Hl|constructor; assumption].
Qed.

Lemma lstrip_app_space l c :
  Py.char_isspace c = true ->
  Py.lstrip_chars (l ++ [c]) =
  match Py.lstrip_chars l with [] => [] | k => k ++ [c] end.
Proof.
  intros Hc. induction l as [|a l IH]; simpl; [now rewrite Hc|].
  destruct (Py.char_isspace a); [exact IH|reflexivity].
Qed.

Lemma rstrip_app_space l c :
  Py.char_isspace c = true -> Py.rstrip_chars (l ++ [c]) = Py.rstrip_chars l.
Proof.
  intros Hc. unfold Py.rstrip_chars. rewrite rev_app_distr. simpl. now rewrite Hc.
Qed.

(** White space at the end of a line does not show in the stripped line. *)
Lemma strip_trailing_space l c :
  Py.char_isspace c = true -> Py.strip (Py.str (l ++ [c])) = Py.strip (Py.str l).
Proof.
  intros Hc. unfold Py.strip. rewrite !chars_str, (lstrip_app_space l c Hc). f_equal.
  destruct (Py.lstrip_chars l) as [|a k] eqn:E; [reflexivity|].
  now apply rstrip_app_space.
Qed.

Lemma strip_line w : Py.strip (w +:+ nl) = Py.strip w.
Proof.
  transitivity (Py.strip (Py.str (Py.chars w ++ [newline]))).
  - f_equal. apply chars_inj. rewrite chars_app, chars_str. reflexivity.
  - rewrite (strip_trailing_space (Py.chars w) newline eq_refl), str_chars. reflexivity.
Qed.

Lemma tight_not_blank w : w <> "" -> Py.strip w = w -> not_blank w.
Proof.
  intros Hne Hs. destruct (strip_tight w) as [H _]. rewrite Hs in H.
  unfold not_blank. destruct (Py.chars w) as [|c k] eqn:E.
  - exfalso. apply Hne, chars_inj. rewrite E. reflexivity.
  - now left.
Qed.

Lemma file_lines_shape content :
  Forall (fun line => exists body,
            single_line (Py.str body) /\
            (Py.chars line = body \/
             exists c, Py.char_isspace c = true /\ Py.chars line = body ++ [c]))
         (file_lines content).
Proof.
  unfold file_lines.
  pose proof (lines_of_shape (fun c => Py.is_code 13 c = false)
                (universal_newlines (Py.chars content)) []
                (Forall_nil_2 _) (universal_newlines_no_cr _) (Forall_nil_2 _)) as H.
  eapply Forall_impl; [exact H|]. simpl.
  intros line (body & H13 & H10 & Hline). exists body. split; [|exact Hline].
  unfold single_line. rewrite chars_str. apply Forall_forall. intros c Hc.
  rewrite Forall_forall in H13, H10. auto.
Qed.

Lemma loaded_word (fs : files) path words w :
  load_wordlist fs path = Ok words -> w ∈ words ->
  exists content line,
    fs !! path = Some content /\ line ∈ file_lines content /\
    nonempty (Py.strip line) = true /\ w = Py.strip line.
Proof.
  unfold load_wordlist. destruct (fs !! path) as [content|]; [|discriminate].
  intros [= <-] Hw. apply elem_of_list_to_set, list_elem_of_fmap in Hw as (line & -> & Hl).
  apply list_elem_of_filter in Hl as (Hne & Hl).
  exists content, line. repeat split; try assumption.
  now apply Is_true_true.
Qed.

Lemma loaded_word_ok (fs : files) path words w :
  load_wordlist fs path = Ok words -> w ∈ words ->
  w <> "" /\ Py.strip w = w /\ single_line w.
Proof.
  intros Hload Hw.
  destruct (loaded_word fs path words w Hload Hw) as (content & line & _ & Hl & Hne & ->).
  split; [apply nonempty_neq, Hne|]. split; [apply strip_idempotent|].
  pose proof (file_lines_shape content) as Hall. rewrite Forall_forall in Hall.
  destruct (Hall line Hl) as (body & Hbody & [E|(c & Hc & E)]).
  - apply (strip_chars _ line). rewrite E. unfold single_line in Hbody.
    now rewrite chars_str in Hbody.
  - rewrite <- (str_chars line), E, (strip_trailing_space body c Hc).
    apply (strip_chars _ (Py.str body)). exact Hbody.
Qed.

(** X6: every word [load_wordlist] returns is non-empty, has no white space
    at either end and no line break inside. *)
Theorem loaded_words_trimmed (fs : files) path words w :
  load_wordlist fs path = Ok words -> w ∈ words ->
  w <> "" /\ Py.strip w = w /\ single_line w.
Proof. apply loaded_word_ok. Qed.

Lemma loaded_words_trimmed_witness :
  "apple" <> "" /\ Py.strip "apple" = "apple" /\ single_line "apple".
Proof.
  apply (loaded_words_trimmed sample_stale_files "approved.txt"
           (list_to_set ["zebra"; "apple"]) "apple").
  - vm_compute. reflexivity.
  - vm_compute. reflexivity.
Defined.

Lemma load_written path (words : gset string) (fs : files) :
  (forall w, w ∈ words -> w <> "" /\ Py.strip w = w /\ single_line w) ->
  load_wordlist (with_wordlist path words fs) path = Ok words.
Proof.
  intros Hall. unfold load_wordlist, with_wordlist. rewrite lookup_insert_eq.
  destruct (wordlist_file_format words) as (E & Hkeep).
  { intros w Hw. destruct (Hall w Hw) as (H1 & H2 & H3).
    split; [exact H3|apply tight_not_blank; assumption]. }
  f_equal. rewrite filter_all by (eapply Forall_impl; [exact Hkeep|]; simpl;
    intros line H; apply Is_true_true, H).
  rewrite E, map_map. apply set_eq. intros w.
  rewrite elem_of_list_to_set, list_elem_of_fmap. split.
  - intros (v & -> & Hv). apply sorted_elem in Hv. rewrite strip_line.
    destruct (Hall v Hv) as (_ & -> & _). exact Hv.
  - intros Hw. exists w. split; [|apply sorted_elem, Hw].
    rewrite strip_line. destruct (Hall w Hw) as (_ & -> & _). reflexivity.
Qed.

(** X7: writing a set of words to a wordlist file and reading the file
    back gives the same set exactly when the file can be written and each
    word is non-empty, has no white space at either end and no line break
    inside. *)
Theorem wordlist_round_trip writable path (words : gset string) (fs : files) :
  (fs' ← write_wordlist writable path words fs; load_wordlist fs' path) = Ok words <->
  writable path = true /\
  forall w, w ∈ words -> w <> "" /\ Py.strip w = w /\ single_line w.
Proof.
  unfold write_wordlist. destruct (writable path); simpl.
  - split.
    + intros Hload. split; [reflexivity|]. intros w Hw.
      eapply loaded_word_ok; eassumption.
    + intros [_ Hall]. apply load_written, Hall.
  - split; [discriminate|]. intros [H _]. discriminate H.
Qed.


(** ** What [ensure_wordlists] does to the file system *)

Lemma written_other ap fp cp (approved forbidden allcaps : gset string) (fs : files) path :
  path ∉ [ap; fp; cp] ->
  with_wordlist cp allcaps
    (with_wordlist fp forbidden (with_wordlist ap approved fs)) !! path
  = fs !! path.
Proof.
  intros Hout. unfold with_wordlist.
  rewrite !lookup_insert_ne; [reflexivity|..];
    intros ->; apply Hout, list_elem_of_In; simpl; auto.
Qed.

Lemma ensure_wordlists_cases extract writable (fs : files) ap fp cp pdf :
  (path_exists fs ap && path_exists fs fp && path_exists fs cp = true /\
   ensure_wordlists extract writable fs ap fp cp pdf = Ok fs) \/
  (path_exists fs ap && path_exists fs fp && path_exists fs cp = false /\
   ((path_exists fs pdf = false /\
     ensure_wordlists extract writable fs ap fp cp pdf = Err (FileNotFoundError pdf)) \/
    (path_exists fs pdf = true /\ exists e, extract pdf = Err e /\
     ensure_wordlists extract writable fs ap fp cp pdf = Err e) \/
    (path_exists fs pdf = true /\ exists doc approved forbidden,
       extract pdf = Ok doc /\ build_lexicons doc = Ok (approved, forbidden) /\
       ensure_wordlists extract writable fs ap fp cp pdf
       = if writable ap
         then if writable fp
              then if writable cp
                   then Ok (with_wordlist cp (all_caps_words doc)
                              (with_wordlist fp forbidden (with_wordlist ap approved fs)))
                   else Err (OSError cp)
              else Err (OSError fp)
         else Err (OSError ap)))).
Proof.
  destruct (path_exists fs ap && path_exists fs fp && path_exists fs cp) eqn:Hall.
  { left. split; [reflexivity|]. unfold ensure_wordlists. rewrite Hall. reflexivity. }
  right. split; [reflexivity|].
  destruct (path_exists fs pdf) eqn:Hpdf.
  - right. destruct (extract pdf) as [doc|e] eqn:Hx.
    + right. split; [reflexivity|].
      destruct (ensure_wordlists_writes extract writable fs ap fp cp pdf doc Hx Hpdf Hall)
        as (approved & forbidden & Hb & _ & E).
      exists doc, approved, forbidden. split; [reflexivity|]. split; [exact Hb|].
      rewrite E. unfold write_wordlist.
      destruct (writable ap); [|reflexivity]. simpl.
      destruct (writable fp); [|reflexivity]. simpl.
      destruct (writable cp); reflexivity.
    + left. split; [reflexivity|]. exists e. split; [reflexivity|].
      unfold ensure_wordlists, build_lexicons_from_pdf. rewrite Hall, Hpdf, Hx. reflexivity.
  - left. split; [reflexivity|]. unfold ensure_wordlists. rewrite Hall, Hpdf. reflexivity.
Qed.

(** X8: when [ensure_wordlists] returns, the three wordlist files exist and
    every other file is as it was; when the three existed before, nothing
    at all has changed, whether or not the PDF can be found or read. *)
Theorem ensure_wordlists_frame extract writable (fs fs' : files) ap fp cp pdf :
  ensure_wordlists extract writable fs ap fp cp pdf = Ok fs' ->
  (forall p, p ∈ [ap; fp; cp] -> path_exists fs' p = true) /\
  (forall p, p ∉ [ap; fp; cp] -> fs' !! p = fs !! p) /\
  (path_exists fs ap && path_exists fs fp && path_exists fs cp = true -> fs' = fs).
Proof.
  intros H.
  destruct (ensure_wordlists_cases extract writable fs ap fp cp pdf)
    as [(Hall & E)|(Hall & [(_ & E)|[(_ & e & _ & E)|(_ & doc & a & f & _ & _ & E)]])];
    rewrite E in H; try discriminate.
  - injection H as <-. split; [|split; [reflexivity|reflexivity]].
    intros p Hp. apply andb_prop in Hall as [Hall H3]. apply andb_prop in Hall as [H1 H2].
    apply list_elem_of_In in Hp. simpl in Hp.
    destruct Hp as [<-|[<-|[<-|[]]]]; assumption.
  - destruct (writable ap); [|discriminate]. destruct (writable fp); [|discriminate].
    destruct (writable cp); [|discriminate]. injection H as <-.
    split; [|split].
    + intros p Hp. apply written_exists, Hp.
    + intros p Hp. apply written_other, Hp.
    + congruence.
Qed.

Lemma ensure_wordlists_frame_witness :
  exists fs' : files,
    ensure_wordlists sample_extract sample_writable sample_stale_files
      "approved.txt" "forbidden.txt" "caps.txt" "STE100.pdf" = Ok fs' /\
    path_exists fs' "forbidden.txt" = true /\
    fs' !! "STE100.pdf" = Some "%PDF-1.7".
Proof.
  assert (E : ensure_wordlists sample_extract sample_writable sample_stale_files
                "approved.txt" "forbidden.txt" "caps.txt" "STE100.pdf"
              = Ok (with_wordlist "caps.txt" (all_caps_words sample_document)
                      (with_wordlist "forbidden.txt" (list_to_set ["stop"])
                         (with_wordlist "approved.txt"
                            (list_to_set ["BOX"; "BOXES"; "SAFE"; "STOP"; "STOPPED";
                                          "STOPPING"; "STOPS"])
                            sample_stale_files))))
    by (vm_compute; reflexivity).
  eexists. split; [exact E|].
  destruct (ensure_wordlists_frame sample_extract sample_writable sample_stale_files _
              "approved.txt" "forbidden.txt" "caps.txt" "STE100.pdf" E) as (H1 & H2 & _).
  split.
  - apply H1, list_elem_of_In. simpl. tauto.
  - rewrite H2; [vm_compute; reflexivity|].
    intros Hin. apply list_elem_of_In in Hin. simpl in Hin.
    destruct Hin as [Hin|[Hin|[Hin|[]]]]; discriminate.
Defined.




(** ** The built words come back from their files *)

Lemma trimmed_ends w :
  trimmed w <->
  (exists c k, Py.chars w = c :: k /\ Py.char_isspace c = false) /\
  (exists d k, rev (Py.chars w) = d :: k /\ Py.char_isspace d = false).
Proof.
  split.
  - intros [Hne Hs]. destruct (strip_tight w) as [H1 H2]. rewrite Hs in H1, H2.
    destruct (Py.chars w) as [|c k] eqn:E.
    { exfalso. apply Hne, chars_inj. rewrite E. reflexivity. }
    split; [eauto|].
    destruct (rev (c :: k)) as [|d k'] eqn:E'; [|eauto].
    apply (f_equal (@length ascii)) in E'. rewrite length_rev in E'. discriminate.
  - intros [(c & k & E & Hc) (d & k' & E' & Hd)]. split.
    + intros ->. discriminate.
    + apply tight_strip; [rewrite E|rewrite E']; assumption.
Qed.

Lemma form_trimmed b x y :
  trimmed b ->
  (forall c k, Py.chars x = c :: k -> exists k', Py.chars b = c :: k') ->
  y ∈ SUFFIXES -> trimmed (x +:+ y).
Proof.
  intros Hb Hx Hy. apply trimmed_ends in Hb as [(c & k & E & Hc) _].
  apply trimmed_ends. rewrite chars_app, rev_app_distr.
  apply list_elem_of_In in Hy. simpl in Hy.
  assert (Hhead : forall a l, Py.chars y = a :: l -> Py.char_isspace a = false ->
            exists c0 k0, Py.chars x ++ Py.chars y = c0 :: k0 /\ Py.char_isspace c0 = false).
  { intros a l Ey Ha. destruct (Py.chars x) as [|c0 k0] eqn:Ex.
    - rewrite Ey. simpl. eauto.
    - destruct (Hx c0 k0 eq_refl) as [k' E0]. rewrite E in E0. injection E0 as <- _.
      simpl. eauto. }
  destruct Hy as [<-|[<-|[<-|[<-|[<-|[<-|[<-|[]]]]]]]];
    (split; [eapply Hhead; reflexivity|simpl; eexists _, _; split; reflexivity]).
Qed.

Lemma head_self b c k : Py.chars b = c :: k -> exists k', Py.chars b = c :: k'.
Proof. eauto. Qed.

Lemma head_drop_last n b c k :
  Py.chars (Py.drop_last n b) = c :: k -> exists k', Py.chars b = c :: k'.
Proof.
  unfold Py.drop_last. rewrite chars_str.
  destruct (Py.chars b) as [|a l]; [now rewrite take_nil|].
  destruct (Py.len _ - n); simpl; [discriminate|]. intros [= -> _]. eauto.
Qed.

Lemma head_app_char b c0 :
  trimmed b ->
  forall c k, Py.chars (b +:+ Py.of_char c0) = c :: k -> exists k', Py.chars b = c :: k'.
Proof.
  intros Hb c k. apply trimmed_ends in Hb as [(a & l & E & _) _].
  rewrite chars_app, E. simpl. intros [= -> _]. eauto.
Qed.

Ltac is_trimmed b Hb :=
  apply (form_trimmed b);
  [ exact Hb
  | first [ solve [apply head_drop_last]
          | solve [apply head_app_char; exact Hb]
          | solve [apply head_self] ]
  | apply list_elem_of_In; vm_compute; tauto ].

Ltac trimmed_form b Hb Hw :=
  rewrite !elem_of_union, !elem_of_singleton in Hw;
  repeat (destruct Hw as [Hw| ->]; [|is_trimmed b Hb]);
  rewrite Hw; exact Hb.

Ltac trimmed_verb_forms b cy Hb :=
  destruct (_ends_with_any _ _); [|destruct cy];
  (destruct (Py.endswith (Py.lower b) "e");
   [destruct (Py.endswith (Py.lower b) "ie"); [|destruct (Py.endswith _ "ee")]
   |destruct (Py.endswith (Py.lower b) "ie")]);
  simpl; intros [= <-] w Hw; trimmed_form b Hb Hw.

Lemma verb_inflections_trimmed b forms :
  trimmed b -> _verb_inflections b = Ok forms -> forall w, w ∈ forms -> trimmed w.
Proof.
  intros Hb. unfold _verb_inflections. cbv zeta.
  destruct (consonant_y_ok b (Py.lower b)) as [cy Hcy].
  destruct (double_final_ok (Py.lower b)) as (d & Hd & Hlen).
  rewrite Hcy, !Hd. unfold mbind, result_bind.
  destruct d.
  - destruct (getitem_neg_ok b 1) as (c & -> & Hc).
    { specialize (Hlen eq_refl). rewrite len_lower in Hlen. lia. }
    trimmed_verb_forms b cy Hb.
  - trimmed_verb_forms b cy Hb.
Qed.

Lemma plural_forms_trimmed b forms :
  trimmed b -> _plural_forms b = Ok forms -> forall w, w ∈ forms -> trimmed w.
Proof.
  intros Hb. unfold _plural_forms. cbv zeta.
  destruct (consonant_y_ok b (Py.lower b)) as [cy ->]. unfold mbind, result_bind.
  destruct (_ends_with_any _ _); [|destruct cy];
    intros [= <-] w Hw; trimmed_form b Hb Hw.
Qed.

Lemma for_each_keeps {A S} (P : S -> Prop) (body : S -> A -> result S) xs :
  (forall st x st', P st -> body st x = Ok st' -> P st') ->
  forall st st', P st -> for_each body xs st = Ok st' -> P st'.
Proof.
  intros Hbody. induction xs as [|x xs IH]; intros st st' Hst; simpl.
  - now intros [= <-].
  - destruct (body st x) as [st1|] eqn:E; [|discriminate]. simpl.
    apply IH. eapply Hbody; eassumption.
Qed.

Lemma add_headword_trimmed hw pos acc acc' :
  Py.strip hw = hw -> lexicons_trimmed acc ->
  add_headword hw pos acc = Ok acc' -> lexicons_trimmed acc'.
Proof.
  intros Hs Hacc. destruct acc as [approved forbidden]. unfold add_headword.
  destruct (decide (hw = "")) as [->|Hne].
  { vm_compute negb. now intros [= <-]. }
  assert (Hhw : trimmed hw) by (split; assumption).
  assert (Hforms : forall forms, (forall w, w ∈ forms -> trimmed w) ->
            lexicons_trimmed (approved ∪ forms, forbidden)).
  { intros forms Hf w Hw. simpl in Hw.
    apply elem_of_union in Hw as [Hw|Hw]; [|apply Hacc; simpl; apply elem_of_union; auto].
    apply elem_of_union in Hw as [Hw|Hw]; [apply Hacc; simpl; apply elem_of_union; auto|auto]. }
  destruct (negb _); [now intros [= <-]|].
  destruct (Py.upper_is_self hw && negb (Py.lower_is_self hw)).
  - destruct (char_in _ pos); [|destruct (char_in _ pos)].
    + destruct (_verb_inflections hw) as [forms|] eqn:Hv; [|discriminate].
      simpl. intros [= <-]. apply Hforms. eapply verb_inflections_trimmed; eassumption.
    + destruct (_plural_forms hw) as [forms|] eqn:Hv; [|discriminate].
      simpl. intros [= <-]. apply Hforms. eapply plural_forms_trimmed; eassumption.
    + intros [= <-]. apply Hforms. intros w Hw. now apply elem_of_singleton in Hw as ->.
  - destruct (Py.lower_is_self hw && negb (Py.upper_is_self hw)); [|now intros [= <-]].
    intros [= <-] w Hw. simpl in Hw.
    apply elem_of_union in Hw as [Hw|Hw]; [apply Hacc; simpl; apply elem_of_union; auto|].
    apply elem_of_union in Hw as [Hw|Hw]; [apply Hacc; simpl; apply elem_of_union; auto|].
    now apply elem_of_singleton in Hw as ->.
Qed.

Lemma build_lexicons_trimmed full acc :
  build_lexicons full = Ok acc -> lexicons_trimmed acc.
Proof.
  unfold build_lexicons. apply (for_each_keeps lexicons_trimmed).
  - intros st sec st' Hst. unfold section_step.
    apply (for_each_keeps lexicons_trimmed); [|exact Hst].
    clear. intros st m st' Hst. unfold headword_step, group_strip.
    destruct (Re.group sec m 1) as [g1|]; [|discriminate].
    destruct (Re.group sec m 2) as [g2|]; [|discriminate]. simpl.
    apply add_headword_trimmed; [apply strip_idempotent|exact Hst].
  - intros w Hw. simpl in Hw.
    apply elem_of_union in Hw as [Hw|Hw]; apply elem_of_empty in Hw as [].
Qed.

Lemma all_caps_trimmed text w : w ∈ all_caps_words text -> trimmed w.
Proof.
  unfold all_caps_words.
  assert (Hall : Forall trimmed (Re.findall ALLCAPS_RE text)).
  { unfold Re.findall. rewrite Forall_map. apply Forall_forall. intros m Hm.
    pose proof (allcaps_match _ _ _ _ (finditer_matches _ _ _ Hm)) as Hcl.
    pose proof (finditer_span ALLCAPS_RE text m ALLCAPS_RE_nonempty Hm) as Hsp.
    assert (Hc : Forall (fun c => Py.char_isspace c = false)
                   (Py.chars (Re.matched text m))).
    { apply slice_chars. intros x Hx. destruct (Hcl x Hx) as (ch & H1 & H2).
      exists ch. split; [exact H1|]. apply caps_char_facts in H2. tauto. }
    assert (Hlen : Py.len (Re.matched text m) = Re.m_end m - Re.m_start m)
      by (apply len_slice; lia).
    apply trimmed_ends. unfold Py.len in Hlen. split.
    - destruct (Py.chars (Re.matched text m)) as [|c k]; [simpl in Hlen; lia|].
      apply Forall_cons in Hc as [Hc _]. eauto.
    - apply Forall_rev in Hc. rewrite <- length_rev in Hlen.
      destruct (rev (Py.chars (Re.matched text m))) as [|c k]; [simpl in Hlen; lia|].
      apply Forall_cons in Hc as [Hc _]. eauto. }
  assert (Hgen : forall (acc : gset string),
    (forall v, v ∈ acc -> trimmed v) ->
    w ∈ fold_left
          (fun words m =>
             if Py.isdigit m then words
             else if bool_decide (m ∈ HEADINGS) then words
             else words ∪ {[ m ]})
          (Re.findall ALLCAPS_RE text) acc -> trimmed w).
  { induction Hall as [|m l Hm _ IH]; intros acc Hacc; simpl; [apply Hacc|].
    apply IH. destruct (Py.isdigit m); [exact Hacc|].
    destruct (bool_decide (m ∈ HEADINGS)); [exact Hacc|].
    intros v Hv. apply elem_of_union in Hv as [Hv|Hv]; [apply Hacc, Hv|].
    apply elem_of_singleton in Hv as ->. exact Hm. }
  apply Hgen. intros v Hv. apply elem_of_empty in Hv as [].
Qed.
Lemma load_wordlist_lookup (fs1 fs2 : files) path :
  fs1 !! path = fs2 !! path -> load_wordlist fs1 path = load_wordlist fs2 path.
Proof. unfold load_wordlist. now intros ->. Qed.

(** X10: after [ensure_wordlists] has built the three lists into three
    different files, [load_wordlist] reads back from each file exactly the
    set that was built for it, and [lint_text] checks against the
    lower-cased approved and all-caps words and the lower-cased forbidden
    words of the build. *)
Theorem built_lists_load extract writable (fs : files) ap fp cp pdf doc :
  extract pdf = Ok doc ->
  path_exists fs pdf = true ->
  path_exists fs ap && path_exists fs fp && path_exists fs cp = false ->
  NoDup [ap; fp; cp] ->
  (forall p, p ∈ [ap; fp; cp] -> writable p = true) ->
  exists approved forbidden (fs' : files),
    build_lexicons_from_pdf extract pdf = Ok (approved, forbidden) /\
    ensure_wordlists extract writable fs ap fp cp pdf = Ok fs' /\
    load_wordlist fs' ap = Ok approved /\
    load_wordlist fs' fp = Ok forbidden /\
    load_wordlist fs' cp = Ok (all_caps_words doc) /\
    forall text max,
      lint_text fs' text ap fp cp max
      = Ok (lint_issues text (lower_all approved ∪ lower_all (all_caps_words doc))
              (lower_all forbidden) max).
Proof.
  intros Hx Hpdf Hneed Hnd Hwr.
  destruct (ensure_wordlists_builds extract writable fs ap fp cp pdf doc Hx Hpdf Hneed Hwr)
    as (approved & forbidden & Hb & [Ha Hf] & E).
  pose proof (build_lexicons_trimmed doc _ Hb) as Htr. simpl in Ha, Hf.
  apply NoDup_cons in Hnd as [Hap Hnd]. apply NoDup_cons in Hnd as [Hfp _].
  assert (Hapfp : ap <> fp) by (intros ->; apply Hap; left).
  assert (Hapcp : ap <> cp) by (intros ->; apply Hap; right; left).
  assert (Hfpcp : fp <> cp) by (intros ->; apply Hfp; left).
  set (fs' := with_wordlist cp (all_caps_words doc)
                (with_wordlist fp forbidden (with_wordlist ap approved fs))) in *.
  assert (La : load_wordlist fs' ap = Ok approved).
  { rewrite (load_wordlist_lookup fs' (with_wordlist ap approved fs) ap).
    - apply load_written. intros w Hw. destruct (Ha w Hw) as [_ [Hsl _]].
      destruct (Htr w) as [H1 H2]; [simpl; apply elem_of_union; auto|auto].
    - unfold fs', with_wordlist.
      rewrite lookup_insert_ne by congruence. rewrite lookup_insert_ne by congruence.
      reflexivity. }
  assert (Lf : load_wordlist fs' fp = Ok forbidden).
  { rewrite (load_wordlist_lookup fs'
               (with_wordlist fp forbidden (with_wordlist ap approved fs)) fp).
    - apply load_written. intros w Hw. destruct (Hf w Hw) as [_ [Hsl _]].
      destruct (Htr w) as [H1 H2]; [simpl; apply elem_of_union; auto|auto].
    - unfold fs', with_wordlist. rewrite lookup_insert_ne by congruence. reflexivity. }
  assert (Lc : load_wordlist fs' cp = Ok (all_caps_words doc)).
  { apply load_written. intros w Hw. destruct (all_caps_listable doc w Hw) as [Hsl _].
    destruct (all_caps_trimmed doc w Hw) as [H1 H2]. auto. }
  exists approved, forbidden, fs'.
  rewrite (build_lexicons_from_pdf_text extract pdf doc Hx).
  repeat (split; [assumption|]).
  intros text max. unfold lint_text, load_approved, load_forbidden.
  rewrite La, Lf, Lc. unfold fs'.
  rewrite !written_exists by (apply list_elem_of_In; simpl; auto).
  reflexivity.
Qed.

Lemma built_lists_load_witness :
  exists approved forbidden (fs' : files),
    ensure_wordlists sample_extract sample_writable sample_stale_files
      "approved.txt" "forbidden.txt" "caps.txt" "STE100.pdf" = Ok fs' /\
    load_wordlist fs' "approved.txt" = Ok approved /\
    load_wordlist fs' "forbidden.txt" = Ok forbidden /\
    "STOPPING" ∈ approved.
Proof.
  destruct (built_lists_load sample_extract sample_writable sample_stale_files
              "approved.txt" "forbidden.txt" "caps.txt" "STE100.pdf" sample_document)
    as (approved & forbidden & fs' & Hb & He & La & Lf & _);
    [reflexivity|vm_compute; reflexivity|vm_compute; reflexivity| | |].
  - repeat constructor; intros H; apply list_elem_of_In in H; simpl in H;
      repeat (destruct H as [H|H]; [discriminate|]); exact H.
  - intros p Hp. apply list_elem_of_In in Hp. simpl in Hp.
    destruct Hp as [<-|[<-|[<-|[]]]]; reflexivity.
  - exists approved, forbidden, fs'. repeat (split; [assumption|]).
    assert (E : build_lexicons_from_pdf sample_extract "STE100.pdf"
                = Ok (list_to_set ["STOP"; "STOPS"; "STOPPED"; "STOPPING"; "BOX"; "BOXES";
                                   "SAFE"], list_to_set ["stop"]))
      by (vm_compute; reflexivity).
    rewrite E in Hb. injection Hb as <- _. vm_compute. reflexivity.
Defined.


(** ** The all-caps sweep *)

(** A match of [ALLCAPS_RE] starts and ends at a word boundary, begins with
    a capital letter and takes three characters at least. *)
Lemma allcaps_match_shape s i j c :
  Re.matches s ALLCAPS_RE i [] j c ->
  i + 3 <= j /\ Re.at_boundary s i = true /\ Re.at_boundary s j = true /\
  exists a, s !! i = Some a /\ Py.between 65 90 a = true.
Proof.
  cbv [ALLCAPS_RE Re.seqs foldr]. intros H.
  repeat match goal with
         | H : Re.matches _ (Re.Seq _ _) _ _ _ _ |- _ => inversion H; subst; clear H
         | H : Re.matches _ (Re.Chr _) _ _ _ _ |- _ => inversion H; subst; clear H
         | H : Re.matches _ (Re.Rep _ _) _ _ _ _ |- _ => inversion H; subst; clear H
         | H : Re.matches _ Re.Bnd _ _ _ _ |- _ => inversion H; subst; clear H
         | H : Re.matches _ Re.Eps _ _ _ _ |- _ => inversion H; subst; clear H
         end.
  repeat split; try assumption; [lia|eauto].
Qed.

Lemma capital_not_digit c : Py.between 65 90 c = true -> Py.char_isdigit c = false.
Proof. destruct c as [[] [] [] [] [] [] [] []]; vm_compute; congruence. Qed.

Lemma findall_allcaps_shape text w :
  w ∈ Re.findall ALLCAPS_RE text ->
  exists a b,
    w = Py.slice text a b /\ a + 3 <= b <= Py.len text /\
    Re.at_boundary (Py.chars text) a = true /\ Re.at_boundary (Py.chars text) b = true /\
    (exists c, Py.chars text !! a = Some c /\ Py.between 65 90 c = true) /\
    Forall (fun c => caps_char c = true) (Py.chars w).
Proof.
  unfold Re.findall. intros Hw. apply list_elem_of_fmap in Hw as (m & -> & Hm).
  pose proof (finditer_matches _ _ _ Hm) as HM.
  destruct (allcaps_match_shape _ _ _ _ HM) as (Hlen & Hb1 & Hb2 & Hc).
  pose proof (finditer_span ALLCAPS_RE text m ALLCAPS_RE_nonempty Hm) as Hsp.
  exists (Re.m_start m), (Re.m_end m). repeat split; try assumption; try lia.
  apply slice_chars, (allcaps_match _ _ _ _ HM).
Qed.

Lemma allcaps_not_digit text w : w ∈ Re.findall ALLCAPS_RE text -> Py.isdigit w = false.
Proof.
  intros Hw. destruct (findall_allcaps_shape text w Hw)
    as (a & b & -> & Hab & _ & _ & (c & Hc & Hcap) & _).
  unfold Py.isdigit, Py.slice. rewrite chars_str.
  destruct (drop a (Py.chars text)) as [|c' l] eqn:E.
  { apply (f_equal (@length ascii)) in E. rewrite length_drop in E.
    unfold Py.len in Hab. simpl in E. lia. }
  assert (c' = c) as ->.
  { pose proof (lookup_drop (Py.chars text) a 0) as H0.
    rewrite E, Nat.add_0_r, Hc in H0. simpl in H0. congruence. }
  destruct (b - a) as [|n] eqn:En; [lia|]. simpl.
  now rewrite (capital_not_digit c Hcap).
Qed.

Lemma all_caps_fold (l : list string) w : forall acc : gset string,
  w ∈ fold_left
        (fun (words : gset string) m =>
           if Py.isdigit m then words
           else if bool_decide (m ∈ HEADINGS) then words
           else words ∪ {[ m ]}) l acc <->
  w ∈ acc \/ (w ∈ l /\ Py.isdigit w = false /\ w ∉ HEADINGS).
Proof.
  induction l as [|m l IH]; intros acc; simpl.
  - split; [auto|]. intros [H|[H _]]; [exact H|inversion H].
  - rewrite IH. rewrite elem_of_cons.
    destruct (Py.isdigit m) eqn:Hd.
    { split; [tauto|]. intros [H|[[->|H] [H1 H2]]]; [tauto|congruence|tauto]. }
    destruct (bool_decide (m ∈ HEADINGS)) eqn:Hh.
    { apply bool_decide_eq_true_1 in Hh.
      split; [tauto|]. intros [H|[[->|H] [H1 H2]]]; [tauto|contradiction|tauto]. }
    apply bool_decide_eq_false_1 in Hh. rewrite elem_of_union, elem_of_singleton.
    split.
    + intros [[H| ->]|H]; [tauto| |tauto]. right. auto.
    + intros [H|[[->|H] [H1 H2]]]; tauto.
Qed.

(** X12: the all-caps list holds exactly the matches of the all-caps
    pattern that are not among the headings; the test for a number never
    turns a match away, for a match begins with a capital letter. *)
Theorem all_caps_words_spec text w :
  w ∈ all_caps_words text <-> w ∈ Re.findall ALLCAPS_RE text /\ w ∉ HEADINGS.
Proof.
  unfold all_caps_words. rewrite all_caps_fold, elem_of_empty. split.
  - intros [[]|(H1 & _ & H3)]. auto.
  - intros [H1 H2]. right. split; [exact H1|]. split; [|exact H2].
    eapply allcaps_not_digit, H1.
Qed.

(** X13: a word of the all-caps list stands in the text between two word
    boundaries, is three characters long at least, begins with a capital
    letter [A-Z] and holds capitals, digits and hyphens only. *)
Theorem all_caps_word_shape text w :
  w ∈ all_caps_words text ->
  exists a b,
    w = Py.slice text a b /\ a + 3 <= b <= Py.len text /\
    Re.at_boundary (Py.chars text) a = true /\ Re.at_boundary (Py.chars text) b = true /\
    (exists c, Py.chars text !! a = Some c /\ Py.between 65 90 c = true) /\
    Forall (fun c => caps_char c = true) (Py.chars w).
Proof.
  unfold all_caps_words. rewrite all_caps_fold, elem_of_empty.
  intros [[]|(H1 & _ & _)]. apply findall_allcaps_shape, H1.
Qed.

Lemma all_caps_word_shape_witness :
  exists a b,
    "ASD-STE100" = Py.slice sample_document a b /\ a + 3 <= b <= Py.len sample_document.
Proof.
  destruct (all_caps_word_shape sample_document "ASD-STE100")
    as (a & b & H1 & H2 & _); [vm_compute; reflexivity|eauto].
Defined.


(** ** The passive-voice pattern *)

Ltac spell :=
  let k := fresh "k" in
  let c := fresh "c" in
  let Hc := fresh "Hc" in
  intros k c Hc;
  repeat (destruct k as [|k]; [simpl in Hc; injection Hc as <-;
    rewrite ?Nat.add_succ_r, ?Nat.add_0_r; eexists; split;
      [eassumption|apply Ascii.eqb_eq; assumption]|]);
  simpl in Hc; discriminate Hc.

(** A match of [PASSIVE_RE]: one of the auxiliaries, then white space and
    nothing else up to [w], then word characters and nothing else up to the
    [ed] the match ends in; word boundaries at both ends. *)
Lemma passive_match s i j c :
  Re.matches s PASSIVE_RE i [] j c ->
  exists aux w,
    aux ∈ AUXILIARIES /\ spelled s i aux /\
    i + Py.len aux < w /\
    (forall x, i + Py.len aux <= x < w ->
       exists sp, s !! x = Some sp /\ Py.char_isspace sp = true) /\
    w + 3 <= j /\
    (forall x, w <= x < j - 2 ->
       exists ch, s !! x = Some ch /\ Re.word_char ch = true) /\
    spelled s (j - 2) "ed" /\
    Re.at_boundary s i = true /\ Re.at_boundary s j = true.
Proof.
  cbv [PASSIVE_RE Re.seqs Re.alts Re.word_i foldr map Py.chars list_ascii_of_string].
  intros H.
  repeat match goal with
         | H : Re.matches _ (Re.Seq _ _) _ _ _ _ |- _ => inversion H; subst; clear H
         | H : Re.matches _ (Re.Alt _ _) _ _ _ _ |- _ => inversion H; subst; clear H
         | H : Re.matches _ (Re.Grp _ _) _ _ _ _ |- _ => inversion H; subst; clear H
         | H : Re.matches _ (Re.lit_i _) _ _ _ _ |- _ => inversion H; subst; clear H
         | H : Re.matches _ (Re.Rep _ _) _ _ _ _ |- _ => inversion H; subst; clear H
         | H : Re.matches _ Re.Bnd _ _ _ _ |- _ => inversion H; subst; clear H
         | H : Re.matches _ Re.Eps _ _ _ _ |- _ => inversion H; subst; clear H
         end.
  all:
  match goal with
  | Hsp : forall x, _ <= x < ?w -> exists a, _ /\ Py.char_isspace a = true,
    Hw : forall x, ?w <= x < ?e -> exists a, _ /\ Re.word_char a = true |- _ =>
      let try_aux aux :=
        exists aux, w;
        split; [apply list_elem_of_In; vm_compute; tauto|];
        split; [spell|];
        vm_compute (Py.len _);
        split; [lia|];
        split; [intros x Hx; apply Hsp; lia|];
        split; [lia|];
        split; [intros x Hx; apply Hw; lia|];
        split; [replace (S (S e) - 2) with e by lia; spell|];
        split; assumption in
      first [ try_aux "am" | try_aux "is" | try_aux "are" | try_aux "was"
            | try_aux "were" | try_aux "been" | try_aux "being" | try_aux "be" ]
  end.
Qed.





(** ** Texts without letters, and larger lexicons *)

Lemma lower_e_letter c : Py.char_lower c = "e"%char -> Re.letter c = true.
Proof. destruct c as [[] [] [] [] [] [] [] []]; vm_compute; congruence. Qed.

Lemma slice_sub (P : ascii -> Prop) text a b :
  Forall P (Py.chars text) -> Forall P (Py.chars (Py.slice text a b)).
Proof.
  intros H. unfold Py.slice. rewrite chars_str. apply Forall_take, Forall_drop, H.
Qed.

Lemma no_letter_sentence_issues max idx sents :
  (0 <= max)%Z ->
  Forall (fun t => tokenize_words_with_spans (fst (fst t)) = []) sents ->
  sentence_issues max idx sents = [].
Proof.
  intros Hmax Hall. revert idx.
  induction Hall as [|[[sent a] b] rest Hs _ IH]; intros idx; simpl; [reflexivity|].
  rewrite IH, app_nil_r. unfold sentence_issue. simpl in Hs. rewrite Hs. simpl.
  change (Z.of_nat 0) with 0%Z.
  destruct (max <? 0)%Z eqn:E; [lia|reflexivity].
Qed.

Lemma no_letter_passive text :
  Forall (fun c => Re.letter c = false) (Py.chars text) ->
  Re.finditer PASSIVE_RE text = [].
Proof.
  intros Hall. destruct (Re.finditer PASSIVE_RE text) as [|m ms] eqn:E; [reflexivity|].
  assert (Hm : m ∈ Re.finditer PASSIVE_RE text) by (rewrite E; left).
  destruct (passive_match _ _ _ _ (finditer_matches _ _ _ Hm))
    as (_ & _ & _ & _ & _ & _ & _ & _ & Hed & _).
  destruct (Hed 0 "e"%char eq_refl) as (x & Hx & Hl).
  apply lower_e_letter in Hl. rewrite Forall_forall in Hall.
  rewrite (Hall x) in Hl; [discriminate|]. eapply list_elem_of_lookup_2, Hx.
Qed.

(** X15: with a sentence limit that is not negative, a text without ASCII
    letters raises no issue at all, whatever the lexicons hold. *)
Theorem no_letters_no_issues (fs : files) text ap fp cp max issues :
  lint_text fs text ap fp cp max = Ok issues ->
  (0 <= max)%Z ->
  Forall (fun c => Re.letter c = false) (Py.chars text) ->
  issues = [].
Proof.
  intros Hlint Hmax Hall.
  apply lint_text_issues in Hlint as (approved & forbidden & _ & _ & ->).
  unfold lint_issues.
  rewrite (no_letter_tokens text Hall), (no_letter_passive text Hall). simpl.
  rewrite app_nil_r. apply no_letter_sentence_issues; [exact Hmax|].
  apply Forall_forall. intros [[sent a] b] Hin. simpl.
  rewrite (sentences_from_text _ _ _ _ _ _ Hin).
  apply no_letter_tokens, strip_chars, slice_sub, Hall.
Qed.

Lemma no_letters_no_issues_witness :
  lint_text sample_files "12.5 % (3/4)!" "approved.txt" "forbidden.txt" "caps.txt" 0
  = Ok [].
Proof.
  assert (H : exists issues,
    lint_text sample_files "12.5 % (3/4)!" "approved.txt" "forbidden.txt" "caps.txt" 0
    = Ok issues) by (eexists; vm_compute; reflexivity).
  destruct H as [issues H]. rewrite H. f_equal.
  apply (no_letters_no_issues sample_files "12.5 % (3/4)!"
           "approved.txt" "forbidden.txt" "caps.txt" 0 issues H); [lia|].
  vm_compute. repeat constructor.
Defined.

Lemma word_issue_more (approved approved' forbidden : gset string) t :
  approved ⊆ approved' ->
  word_issue approved' forbidden t = word_issue approved forbidden t \/
  (word_issue approved' forbidden t = [] /\
   exists i, word_issue approved forbidden t = [i] /\ type i = UnapprovedWord).
Proof.
  intros Hsub. destruct t as [[tok a] b]. unfold word_issue.
  destruct (_ || _ || _); [left; reflexivity|].
  destruct (bool_decide (Py.lower tok ∈ forbidden)); [left; reflexivity|].
  destruct (bool_decide (Py.lower tok ∈ approved')) eqn:E';
    destruct (bool_decide (Py.lower tok ∈ approved)) eqn:E; simpl;
    try (left; reflexivity).
  - right. split; [reflexivity|]. eexists. split; reflexivity.
  - apply bool_decide_eq_true_1 in E. apply bool_decide_eq_false_1 in E'.
    exfalso. apply E', Hsub, E.
Qed.

(** X16: approving more words takes unapproved-word issues away and
    changes nothing else: the issues for the larger approved set are a
    sublist of those for the smaller one, and the issues of every other
    type are the same. *)
Theorem more_approved_fewer_issues text (approved approved' forbidden : gset string) max :
  approved ⊆ approved' ->
  sublist (lint_issues text approved' forbidden max)
          (lint_issues text approved forbidden max) /\
  filter (fun i => type i <> UnapprovedWord) (lint_issues text approved' forbidden max)
  = filter (fun i => type i <> UnapprovedWord) (lint_issues text approved forbidden max).
Proof.
  intros Hsub. unfold lint_issues. rewrite !filter_app.
  assert (H : sublist (flat_map (word_issue approved' forbidden)
                         (tokenize_words_with_spans text))
                      (flat_map (word_issue approved forbidden)
                         (tokenize_words_with_spans text)) /\
              filter (fun i => type i <> UnapprovedWord)
                (flat_map (word_issue approved' forbidden) (tokenize_words_with_spans text))
              = filter (fun i => type i <> UnapprovedWord)
                  (flat_map (word_issue approved forbidden)
                     (tokenize_words_with_spans text))).
  { induction (tokenize_words_with_spans text) as [|t ts [IH1 IH2]]; simpl; [split; reflexivity|].
    rewrite !filter_app, IH2.
    destruct (word_issue_more approved approved' forbidden t Hsub)
      as [->|(-> & i & -> & Hi)].
    - split; [apply sublist_app; [reflexivity|exact IH1]|reflexivity].
    - split; [apply sublist_cons, IH1|]. simpl.
      rewrite filter_cons_False by (intros Hn; apply Hn, Hi). reflexivity. }
  destruct H as [H1 H2]. split.
  - apply sublist_app; [reflexivity|]. apply sublist_app; [exact H1|reflexivity].
  - rewrite H2. reflexivity.
Qed.

Lemma more_approved_fewer_issues_witness :
  sublist (lint_issues operator_text (list_to_set ("the" :: "and" :: operator_words)) ∅ 20)
          (lint_issues operator_text (list_to_set operator_words) ∅ 20).
Proof.
  apply (more_approved_fewer_issues operator_text
           (list_to_set operator_words) (list_to_set ("the" :: "and" :: operator_words)) ∅ 20).
  intros w Hw. rewrite list_to_set_cons, list_to_set_cons.
  apply elem_of_union; right. apply elem_of_union; right. exact Hw.
Defined.


(** ** The case of the built words *)

Lemma char_upper_nonempty c : 1 <= length (Py.char_upper c).
Proof.
  unfold Py.char_upper.
  repeat match goal with |- context [if ?b then _ else _] => destruct b end; simpl; lia.
Qed.

Lemma flat_map_upper_length l : length l <= length (flat_map Py.char_upper l).
Proof.
  induction l as [|c l IH]; simpl; [lia|].
  rewrite length_app. pose proof (char_upper_nonempty c). lia.
Qed.

(** [upper] changes nothing exactly when it changes no character. *)
Lemma upper_is_self_chars s :
  Py.upper_is_self s = true <->
  Forall (fun c => Py.char_upper c = [Py.code c]) (Py.chars s).
Proof.
  unfold Py.upper_is_self, Py.upper, Py.codes. rewrite bool_decide_eq_true.
  induction (Py.chars s) as [|c l IH]; simpl.
  - split; [constructor|reflexivity].
  - split.
    + intros E. pose proof (char_upper_nonempty c) as Hc.
      pose proof (flat_map_upper_length l) as Hl.
      destruct (Py.char_upper c) as [|x xs] eqn:Ec; [simpl in Hc; lia|].
      simpl in E. injection E as -> E.
      destruct xs as [|y ys].
      * constructor; [exact Ec|]. apply IH. exact E.
      * apply (f_equal (@length N)) in E. simpl in E.
        rewrite length_app, length_map in E. lia.
    + intros H. apply Forall_cons in H as [Hc Hl]. rewrite Hc. simpl.
      f_equal. apply IH, Hl.
Qed.

Lemma suffix_upper y :
  y ∈ SUFFIXES -> Forall (fun c => Py.char_upper c = [Py.code c]) (Py.chars y).
Proof.
  intros Hy. apply list_elem_of_In in Hy. simpl in Hy.
  destruct Hy as [<-|[<-|[<-|[<-|[<-|[<-|[<-|[]]]]]]]]; repeat constructor.
Qed.

Lemma derived_upper b w :
  Py.upper_is_self b = true -> w = b \/ derived b w -> Py.upper_is_self w = true.
Proof.
  intros Hb [->|(x & y & -> & Hy & Hx)]; [exact Hb|].
  apply upper_is_self_chars in Hb. rewrite Forall_forall in Hb.
  apply upper_is_self_chars. rewrite chars_app. apply Forall_app. split.
  - apply Forall_forall. intros c Hc. apply Hb, Hx, Hc.
  - apply suffix_upper, Hy.
Qed.

Lemma add_headword_case hw pos acc acc' :
  lexicons_cased acc -> add_headword hw pos acc = Ok acc' -> lexicons_cased acc'.
Proof.
  intros [Ha Hf]. destruct acc as [approved forbidden]. simpl in Ha, Hf.
  unfold add_headword.
  assert (Hforms : forall forms, (forall w, w ∈ forms -> Py.upper_is_self w = true) ->
            lexicons_cased (approved ∪ forms, forbidden)).
  { intros forms Hin. split; simpl; [|exact Hf].
    intros w Hw. apply elem_of_union in Hw as [Hw|Hw]; auto. }
  destruct (negb _); [intros [= <-]; split; assumption|].
  destruct (Py.upper_is_self hw) eqn:Hup; simpl.
  - destruct (negb (Py.lower_is_self hw)).
    + destruct (char_in _ pos); [|destruct (char_in _ pos)].
      * destruct (_verb_inflections hw) as [forms|] eqn:Hv; [|discriminate].
        simpl. intros [= <-]. apply Hforms. intros w Hw.
        apply (derived_upper hw w Hup), (verb_inflections_forms hw forms Hv w Hw).
      * destruct (_plural_forms hw) as [forms|] eqn:Hv; [|discriminate].
        simpl. intros [= <-]. apply Hforms. intros w Hw.
        apply (derived_upper hw w Hup), (plural_forms_forms hw forms Hv w Hw).
      * intros [= <-]. apply Hforms. intros w Hw.
        now apply elem_of_singleton in Hw as ->.
    + rewrite andb_false_r. intros [= <-]. split; assumption.
  - destruct (Py.lower_is_self hw); simpl; [|intros [= <-]; split; assumption].
    intros [= <-]. split; simpl; [exact Ha|].
    intros w Hw. apply elem_of_union in Hw as [Hw|Hw]; [auto|].
    now apply elem_of_singleton in Hw as ->.
Qed.

Lemma build_lexicons_case full acc :
  build_lexicons full = Ok acc -> lexicons_cased acc.
Proof.
  unfold build_lexicons. apply (for_each_keeps lexicons_cased).
  - intros st sec st' Hst. unfold section_step.
    apply (for_each_keeps lexicons_cased); [|exact Hst].
    clear. intros st m st' Hst. unfold headword_step, group_strip.
    destruct (Re.group sec m 1) as [g1|]; [|discriminate].
    destruct (Re.group sec m 2) as [g2|]; [|discriminate]. simpl.
    apply add_headword_case, Hst.
  - split; simpl; intros w Hw; apply elem_of_empty in Hw as [].
Qed.

(** X17: every approved word of a build, the inflected forms among them,
    is left as it is by [upper] and changed by [lower]; every forbidden
    word is left as it is by [lower] and changed by [upper]. *)
Theorem built_words_case extract pdf approved forbidden :
  build_lexicons_from_pdf extract pdf = Ok (approved, forbidden) ->
  (forall w, w ∈ approved ->
     Py.upper_is_self w = true /\ Py.lower_is_self w = false) /\
  (forall w, w ∈ forbidden ->
     Py.lower_is_self w = true /\ Py.upper_is_self w = false).
Proof.
  intros H. apply build_lexicons_from_pdf_inv in H as (full & _ & H).
  destruct (build_lexicons_case full _ H) as [Ua Uf].
  destruct (build_lexicons_ok full) as (acc & Hacc & [La Lf]).
  rewrite H in Hacc. injection Hacc as <-. simpl in *.
  split; intros w Hw.
  - split; [apply Ua, Hw|]. apply bool_decide_eq_false_2, La, Hw.
  - split; [|apply Uf, Hw]. apply bool_decide_eq_true_2, Lf, Hw.
Qed.

Lemma built_words_case_witness :
  Py.upper_is_self "STOPPING" = true /\ Py.lower_is_self "STOPPING" = false.
Proof.
  assert (H : build_lexicons_from_pdf sample_extract "STE100.pdf"
    = Ok (list_to_set ["STOP"; "STOPS"; "STOPPED"; "STOPPING"; "BOX"; "BOXES"; "SAFE"],
          list_to_set ["stop"])) by (vm_compute; reflexivity).
  apply (proj1 (built_words_case sample_extract "STE100.pdf" _ _ H)).
  vm_compute. reflexivity.
Defined.


(** ** The three PDF libraries *)

Lemma read_pages_acc pages : forall text_pages,
  read_pages pages text_pages
  = (text_pages ++ (read_pages pages []).1, (read_pages pages []).2).
Proof.
  induction pages as [|[x|] pages IH]; intros text_pages; simpl.
  - now rewrite app_nil_r.
  - rewrite (IH (text_pages ++ [or_empty x])), (IH [or_empty x]). simpl.
    now rewrite <- app_assoc.
  - now rewrite app_nil_r.
Qed.

Lemma try_library_acc lib pdf_path text_pages :
  try_library lib pdf_path text_pages
  = (text_pages ++ (try_library lib pdf_path []).1, (try_library lib pdf_path []).2).
Proof.
  unfold try_library. destruct (lib pdf_path) as [pages|].
  - apply read_pages_acc.
  - simpl. now rewrite app_nil_r.
Qed.

(** X18: the text is that of the first library that reads every page, with
    the pages that the libraries before it had read up to their failure in
    front; [RuntimeError] is raised when all three fail, and nothing else
    ever is. *)
Theorem extract_text_accumulates pdfplumber PyPDF2 fitz pdf_path :
  extract_text_from_pdf pdfplumber PyPDF2 fitz pdf_path =
  let '(pages1, read1) := try_library pdfplumber pdf_path [] in
  let '(pages2, read2) := try_library PyPDF2 pdf_path [] in
  let '(pages3, read3) := try_library fitz pdf_path [] in
  if read1 then Ok (join (nl +:+ nl) pages1)
  else if read2 then Ok (join (nl +:+ nl) (pages1 ++ pages2))
  else if read3 then Ok (join (nl +:+ nl) (pages1 ++ pages2 ++ pages3))
  else Err RuntimeError.
Proof.
  unfold extract_text_from_pdf.
  destruct (try_library pdfplumber pdf_path []) as [pages1 read1].
  destruct read1; [destruct (try_library PyPDF2 pdf_path []);
                   destruct (try_library fitz pdf_path []); reflexivity|].
  rewrite (try_library_acc PyPDF2 pdf_path pages1).
  destruct (try_library PyPDF2 pdf_path []) as [pages2 read2]. simpl.
  destruct read2; [destruct (try_library fitz pdf_path []); reflexivity|].
  rewrite (try_library_acc fitz pdf_path (pages1 ++ pages2)).
  destruct (try_library fitz pdf_path []) as [pages3 read3]. simpl.
  rewrite <- app_assoc. reflexivity.
Qed.

Lemma join_app sep l1 l2 :
  l1 <> [] -> l2 <> [] -> join sep (l1 ++ l2) = join sep l1 +:+ sep +:+ join sep l2.
Proof.
  intros H1 H2. induction l1 as [|x l1 IH]; [contradiction|].
  destruct l1 as [|y l1].
  - simpl. destruct l2; [contradiction|reflexivity].
  - change (join sep ((x :: y :: l1) ++ l2))
      with (x +:+ sep +:+ join sep ((y :: l1) ++ l2)).
    rewrite IH by discriminate.
    change (join sep (x :: y :: l1)) with (x +:+ sep +:+ join sep (y :: l1)).
    apply chars_inj. rewrite !chars_app, <- !app_assoc. reflexivity.
Qed.

(** X19: the pages that a library had read before it failed stay in the
    text: when [pdfplumber] fails after some pages and [PyPDF2] reads the
    document, the text is those pages, a blank line, and then the whole
    document as [PyPDF2] reads it. *)
Theorem failed_attempt_pages_stay pdfplumber PyPDF2 fitz pdf_path pages1 pages2 :
  try_library pdfplumber pdf_path [] = (pages1, false) -> pages1 <> [] ->
  try_library PyPDF2 pdf_path [] = (pages2, true) -> pages2 <> [] ->
  extract_text_from_pdf pdfplumber PyPDF2 fitz pdf_path
  = Ok (join (nl +:+ nl) pages1 +:+ (nl +:+ nl) +:+ join (nl +:+ nl) pages2).
Proof.
  intros H1 Hne1 H2 Hne2. unfold extract_text_from_pdf. rewrite H1.
  rewrite (try_library_acc PyPDF2 pdf_path pages1), H2. simpl.
  now rewrite join_app.
Qed.

Lemma failed_attempt_pages_stay_witness :
  extract_text_from_pdf
    (fun _ => Some [Some (Some "page one"); None; Some (Some "page three")])
    (fun _ => Some [Some (Some "page one"); Some None; Some (Some "page three")])
    (fun _ => None) "STE100.pdf"
  = Ok (join (nl +:+ nl) ["page one"] +:+ (nl +:+ nl) +:+
        join (nl +:+ nl) ["page one"; ""; "page three"]).
Proof.
  apply (failed_attempt_pages_stay _ _ _ "STE100.pdf" ["page one"]
           ["page one"; ""; "page three"]);
    [reflexivity|discriminate|reflexivity|discriminate].
Defined.

(** ** The command line *)

Lemma ensure_wordlists_present extract writable (fs : files) ap fp cp pdf :
  path_exists fs ap && path_exists fs fp && path_exists fs cp = true ->
  ensure_wordlists extract writable fs ap fp cp pdf = Ok fs.
Proof. intros H. unfold ensure_wordlists. rewrite H. reflexivity. Qed.

(** X20: [--rebuild] changes nothing: with it and without it [main] leaves
    the same files and finds the same issues; when the three wordlists
    exist, [main] leaves every file as it was, rebuild or not, and its
    issues are those of [lint_text] on these files. *)
Theorem rebuild_changes_nothing extract writable (fs : files)
    text file approved forbidden allcaps max pdf rebuild :
  main_lint extract writable fs
    (Args.mk text file approved forbidden allcaps max pdf rebuild)
  = main_lint extract writable fs
      (Args.mk text file approved forbidden allcaps max pdf false) /\
  (path_exists fs approved && path_exists fs forbidden && path_exists fs allcaps = true ->
   forall fs' issues,
     main_lint extract writable fs
       (Args.mk text file approved forbidden allcaps max pdf rebuild)
     = Ok (fs', Some issues) ->
     fs' = fs /\
     exists input, lint_text fs input approved forbidden allcaps max = Ok issues).
Proof.
  unfold main_lint. cbn [Args.text Args.file Args.approved Args.forbidden Args.allcaps
                        Args.max_sentence_words Args.pdf Args.rebuild].
  destruct (path_exists fs approved && path_exists fs forbidden
            && path_exists fs allcaps) eqn:Hall.
  - rewrite (ensure_wordlists_present _ _ _ _ _ _ _ Hall).
    assert (E : (if rebuild || negb true then Ok fs else Ok fs) = (Ok fs : result files))
      by (destruct rebuild; reflexivity).
    rewrite E. split; [reflexivity|]. intros _ fs' issues. simpl.
    destruct (negb (given text) && negb (given file)); [discriminate|].
    destruct (if given file then _ else _) as [input|]; [|discriminate]. simpl.
    destruct (lint_text fs input approved forbidden allcaps max) as [l|] eqn:El;
      [|discriminate].
    simpl. intros [= <- <-]. split; [reflexivity|]. eauto.
  - rewrite orb_true_r. split; [reflexivity|discriminate].
Qed.

Lemma rebuild_changes_nothing_witness :
  main_lint sample_extract sample_writable sample_files
    (Args.mk (Some "Open the valve.") None "approved.txt" "forbidden.txt" "approved.txt"
             20 None true)
  = main_lint sample_extract sample_writable sample_files
      (Args.mk (Some "Open the valve.") None "approved.txt" "forbidden.txt" "approved.txt"
               20 None false).
Proof.
  exact (proj1 (rebuild_changes_nothing sample_extract sample_writable sample_files
                  (Some "Open the valve.") None "approved.txt" "forbidden.txt"
                  "approved.txt" 20 None true)).
Defined.

Lemma ensure_wordlists_other extract writable (fs fs' : files) ap fp cp pdf p :
  ensure_wordlists extract writable fs ap fp cp pdf = Ok fs' ->
  p ∉ [ap; fp; cp] -> fs' !! p = fs !! p.
Proof.
  intros H Hp.
  destruct (ensure_wordlists_cases extract writable fs ap fp cp pdf)
    as [(Hall & E)|(Hall & [(_ & E)|[(_ & e & _ & E)|(_ & doc & a & f & _ & _ & E)]])];
    rewrite E in H; try discriminate.
  - now injection H as <-.
  - destruct (writable ap); [|discriminate]. destruct (writable fp); [|discriminate].
    destruct (writable cp); [|discriminate]. injection H as <-.
    apply written_other, Hp.
Qed.

(** X21: with [--file], [main] lints the content that the file had before
    the call, its line ends read as [\n], whatever [--text] and
    [--rebuild] say, and it lints it against the wordlists as
    [ensure_wordlists] leaves them, built in this very run when one was
    missing. *)
Theorem main_lints_file extract writable (fs fs' : files)
    text file content approved forbidden allcaps max pdf rebuild :
  ensure_wordlists extract writable fs approved forbidden allcaps
    (if given pdf then or_empty pdf else PDF_PATH) = Ok fs' ->
  file <> "" -> file ∉ [approved; forbidden; allcaps] ->
  fs !! file = Some content ->
  main_lint extract writable fs
    (Args.mk text (Some file) approved forbidden allcaps max pdf rebuild)
  = (issues ← lint_text fs' (Py.str (universal_newlines (Py.chars content)))
                 approved forbidden allcaps max;
     Ok (fs', Some issues)).
Proof.
  intros He Hne Hout Hfile.
  assert (Hread : read_text fs' file
                  = Ok (Py.str (universal_newlines (Py.chars content)))).
  { unfold read_text. rewrite (ensure_wordlists_other _ _ _ _ _ _ _ _ _ He Hout), Hfile.
    reflexivity. }
  assert (Hgiven : given (Some file) = true).
  { unfold given, nonempty, Py.len. destruct file; [contradiction|reflexivity]. }
  unfold main_lint. cbn [Args.text Args.file Args.approved Args.forbidden Args.allcaps
                        Args.max_sentence_words Args.pdf Args.rebuild].
  assert (E : (if rebuild
                  || negb (path_exists fs approved && path_exists fs forbidden
                           && path_exists fs allcaps)
               then ensure_wordlists extract writable fs approved forbidden allcaps
                      (if given pdf then or_empty pdf else PDF_PATH)
               else Ok fs) = Ok fs').
  { destruct (path_exists fs approved && path_exists fs forbidden
              && path_exists fs allcaps) eqn:Hall.
    - rewrite (ensure_wordlists_present _ _ _ _ _ _ _ Hall) in He |- *.
      destruct rebuild; exact He.
    - rewrite orb_true_r. exact He. }
  rewrite E. cbn [mbind result_bind]. rewrite Hgiven, andb_false_r.
  cbn [or_empty]. rewrite Hread. reflexivity.
Qed.

Lemma main_lints_file_witness :
  main_lint sample_extract sample_writable sample_manual_files
    (Args.mk (Some "ignored") (Some "manual.txt") "approved.txt" "forbidden.txt"
             "caps.txt" 20 (Some "STE100.pdf") false)
  = (issues ← lint_text
                 (with_wordlist "caps.txt" (all_caps_words sample_document)
                    (with_wordlist "forbidden.txt" (list_to_set ["stop"])
                       (with_wordlist "approved.txt"
                          (list_to_set ["BOX"; "BOXES"; "SAFE"; "STOP"; "STOPPED";
                                        "STOPPING"; "STOPS"])
                          sample_manual_files)))
                 (Py.str (universal_newlines (Py.chars sample_manual)))
                 "approved.txt" "forbidden.txt" "caps.txt" 20;
     Ok (with_wordlist "caps.txt" (all_caps_words sample_document)
           (with_wordlist "forbidden.txt" (list_to_set ["stop"])
              (with_wordlist "approved.txt"
                 (list_to_set ["BOX"; "BOXES"; "SAFE"; "STOP"; "STOPPED";
                               "STOPPING"; "STOPS"])
                 sample_manual_files)), Some issues)).
Proof.
  apply (main_lints_file sample_extract sample_writable sample_manual_files).
  - vm_compute. reflexivity.
  - discriminate.
  - intros Hin. apply list_elem_of_In in Hin. simpl in Hin.
    destruct Hin as [Hin|[Hin|[Hin|[]]]]; discriminate.
  - vm_compute. reflexivity.
Defined.

Lemma is_acronym_token_witness :
  is_acronym "It"
  = forallb (fun c => negb (Py.between 97 122 c)) (Py.chars "It")
    && (2 <=? length (filter (fun c => Re.letter c = true) (Py.chars "It"))).
Proof.
  apply (is_acronym_token sample_text "It" 40 42).
  apply list_elem_of_In. vm_compute. tauto.
Defined.


(** ** The words of a sentence are the tokens of the text *)

(** One step of the scanner for the token pattern. *)
Lemma token_scan_S s n p lim :
  Re.scan TOKEN_RE s (S n) p lim =
  if p <? lim then Re.scan TOKEN_RE s n (S p) lim
  else match s !! p with
       | Some a =>
           if Re.letter a
           then Re.Match p (S p + Re.run token_char (drop (S p) s)) []
                :: Re.scan TOKEN_RE s n (S p) (S p + Re.run token_char (drop (S p) s))
           else Re.scan TOKEN_RE s n (S p) lim
       | None => Re.scan TOKEN_RE s n (S p) lim
       end.
Proof.
  cbn [Re.scan]. rewrite token_match_at.
  destruct (p <? lim); [reflexivity|].
  destruct (s !! p) as [a|]; [|reflexivity]. destruct (Re.letter a); [|reflexivity].
  destruct (Nat.eqb_spec (S p + Re.run token_char (drop (S p) s)) p); [lia|reflexivity].
Qed.

Lemma token_scan_facts s n : forall p lim,
  Forall (fun m => p <= Re.m_start m < p + n /\ lim <= Re.m_start m /\
            (exists a, s !! Re.m_start m = Some a /\ Re.letter a = true) /\
            Re.m_end m = S (Re.m_start m)
                         + Re.run token_char (drop (S (Re.m_start m)) s) /\
            Re.m_groups m = [])
         (Re.scan TOKEN_RE s n p lim).
Proof.
  induction n as [|n IH]; intros p lim; [constructor|].
  rewrite token_scan_S.
  assert (Hnext : forall lim', lim <= lim' \/ lim <= S p ->
    Forall (fun m => p <= Re.m_start m < p + S n /\ lim <= Re.m_start m /\
            (exists a, s !! Re.m_start m = Some a /\ Re.letter a = true) /\
            Re.m_end m = S (Re.m_start m)
                         + Re.run token_char (drop (S (Re.m_start m)) s) /\
            Re.m_groups m = [])
         (Re.scan TOKEN_RE s n (S p) lim')).
  { intros lim' Hl. eapply Forall_impl; [apply (IH (S p) lim')|].
    intros m (H1 & H2 & H3). repeat split; try tauto; lia. }
  destruct (p <? lim) eqn:Hlt; [apply Hnext; lia|].
  apply Nat.ltb_ge in Hlt.
  destruct (s !! p) as [a|] eqn:Hp; [|apply Hnext; lia].
  destruct (Re.letter a) eqn:Ha; [|apply Hnext; lia].
  constructor; [|apply Hnext; lia].
  simpl. repeat split; try lia. eauto.
Qed.

Lemma letter_token_char c : Re.letter c = true -> token_char c = true.
Proof. unfold token_char. intros ->. reflexivity. Qed.

(** A token that starts before a break ends at the break or before. *)
Lemma run_token_break s q p a :
  token_break s q -> s !! p = Some a -> Re.letter a = true -> p < q ->
  S p + Re.run token_char (drop (S p) s) <= q.
Proof.
  intros Hq Hp Ha Hlt.
  destruct (Nat.le_gt_cases (S p + Re.run token_char (drop (S p) s)) q) as [|Hgt];
    [assumption|exfalso].
  assert (Hin : forall x, S p <= x <= q -> exists c, s !! x = Some c /\ token_char c = true).
  { intros x Hx.
    destruct (run_spec token_char (drop (S p) s) (x - S p)) as (c & Hc & Ht); [lia|].
    rewrite lookup_drop in Hc. replace (S p + (x - S p)) with x in Hc by lia. eauto. }
  destruct Hq as [->|[Hlen|[(c & Hc & Ht)|(c & Hc & Ht)]]].
  - lia.
  - pose proof (run_le token_char (drop (S p) s)) as Hr. rewrite length_drop in Hr.
    apply lookup_lt_Some in Hp. lia.
  - destruct (Hin q) as (c' & Hc' & Ht'); [lia|]. congruence.
  - destruct (decide (q - 1 = p)) as [E|E].
    + rewrite E, Hp in Hc. injection Hc as <-.
      rewrite (letter_token_char a Ha) in Ht. discriminate.
    + destruct (Hin (q - 1)) as (c' & Hc' & Ht'); [lia|]. congruence.
Qed.

Lemma token_end_break s n p lim q m :
  token_break s q -> m ∈ Re.scan TOKEN_RE s n p lim -> Re.m_start m < q ->
  Re.m_end m <= q.
Proof.
  intros Hq Hm Hlt. pose proof (token_scan_facts s n p lim) as Hall.
  rewrite Forall_forall in Hall.
  destruct (Hall m Hm) as (_ & _ & (a & Ha & Hl) & -> & _).
  eapply run_token_break; eassumption.
Qed.

Lemma no_letter_scan s n p lim :
  (forall x a, p <= x < p + n -> s !! x = Some a -> Re.letter a = false) ->
  Re.scan TOKEN_RE s n p lim = [].
Proof.
  intros Hno. pose proof (token_scan_facts s n p lim) as Hall.
  destruct (Re.scan TOKEN_RE s n p lim) as [|m l]; [reflexivity|].
  apply Forall_cons in Hall as [(Hr & _ & (a & Ha & Hl) & _) _].
  rewrite (Hno _ a Hr Ha) in Hl. discriminate.
Qed.

(** The limit matters only while it lies ahead. *)
Lemma scan_lim r s n : forall p lim lim',
  lim <= p -> lim' <= p -> Re.scan r s n p lim = Re.scan r s n p lim'.
Proof.
  induction n as [|n IH]; intros p lim lim' H1 H2; [reflexivity|].
  cbn [Re.scan].
  destruct (Nat.ltb_spec p lim); [lia|]. destruct (Nat.ltb_spec p lim'); [lia|].
  destruct (Re.match_at r s p false) as [[e c]|]; [reflexivity|].
  apply IH; lia.
Qed.

(** A scan can stop at a break and start again from there. *)
Lemma token_scan_split s n1 n2 : forall p lim,
  lim <= p + n1 ->
  Forall (fun m => Re.m_end m <= p + n1) (Re.scan TOKEN_RE s n1 p lim) ->
  Re.scan TOKEN_RE s (n1 + n2) p lim
  = Re.scan TOKEN_RE s n1 p lim ++ Re.scan TOKEN_RE s n2 (p + n1) (p + n1).
Proof.
  induction n1 as [|n1 IH]; intros p lim Hlim Hall.
  - simpl. rewrite Nat.add_0_r. apply scan_lim; lia.
  - change (S n1 + n2) with (S (n1 + n2)). rewrite token_scan_S in Hall.
    rewrite !token_scan_S. replace (p + S n1) with (S p + n1) in * by lia.
    destruct (p <? lim); [apply IH; [lia|exact Hall]|].
    destruct (s !! p) as [a|]; [|apply IH; [lia|exact Hall]].
    destruct (Re.letter a); [|apply IH; [lia|exact Hall]].
    apply Forall_cons in Hall as [He Hall]. simpl in He.
    rewrite <- app_comm_cons. f_equal. apply IH; [lia|exact Hall].
Qed.

(** Scanning after a prefix is scanning without it, moved. *)
Lemma token_scan_shift pre l n : forall p lim,
  Re.scan TOKEN_RE (pre ++ l) n (length pre + p) (length pre + lim)
  = map (shift (length pre)) (Re.scan TOKEN_RE l n p lim).
Proof.
  induction n as [|n IH]; intros p lim; [reflexivity|].
  rewrite !token_scan_S.
  replace (length pre + p <? length pre + lim) with (p <? lim)
    by (destruct (Nat.ltb_spec p lim), (Nat.ltb_spec (length pre + p) (length pre + lim));
        (reflexivity || lia)).
  rewrite lookup_app_r by lia. replace (length pre + p - length pre) with p by lia.
  rewrite drop_app_ge by lia.
  replace (S (length pre + p) - length pre) with (S p) by lia.
  replace (S (length pre + p)) with (length pre + S p) by lia.
  destruct (p <? lim); [apply IH|].
  destruct (l !! p) as [a|]; [|apply IH].
  destruct (Re.letter a); [|apply IH].
  cbn [map]. f_equal.
  - unfold shift. simpl. f_equal; lia.
  - rewrite <- IH. f_equal. lia.
Qed.

Lemma run_app_le (f : ascii -> bool) x y :
  Re.run f (x ++ y) <= length x -> Re.run f (x ++ y) = Re.run f x.
Proof.
  induction x as [|c x IH]; simpl.
  - lia.
  - destruct (f c); [|reflexivity]. intros H. f_equal. apply IH. lia.
Qed.

(** Before a break the scan does not look beyond it. *)
Lemma token_scan_cut mid post n : forall p lim,
  token_break (mid ++ post) (length mid) -> p + n <= length mid ->
  Re.scan TOKEN_RE (mid ++ post) n p lim = Re.scan TOKEN_RE mid n p lim.
Proof.
  induction n as [|n IH]; intros p lim Hq Hn; [reflexivity|].
  rewrite !token_scan_S. rewrite lookup_app_l by lia.
  destruct (p <? lim); [apply IH; [exact Hq|lia]|].
  destruct (mid !! p) as [a|] eqn:Hp; [|apply IH; [exact Hq|lia]].
  destruct (Re.letter a) eqn:Ha; [|apply IH; [exact Hq|lia]].
  assert (E : Re.run token_char (drop (S p) (mid ++ post))
              = Re.run token_char (drop (S p) mid)).
  { pose proof (run_token_break (mid ++ post) (length mid) p a Hq) as Hr.
    rewrite lookup_app_l in Hr by lia. specialize (Hr Hp Ha ltac:(lia)).
    rewrite drop_app_le in Hr |- * by lia.
    apply run_app_le. rewrite length_drop. lia. }
  rewrite E. f_equal. apply IH; [exact Hq|lia].
Qed.
Lemma token_break_core pre core post :
  token_break (pre ++ core ++ post) (length pre + length core) ->
  token_break (core ++ post) (length core).
Proof.
  intros [H|[H|[(c & Hc & Ht)|(c & Hc & Ht)]]].
  - left. lia.
  - right; left. rewrite !length_app in *. lia.
  - right; right; left. exists c. split; [|exact Ht].
    rewrite lookup_app_r in Hc by lia.
    replace (length pre + length core - length pre) with (length core) in Hc by lia.
    exact Hc.
  - destruct (length core) as [|k] eqn:E; [left; reflexivity|].
    right; right; right. exists c. split; [|exact Ht].
    rewrite lookup_app_r in Hc by lia.
    replace (length pre + S k - 1 - length pre) with (S k - 1) in Hc by lia.
    exact Hc.
Qed.

Lemma token_scan_end s p lim : length s <= p -> Re.scan TOKEN_RE s 1 p lim = [].
Proof.
  intros H. apply no_letter_scan. intros x a Hx Ha.
  apply lookup_lt_Some in Ha. lia.
Qed.

(** All tokens of a text, without the last position, where none starts. *)
Lemma token_scan_all s :
  Re.scan TOKEN_RE s (S (length s)) 0 0 = Re.scan TOKEN_RE s (length s) 0 0.
Proof.
  replace (S (length s)) with (length s + 1) by lia.
  rewrite token_scan_split.
  - rewrite token_scan_end by lia. apply app_nil_r.
  - lia.
  - apply Forall_forall. intros m Hm.
    eapply (token_end_break s _ _ _ (0 + length s)); [right; left; lia|exact Hm|].
    pose proof (token_scan_facts s (length s) 0 0) as Hall.
    rewrite Forall_forall in Hall. destruct (Hall m Hm) as (H & _). lia.
Qed.

(** The tokens of a text that lie between two breaks are the tokens of the
    text between the breaks. *)
Lemma token_window pre core post :
  token_break (pre ++ core ++ post) (length pre) ->
  token_break (pre ++ core ++ post) (length pre + length core) ->
  filter (fun m => length pre <= Re.m_start m /\
                   Re.m_end m <= length pre + length core)
         (Re.scan TOKEN_RE (pre ++ core ++ post)
            (S (length (pre ++ core ++ post))) 0 0)
  = map (shift (length pre)) (Re.scan TOKEN_RE core (S (length core)) 0 0).
Proof.
  intros Hq1 Hq2. set (s := pre ++ core ++ post) in *.
  assert (Hfacts : forall n p lim m, m ∈ Re.scan TOKEN_RE s n p lim ->
            p <= Re.m_start m < p + n /\ Re.m_start m < Re.m_end m).
  { intros n p lim m Hm. pose proof (token_scan_facts s n p lim) as Hall.
    rewrite Forall_forall in Hall. destruct (Hall m Hm) as (H1 & _ & _ & H2 & _). lia. }
  replace (S (length s))
    with (length pre + (length core + S (length post)))
    by (unfold s; rewrite !length_app; lia).
  rewrite (token_scan_split s (length pre)); [|lia|].
  2:{ apply Forall_forall. intros m Hm. simpl.
      eapply token_end_break; [exact Hq1|exact Hm|].
      destruct (Hfacts _ _ _ _ Hm). lia. }
  simpl (0 + length pre).
  rewrite (token_scan_split s (length core)); [|lia|].
  2:{ apply Forall_forall. intros m Hm.
      eapply token_end_break; [exact Hq2|exact Hm|].
      destruct (Hfacts _ _ _ _ Hm). lia. }
  rewrite !filter_app.
  rewrite filter_none, filter_all, filter_none.
  - rewrite app_nil_r.
    pose proof (token_scan_shift pre (core ++ post) (length core) 0 0) as E.
    rewrite Nat.add_0_r in E. fold s in E. rewrite E, (token_scan_all core).
    rewrite (token_scan_cut core post); [reflexivity| |lia].
    apply (token_break_core pre), Hq2.
  - apply Forall_forall. intros m Hm. destruct (Hfacts _ _ _ _ Hm). lia.
  - apply Forall_forall. intros m Hm. split.
    + destruct (Hfacts _ _ _ _ Hm). lia.
    + eapply token_end_break; [exact Hq2|exact Hm|].
      destruct (Hfacts _ _ _ _ Hm). lia.
  - apply Forall_forall. intros m Hm. destruct (Hfacts _ _ _ _ Hm). lia.
Qed.
Lemma space_not_token c : Py.char_isspace c = true -> token_char c = false.
Proof. destruct c as [[] [] [] [] [] [] [] []]; vm_compute; congruence. Qed.

Lemma terminator_not_token c : Re.one_of ".!?" c = true -> token_char c = false.
Proof. destruct c as [[] [] [] [] [] [] [] []]; vm_compute; congruence. Qed.

Lemma token_char_not_space c : token_char c = true -> Py.char_isspace c = false.
Proof. destruct c as [[] [] [] [] [] [] [] []]; vm_compute; congruence. Qed.

(** A sentence starts at the start of the text or behind a terminator. *)
Lemma sentences_from_start text ms : forall start sent a b,
  terminators_from text start ms ->
  (start = 0 \/ exists c, Py.chars text !! (start - 1) = Some c /\
                          Re.one_of ".!?" c = true) ->
  (sent, a, b) ∈ sentences_from text ms start ->
  a = 0 \/ exists c, Py.chars text !! (a - 1) = Some c /\ Re.one_of ".!?" c = true.
Proof.
  induction ms as [|m ms IH]; intros start sent a b Hts Hstart; simpl.
  - destruct (start <? Py.len text); [|intros H; inversion H].
    destruct (nonempty _); [|intros H; inversion H].
    intros H. apply list_elem_of_singleton in H. injection H as -> -> ->. exact Hstart.
  - destruct (terminators_next _ _ _ _ Hts) as (Hnext & _).
    destruct Hts as (_ & Hall & _). apply Forall_cons in Hall as ((He & c & Hc & Ht) & _).
    assert (Hend : Re.m_end m = 0 \/
                   exists c, Py.chars text !! (Re.m_end m - 1) = Some c /\
                             Re.one_of ".!?" c = true).
    { right. exists c. rewrite He. simpl. rewrite Nat.sub_0_r. auto. }
    destruct (nonempty _); [|apply IH; assumption].
    intros H. apply elem_of_cons in H as [H|H]; [|eapply IH; eassumption].
    injection H as -> -> ->. exact Hstart.
Qed.

(** A sentence in its text: white space on both sides inside its span, and
    a break at either end. *)
Lemma sentence_frame text sent a b :
  (sent, a, b) ∈ split_sentences_with_spans text ->
  exists pre post,
    Py.chars text = pre ++ Py.chars sent ++ post /\
    a <= length pre /\ length pre + Py.len sent <= b /\
    (forall x c, a <= x < length pre -> Py.chars text !! x = Some c ->
       Py.char_isspace c = true) /\
    (forall x c, length pre + Py.len sent <= x < b -> Py.chars text !! x = Some c ->
       Py.char_isspace c = true) /\
    token_break (Py.chars text) (length pre) /\
    token_break (Py.chars text) (length pre + Py.len sent).
Proof.
  intros Hin. set (s := Py.chars text).
  pose proof (sentences_from_text _ _ _ _ _ _ Hin) as Htext.
  pose proof (sentences_chain text) as Hch. apply chain_Forall in Hch.
  rewrite Forall_map, Forall_forall in Hch. specialize (Hch _ Hin). simpl in Hch.
  unfold Py.len in Hch. fold s in Hch.
  destruct (sentences_from_shape text _ 0 sent a b (finditer_terminators text) Hin)
    as (_ & _ & Hlast).
  assert (Hfirst := sentences_from_start text _ 0 sent a b (finditer_terminators text)
                      (or_introl eq_refl) Hin).
  fold s in Hfirst, Hlast.
  set (mid := take (b - a) (drop a s)).
  destruct (lstrip_split mid) as (ws1 & E1 & Hws1).
  destruct (rstrip_split (Py.lstrip_chars mid)) as (ws2 & E2 & Hws2).
  assert (Hsent : Py.chars sent = Py.rstrip_chars (Py.lstrip_chars mid)).
  { rewrite Htext. unfold Py.strip, Py.slice. rewrite !chars_str. reflexivity. }
  assert (Hmid : mid = ws1 ++ Py.chars sent ++ ws2).
  { rewrite Hsent, <- E2. exact E1. }
  assert (Hs : s = (take a s ++ ws1) ++ Py.chars sent ++ (ws2 ++ drop b s)).
  { rewrite <- (take_drop a s) at 1. rewrite <- (take_drop (b - a) (drop a s)).
    fold mid. rewrite drop_drop. replace (a + (b - a)) with b by lia.
    rewrite Hmid, <- !app_assoc. reflexivity. }
  assert (Hlm : length mid = b - a).
  { unfold mid. rewrite length_take, length_drop. lia. }
  assert (Hl : length ws1 + length (Py.chars sent) + length ws2 = b - a).
  { rewrite <- Hlm, Hmid, !length_app. lia. }
  assert (Hp : length (take a s ++ ws1) = a + length ws1).
  { rewrite length_app, length_take. lia. }
  assert (Hlook1 : forall x, a <= x < a + length ws1 -> s !! x = ws1 !! (x - a)).
  { intros x Hx. rewrite Hs at 1. rewrite lookup_app_l by lia.
    rewrite lookup_app_r by (rewrite length_take; lia).
    rewrite length_take. f_equal. lia. }
  assert (Hlook2 : forall x, a + length ws1 + length (Py.chars sent) <= x < b ->
            s !! x = ws2 !! (x - (a + length ws1 + length (Py.chars sent)))).
  { intros x Hx. rewrite Hs at 1. rewrite lookup_app_r by lia.
    rewrite lookup_app_r by lia. rewrite lookup_app_l by lia. f_equal. lia. }
  rewrite Forall_forall in Hws1, Hws2.
  exists (take a s ++ ws1), (ws2 ++ drop b s). unfold Py.len. rewrite Hp.
  split; [exact Hs|]. split; [lia|]. split; [lia|].
  split; [|split; [|split]].
  - intros x c Hx Hc. rewrite Hlook1 in Hc by lia.
    apply Hws1. eapply list_elem_of_lookup_2, Hc.
  - intros x c Hx Hc. rewrite Hlook2 in Hc by lia.
    apply Hws2. eapply list_elem_of_lookup_2, Hc.
  - destruct (length ws1) as [|k] eqn:Ek.
    + rewrite Nat.add_0_r. destruct Hfirst as [->|(c & Hc & Ht)]; [left; reflexivity|].
      right; right; right. exists c. split; [exact Hc|apply terminator_not_token, Ht].
    + right; right; right.
      destruct (lookup_lt_is_Some_2 ws1 k) as [w Hw]; [lia|].
      exists w. split.
      * rewrite Hlook1 by lia. rewrite <- Hw. f_equal. lia.
      * apply space_not_token, Hws1. eapply list_elem_of_lookup_2, Hw.
  - destruct (length ws2) as [|k] eqn:Ek.
    + replace (a + length ws1 + length (Py.chars sent)) with b by lia.
      destruct Hlast as [(c & _ & Hc & Ht & _)|[Hb _]].
      * right; right; right. exists c. split; [exact Hc|apply terminator_not_token, Ht].
      * right; left. unfold Py.len in Hb. fold s in Hb. lia.
    + right; right; left.
      destruct (lookup_lt_is_Some_2 ws2 0) as [w Hw]; [lia|].
      exists w. split.
      * rewrite Hlook2 by lia. rewrite <- Hw. f_equal. lia.
      * apply space_not_token, Hws2. eapply list_elem_of_lookup_2, Hw.
Qed.
Lemma filter_fmap_comm {A B} (f : A -> B) (P : B -> Prop)
    `{!forall y, Decision (P y)} (l : list A) :
  filter P (map f l) = map f (filter (fun x => P (f x)) l).
Proof.
  induction l as [|x l IH]; [reflexivity|]. simpl.
  rewrite !filter_cons. destruct (decide (P (f x))); simpl; now rewrite IH.
Qed.

Lemma filter_iff_in {A} (P Q : A -> Prop)
    `{!forall x, Decision (P x)} `{!forall x, Decision (Q x)} (l : list A) :
  (forall x, x ∈ l -> P x <-> Q x) -> filter P l = filter Q l.
Proof.
  induction l as [|x l IH]; intros Hl; [reflexivity|].
  rewrite !filter_cons.
  assert (Hx : P x <-> Q x) by (apply Hl; left).
  rewrite IH by (intros y Hy; apply Hl; now right).
  destruct (decide (P x)), (decide (Q x)); tauto.
Qed.

(** A token of the sentence is the same string as the token of the text at
    the same place. *)
Lemma matched_shift text sent pre post m :
  Py.chars text = pre ++ Py.chars sent ++ post ->
  Re.m_start m <= Re.m_end m <= Py.len sent ->
  Re.matched text (shift (length pre) m) = Re.matched sent m.
Proof.
  intros Hs Hm. unfold Re.matched, shift, Py.slice, Py.len in *. simpl. f_equal.
  rewrite Hs. rewrite drop_app_ge by lia.
  replace (length pre + Re.m_start m - length pre) with (Re.m_start m) by lia.
  rewrite drop_app_le by lia.
  replace (length pre + Re.m_end m - (length pre + Re.m_start m))
    with (Re.m_end m - Re.m_start m) by lia.
  apply take_app_le. rewrite length_drop. lia.
Qed.

Lemma sentence_tokens text sent a b :
  (sent, a, b) ∈ split_sentences_with_spans text ->
  map (fun t : spanned => t.1.1) (tokenize_words_with_spans sent)
  = map (fun t : spanned => t.1.1)
        (filter (fun t : spanned => a <= t.1.2 /\ t.2 <= b)
                (tokenize_words_with_spans text)).
Proof.
  intros Hin.
  destruct (sentence_frame text sent a b Hin)
    as (pre & post & Hs & Ha & Hb & Hw1 & Hw2 & Hq1 & Hq2).
  unfold tokenize_words_with_spans.
  rewrite (filter_fmap_comm _ (fun t : spanned => a <= t.1.2 /\ t.2 <= b)). simpl.
  rewrite !map_map. simpl. unfold Re.finditer, Py.len.
  rewrite (filter_iff_in _
             (fun m => length pre <= Re.m_start m /\
                       Re.m_end m <= length pre + length (Py.chars sent))).
  - rewrite Hs at 1 2. rewrite token_window by (rewrite <- Hs; assumption).
    rewrite map_map. apply map_ext_in. intros m Hm.
    symmetry. apply (matched_shift text sent pre post m Hs).
    apply list_elem_of_In in Hm.
    pose proof (finditer_span TOKEN_RE sent m TOKEN_RE_nonempty Hm). lia.
  - intros m Hm. unfold Py.len in *.
    pose proof (token_scan_facts (Py.chars text) (S (length (Py.chars text))) 0 0) as Hall.
    rewrite Forall_forall in Hall.
    destruct (Hall m Hm) as (_ & _ & (c & Hc & Hl) & He & _).
    assert (Hns : Py.char_isspace c = false)
      by (apply token_char_not_space, letter_token_char, Hl).
    split; [|lia]. intros [H1 H2].
    assert (H3 : length pre <= Re.m_start m).
    { destruct (Nat.le_gt_cases (length pre) (Re.m_start m)) as [|Hlt]; [assumption|].
      rewrite (Hw1 (Re.m_start m) c) in Hns by (lia || assumption). discriminate. }
    split; [exact H3|].
    eapply token_end_break; [exact Hq2|exact Hm|].
    destruct (Nat.le_gt_cases (length pre + length (Py.chars sent)) (Re.m_start m))
      as [Hge|]; [|assumption].
    rewrite (Hw2 (Re.m_start m) c) in Hns by (lia || assumption). discriminate.
Qed.
(** X22: the words counted for a sentence are the tokens of the text that
    lie in the span of the sentence, in the same order; so the sentence is
    reported as too long exactly when more than the limit of the tokens
    that the word check sees lie in its span. *)
Theorem sentence_words_in_span text sent a b :
  (sent, a, b) ∈ split_sentences_with_spans text ->
  map (fun t : spanned => t.1.1) (tokenize_words_with_spans sent)
  = map (fun t : spanned => t.1.1)
        (filter (fun t : spanned => a <= t.1.2 /\ t.2 <= b)
                (tokenize_words_with_spans text)) /\
  forall max idx,
    sentence_issue max idx (sent, a, b) <> [] <->
    (max < Z.of_nat
             (length (filter (fun t : spanned => (a <= t.1.2)%nat /\ (t.2 <= b)%nat)
                             (tokenize_words_with_spans text))))%Z.
Proof.
  intros Hin. pose proof (sentence_tokens text sent a b Hin) as E.
  split; [exact E|]. intros max idx.
  apply (f_equal (@length string)) in E. rewrite !length_map in E. rewrite <- E.
  unfold sentence_issue. rewrite length_map.
  destruct (Z.ltb_spec max (Z.of_nat (length (tokenize_words_with_spans sent)))).
  - split; [intros _; assumption|discriminate].
  - split; [intros Hne; now contradiction Hne|lia].
Qed.

Lemma sentence_words_in_span_witness :
  map (fun t : spanned => t.1.1)
      (filter (fun t : spanned => 39 <= t.1.2 /\ t.2 <= 61)
              (tokenize_words_with_spans sample_text))
  = ["It"; "has"; "been"; "Checked"].
Proof.
  assert (H : ("It has been  Checked?", 39, 61) ∈ split_sentences_with_spans sample_text).
  { apply list_elem_of_In. vm_compute. tauto. }
  rewrite <- (proj1 (sentence_words_in_span sample_text _ 39 61 H)).
  vm_compute. reflexivity.
Defined.

(** X23: every token of the text lies within the span of exactly one
    sentence: no token goes across a sentence boundary or stands outside
    the sentences. *)
Theorem token_in_one_sentence text tok s e :
  (tok, s, e) ∈ tokenize_words_with_spans text ->
  exists sent a b,
    (sent, a, b) ∈ split_sentences_with_spans text /\ a <= s /\ e <= b /\
    forall sent' a' b', (sent', a', b') ∈ split_sentences_with_spans text ->
      a' <= s < b' -> (sent', a', b') = (sent, a, b).
Proof.
  intros Htok. unfold tokenize_words_with_spans in Htok.
  apply list_elem_of_fmap in Htok as (m & E & Hm). injection E as -> -> ->.
  pose proof (token_scan_facts (Py.chars text) (S (Py.len text)) 0 0) as Hall.
  rewrite Forall_forall in Hall.
  destruct (Hall m Hm) as (_ & _ & (c & Hc & Hl) & _).
  assert (Hns : Py.char_isspace c = false)
    by (apply token_char_not_space, letter_token_char, Hl).
  destruct (sentences_from_cover text (Re.finditer TERMINATOR_RE text) (Re.m_start m) c 0)
    as (sent & a & b & Hin & Hab);
    [apply (finditer_chain TERMINATOR_RE text TERMINATOR_RE_nonempty)|lia|exact Hc
    |exact Hns|].
  exists sent, a, b. split; [exact Hin|]. split; [lia|]. split.
  - eapply token_end_break; [|exact Hm|lia].
    destruct (sentences_from_shape text _ 0 sent a b (finditer_terminators text) Hin)
      as (_ & _ & [(t & _ & Ht & Hterm & _)|[Hb _]]).
    + right; right; right. exists t. split; [exact Ht|apply terminator_not_token, Hterm].
    + right; left. unfold Py.len in Hb. lia.
  - intros sent' a' b' Hin' Hab'.
    assert (E : (a', b') = (a, b)).
    { apply (chain_unique 0 (Py.len text) (map span3 (split_sentences_with_spans text))
               (a', b') (a, b) (Re.m_start m) (sentences_chain text)).
      - apply list_elem_of_fmap. exists (sent', a', b'). auto.
      - apply list_elem_of_fmap. exists (sent, a, b). auto.
      - exact Hab'.
      - exact Hab. }
    injection E as -> ->.
    rewrite (sentences_from_text _ _ _ _ _ _ Hin), (sentences_from_text _ _ _ _ _ _ Hin').
    reflexivity.
Qed.

Lemma token_in_one_sentence_witness :
  exists sent a b,
    (sent, a, b) ∈ split_sentences_with_spans sample_text /\ a <= 53 /\ 60 <= b.
Proof.
  destruct (token_in_one_sentence sample_text "Checked" 53 60)
    as (sent & a & b & H1 & H2 & H3 & _).
  - apply list_elem_of_In. vm_compute. tauto.
  - exists sent, a, b. auto.
Defined.


(** ** Tokens that no built list can hold *)

Lemma for_each_keeps_in {A S} (P : S -> Prop) (body : S -> A -> result S) xs :
  (forall st x st', x ∈ xs -> P st -> body st x = Ok st' -> P st') ->
  forall st st', P st -> for_each body xs st = Ok st' -> P st'.
Proof.
  induction xs as [|x xs IH]; intros Hbody st st' Hst; simpl.
  - now intros [= <-].
  - destruct (body st x) as [st1|] eqn:E; [|discriminate]. simpl.
    apply IH; [|eapply Hbody; [left|exact Hst|exact E]].
    intros st0 y st0' Hy. apply Hbody. now right.
Qed.

Lemma suffix_headword_chars y :
  y ∈ SUFFIXES -> Forall (fun c => headword_char c = true) (Py.chars y).
Proof.
  intros Hy. apply list_elem_of_In in Hy. simpl in Hy.
  destruct Hy as [<-|[<-|[<-|[<-|[<-|[<-|[<-|[]]]]]]]]; repeat constructor.
Qed.

Lemma derived_headword_chars b w :
  Forall (fun c => headword_char c = true) (Py.chars b) ->
  w = b \/ derived b w ->
  Forall (fun c => headword_char c = true) (Py.chars w).
Proof.
  intros Hb [->|(x & y & -> & Hy & Hx)]; [exact Hb|].
  rewrite Forall_forall in Hb. rewrite chars_app. apply Forall_app. split.
  - apply Forall_forall. intros c Hc. apply Hb, Hx, Hc.
  - apply suffix_headword_chars, Hy.
Qed.

Lemma add_headword_chars hw pos acc acc' :
  Forall (fun c => headword_char c = true) (Py.chars hw) ->
  lexicons_chars acc -> add_headword hw pos acc = Ok acc' -> lexicons_chars acc'.
Proof.
  intros Hhw Hacc. destruct acc as [approved forbidden]. unfold add_headword.
  assert (Hforms : forall forms,
            (forall w, w ∈ forms -> Forall (fun c => headword_char c = true) (Py.chars w)) ->
            lexicons_chars (approved ∪ forms, forbidden)).
  { intros forms Hf w Hw. simpl in Hw.
    apply elem_of_union in Hw as [Hw|Hw]; [|apply Hacc; simpl; apply elem_of_union; auto].
    apply elem_of_union in Hw as [Hw|Hw]; [apply Hacc; simpl; apply elem_of_union; auto|auto]. }
  destruct (negb _); [now intros [= <-]|].
  destruct (Py.upper_is_self hw && negb (Py.lower_is_self hw)).
  - destruct (char_in _ pos); [|destruct (char_in _ pos)].
    + destruct (_verb_inflections hw) as [forms|] eqn:Hv; [|discriminate].
      simpl. intros [= <-]. apply Hforms. intros w Hw.
      apply (derived_headword_chars hw w Hhw), (verb_inflections_forms hw forms Hv w Hw).
    + destruct (_plural_forms hw) as [forms|] eqn:Hv; [|discriminate].
      simpl. intros [= <-]. apply Hforms. intros w Hw.
      apply (derived_headword_chars hw w Hhw), (plural_forms_forms hw forms Hv w Hw).
    + intros [= <-]. apply Hforms. intros w Hw. now apply elem_of_singleton in Hw as ->.
  - destruct (Py.lower_is_self hw && negb (Py.upper_is_self hw)); [|now intros [= <-]].
    intros [= <-] w Hw. simpl in Hw.
    apply elem_of_union in Hw as [Hw|Hw]; [apply Hacc; simpl; apply elem_of_union; auto|].
    apply elem_of_union in Hw as [Hw|Hw]; [apply Hacc; simpl; apply elem_of_union; auto|].
    now apply elem_of_singleton in Hw as ->.
Qed.

Lemma build_lexicons_chars full acc :
  build_lexicons full = Ok acc -> lexicons_chars acc.
Proof.
  unfold build_lexicons. apply (for_each_keeps lexicons_chars).
  - intros st sec st' Hst. unfold section_step.
    apply (for_each_keeps_in lexicons_chars); [|exact Hst].
    clear. intros st m st' Hm Hst. unfold headword_step, group_strip.
    apply finditer_matches, headword_match in Hm as (a1 & b1 & a2 & b2 & Hc & Hcl).
    unfold Re.group. rewrite Hc. simpl.
    apply add_headword_chars; [|exact Hst].
    apply strip_chars, slice_chars, Hcl.
  - intros w Hw. simpl in Hw.
    apply elem_of_union in Hw as [Hw|Hw]; apply elem_of_empty in Hw as [].
Qed.

Lemma lower_apostrophe c : Py.char_lower c = "'"%char -> c = "'"%char.
Proof. destruct c as [[] [] [] [] [] [] [] []]; vm_compute; congruence. Qed.

Lemma apostrophe_lower tok w :
  "'"%char ∈ Py.chars tok -> Py.lower tok = Py.lower w -> "'"%char ∈ Py.chars w.
Proof.
  intros Hin E. apply (f_equal Py.chars) in E. rewrite !chars_lower in E.
  assert (H : "'"%char ∈ map Py.char_lower (Py.chars tok)).
  { apply list_elem_of_fmap. exists "'"%char. split; [reflexivity|exact Hin]. }
  rewrite E in H. apply list_elem_of_fmap in H as (c & Hc & Hw).
  symmetry in Hc. apply lower_apostrophe in Hc. now subst.
Qed.

(** X24: no word of a build holds an apostrophe, neither an approved or
    forbidden word nor one of the all-caps list; so a token with an
    apostrophe is never found in the lists of a build: the word check
    either skips it or reports it as unapproved. *)
Theorem apostrophe_never_listed extract pdf approved forbidden allcaps tok a b :
  build_lexicons_from_pdf extract pdf = Ok (approved, forbidden) ->
  extract_all_caps_words extract pdf = Ok allcaps ->
  "'"%char ∈ Py.chars tok ->
  (Py.lower tok ∉ lower_all approved ∪ lower_all allcaps) /\
  (Py.lower tok ∉ lower_all forbidden) /\
  Forall (fun i => type i = UnapprovedWord)
         (word_issue (lower_all approved ∪ lower_all allcaps) (lower_all forbidden)
            (tok, a, b)).
Proof.
  intros Hb Hc Htok.
  apply build_lexicons_from_pdf_inv in Hb as (full & Hx & Hb).
  pose proof (build_lexicons_chars full _ Hb) as Hchars.
  unfold extract_all_caps_words in Hc. rewrite Hx in Hc. simpl in Hc. injection Hc as <-.
  assert (Hno : forall w, Py.lower tok = Py.lower w ->
            ~ Forall (fun c => headword_char c = true) (Py.chars w) /\
            ~ Forall (fun c => caps_char c = true) (Py.chars w)).
  { intros w E. pose proof (apostrophe_lower tok w Htok E) as Hw.
    split; intros Hall; rewrite Forall_forall in Hall; specialize (Hall _ Hw);
      discriminate Hall. }
  assert (Ha : Py.lower tok ∉ lower_all approved ∪ lower_all (all_caps_words full)).
  { intros Hin. apply elem_of_union in Hin as [Hin|Hin];
      apply elem_of_map in Hin as (w & E & Hw); destruct (Hno w E) as [H1 H2].
    - apply H1, Hchars. simpl. apply elem_of_union. auto.
    - apply H2. destruct (all_caps_fold (Re.findall ALLCAPS_RE full) w ∅) as [Hf _].
      destruct (Hf Hw) as [Hf'|(Hf' & _)]; [apply elem_of_empty in Hf' as []|].
      destruct (findall_allcaps_shape full w Hf') as (x & y & _ & _ & _ & _ & _ & Hall).
      exact Hall. }
  assert (Hf : Py.lower tok ∉ lower_all forbidden).
  { intros Hin. apply elem_of_map in Hin as (w & E & Hw). destruct (Hno w E) as [H1 _].
    apply H1, Hchars. simpl. apply elem_of_union. auto. }
  split; [exact Ha|]. split; [exact Hf|].
  unfold word_issue.
  destruct (_ || _ || _); [constructor|].
  rewrite (bool_decide_eq_false_2 _ Hf), (bool_decide_eq_false_2 _ Ha). simpl.
  repeat constructor.
Qed.

Lemma apostrophe_never_listed_witness :
  Forall (fun i => type i = UnapprovedWord)
    (word_issue
       (lower_all (list_to_set ["STOP"; "STOPS"; "STOPPED"; "STOPPING"; "BOX"; "BOXES";
                                "SAFE"])
        ∪ lower_all (all_caps_words sample_document))
       (lower_all (list_to_set ["stop"])) ("stop's", 0, 6)).
Proof.
  apply (apostrophe_never_listed sample_extract "STE100.pdf").
  - vm_compute. reflexivity.
  - reflexivity.
  - apply list_elem_of_In. vm_compute. tauto.
Defined.
